(** * Dependabot-Jira sync: a shallow embedding of the reconciliation code

    The development follows [src/github.js], [src/jira.js] and [src/main.js].
    JavaScript values are modelled as the code uses them: strings as
    [string], integers as [Z], [undefined]/[null] as [None], thrown
    exceptions as the [Throw] branch of a result, and the logger, the
    action outputs and the two HTTP clients as events appended to a trace
    that lives in the state of a small state-and-exception monad.

    Where the model stops: letter case and white space are those of ASCII;
    numbers are integers, printed and read exactly, which is what
    JavaScript does for the safe integers (magnitude below 2^53); the
    offset of the runner's local time from UTC is a parameter of the host;
    a value that is absent and a value that is [null] are both [None], and
    print as [undefined]. *)

From Stdlib Require Import ZArith List String Ascii Bool Lia QArith.
From Stdlib Require Import Numbers.DecimalString.
From Stdlib Require Numbers.DecimalPos.
Import ListNotations.

Local Open Scope string_scope.
Local Open Scope Z_scope.

(* ===================================================================== *)
(** ** JavaScript strings *)
(* ===================================================================== *)

Module Js.

(** The largest integer below which every integer is a JavaScript number. *)
Definition MAX_SAFE_INTEGER : Z := 9007199254740991.

(** An integer that a JavaScript number holds exactly, and prints and
    reads back as it is. *)
Definition safe_integer (z : Z) : Prop := Z.abs z <= MAX_SAFE_INTEGER.

(** [String(n)] for an integer: its decimal digits, as JavaScript prints a
    safe integer. *)
Definition string_of_Z (z : Z) : string :=
  NilZero.string_of_int (Z.to_int z).

(** The names every object inherits from [Object.prototype]. *)
Definition objectPrototype : list string :=
  [ "constructor"; "__defineGetter__"; "__defineSetter__"; "hasOwnProperty";
    "__lookupGetter__"; "__lookupSetter__"; "isPrototypeOf";
    "propertyIsEnumerable"; "toString"; "valueOf"; "__proto__";
    "toLocaleString" ].

Definition is_upper (c : ascii) : bool :=
  let n := nat_of_ascii c in (65 <=? n)%nat && (n <=? 90)%nat.

Definition is_lower (c : ascii) : bool :=
  let n := nat_of_ascii c in (97 <=? n)%nat && (n <=? 122)%nat.

Definition is_digit (c : ascii) : bool :=
  let n := nat_of_ascii c in (48 <=? n)%nat && (n <=? 57)%nat.

(** White space as [\s] and [trim] see it (ASCII part). *)
Definition is_space (c : ascii) : bool :=
  let n := nat_of_ascii c in
  (n =? 32)%nat || ((9 <=? n)%nat && (n <=? 13)%nat).

Definition lower_char (c : ascii) : ascii :=
  if is_upper c then ascii_of_nat (nat_of_ascii c + 32) else c.

Definition upper_char (c : ascii) : ascii :=
  if is_lower c then ascii_of_nat (nat_of_ascii c - 32) else c.

Fixpoint map_string (f : ascii -> ascii) (s : string) : string :=
  match s with
  | EmptyString => EmptyString
  | String c r => String (f c) (map_string f r)
  end.

Definition toLowerCase : string -> string := map_string lower_char.
Definition toUpperCase : string -> string := map_string upper_char.

Fixpoint trimStart (s : string) : string :=
  match s with
  | String c r => if is_space c then trimStart r else s
  | EmptyString => EmptyString
  end.

Fixpoint trimEnd (s : string) : string :=
  match s with
  | EmptyString => EmptyString
  | String c r =>
      match trimEnd r with
      | EmptyString => if is_space c then EmptyString else String c EmptyString
      | r' => String c r'
      end
  end.

Definition trim (s : string) : string := trimEnd (trimStart s).

(** [s.split(sep)] for a one-character separator. *)
Fixpoint split (sep : ascii) (s : string) : list string :=
  match s with
  | EmptyString => [EmptyString]
  | String c r =>
      if Ascii.eqb c sep then EmptyString :: split sep r
      else match split sep r with
           | h :: t => String c h :: t
           | [] => [String c EmptyString]
           end
  end.

(** [xs.join(sep)]. *)
Fixpoint join (sep : string) (xs : list string) : string :=
  match xs with
  | [] => ""
  | [x] => x
  | x :: r => x ++ sep ++ join sep r
  end.

(** [a || b] where [a] is a string or absent. *)
Definition or_str (o : option string) (d : string) : string :=
  match o with
  | Some s => if String.eqb s "" then d else s
  | None => d
  end.

(** [a || null] where [a] is a string or absent. *)
Definition or_null (o : option string) : option string :=
  match o with
  | Some s => if String.eqb s "" then None else Some s
  | None => None
  end.

(** [haystack.startsWith(p)], returning the rest. *)
Fixpoint strip_prefix (p s : string) : option string :=
  match p with
  | EmptyString => Some s
  | String a p' =>
      match s with
      | String b s' => if Ascii.eqb a b then strip_prefix p' s' else None
      | EmptyString => None
      end
  end.

(** The longest prefix of digits, and what follows it. *)
Fixpoint span_digits (s : string) : string * string :=
  match s with
  | String c r =>
      if is_digit c then let (d, t) := span_digits r in (String c d, t)
      else (EmptyString, s)
  | EmptyString => (EmptyString, EmptyString)
  end.

Fixpoint skip_spaces (s : string) : string :=
  match s with
  | String c r => if is_space c then skip_spaces r else s
  | EmptyString => EmptyString
  end.

Definition digit_val (c : ascii) : Z := Z.of_nat (nat_of_ascii c) - 48.

Fixpoint digits_val (acc : Z) (s : string) : Z :=
  match s with
  | String c r => digits_val (10 * acc + digit_val c) r
  | EmptyString => acc
  end.

Fixpoint all_digits (s : string) : bool :=
  match s with
  | String c r => is_digit c && all_digits r
  | EmptyString => true
  end.

(** [parseInt(s, 10)]: leading white space, an optional sign, then the
    longest run of digits; NaN ([None]) when there is no digit. The value
    is that of the digits, which is the number JavaScript returns whenever
    it is a safe integer. *)
Definition parseInt (s : string) : option Z :=
  let s := skip_spaces s in
  let (neg, s) :=
    match s with
    | String c r =>
        if Ascii.eqb c "-" then (true, r)
        else if Ascii.eqb c "+" then (false, r)
        else (false, s)
    | EmptyString => (false, s)
    end in
  let (d, _) := span_digits s in
  if String.eqb d "" then None
  else Some (if neg then - digits_val 0 d else digits_val 0 d).

End Js.

(* ===================================================================== *)
(** ** JavaScript [Date] *)
(* ===================================================================== *)

Module JsDate.

Definition msPerDay : Z := 86400000.
Definition maxTime : Z := 8640000000000000.

(** A [Date] object holds a time value in milliseconds or NaN. *)
Inductive t := Valid (tv : Z) | Invalid.

Definition TimeClip (tv : Z) : t :=
  if Z.abs tv <=? maxTime then Valid tv else Invalid.

Definition Day (tv : Z) : Z := tv / msPerDay.
Definition TimeWithinDay (tv : Z) : Z := tv mod msPerDay.

(** Year, month (1..12) and day of month (1..31) of a day number, in the
    proleptic Gregorian calendar. *)
Definition civil_of_day (day : Z) : Z * Z * Z :=
  let z := day + 719468 in
  let era := z / 146097 in
  let doe := z - era * 146097 in
  let yoe := (doe - doe / 1460 + doe / 36524 - doe / 146096) / 365 in
  let y := yoe + era * 400 in
  let doy := doe - (365 * yoe + yoe / 4 - yoe / 100) in
  let mp := (5 * doy + 2) / 153 in
  let d := doy - (153 * mp + 2) / 5 + 1 in
  let m := if mp <? 10 then mp + 3 else mp - 9 in
  (if m <=? 2 then y + 1 else y, m, d).

Definition day_of_civil (y m d : Z) : Z :=
  let y' := if m <=? 2 then y - 1 else y in
  let era := y' / 400 in
  let yoe := y' - era * 400 in
  let doy := (153 * (if 2 <? m then m - 3 else m + 9) + 2) / 5 + d - 1 in
  let doe := yoe * 365 + yoe / 4 - yoe / 100 + doy in
  era * 146097 + doe - 719468.

Definition DateFromTime (tv : Z) : Z :=
  let '(_, _, d) := civil_of_day (Day tv) in d.

(** Local time. [tza t true] is the offset of local time from UTC, in
    milliseconds, at the UTC time value [t], and [tza t false] the offset
    at the local time value [t], as the host knows its time zone. *)
Definition LocalTime (tza : Z -> bool -> Z) (tv : Z) : Z := tv + tza tv true.
Definition UTC (tza : Z -> bool -> Z) (tl : Z) : Z := tl - tza tl false.

(** [d.getDate()], the day of the month in local time: NaN on an invalid
    date. *)
Definition getDate (tza : Z -> bool -> Z) (d : t) : option Z :=
  match d with
  | Valid tv => Some (DateFromTime (LocalTime tza tv))
  | Invalid => None
  end.

(** [d.setDate(dt)], in local time: MakeDay of the local year and month of
    [d] with day [dt] is the day number of the first of that month plus
    [dt - 1]; the local time within the day is kept, and the result is
    taken back to UTC; [dt = None] stands for NaN. *)
Definition setDate (tza : Z -> bool -> Z) (d : t) (dt : option Z) : t :=
  match d, dt with
  | Valid tv, Some n =>
      let tl := LocalTime tza tv in
      let first := Day tl - (DateFromTime tl - 1) in
      TimeClip (UTC tza ((first + (n - 1)) * msPerDay + TimeWithinDay tl))
  | _, _ => Invalid
  end.

Definition digit_char (d : Z) : ascii := ascii_of_nat (48 + Z.to_nat d).

(** A number as a decimal field of fixed width, as the date-time format
    writes its fields: the last [width] digits, padded with zeros. *)
Fixpoint pad_num (width : nat) (n : Z) : string :=
  match width with
  | O => ""
  | S w => pad_num w (n / 10) ++ String (digit_char (n mod 10)) ""
  end.

Definition year_string (y : Z) : string :=
  if (0 <=? y) && (y <=? 9999) then pad_num 4 y
  else if 0 <=? y then "+" ++ pad_num 6 y
  else "-" ++ pad_num 6 (- y).

(** [d.toISOString()]; a RangeError on an invalid date is [None]. *)
Definition toISOString (d : t) : option string :=
  match d with
  | Invalid => None
  | Valid tv =>
      let '(y, m, dd) := civil_of_day (Day tv) in
      let w := TimeWithinDay tv in
      Some (year_string y ++ "-" ++ pad_num 2 m ++ "-" ++ pad_num 2 dd
            ++ "T" ++ pad_num 2 (w / 3600000)
            ++ ":" ++ pad_num 2 ((w / 60000) mod 60)
            ++ ":" ++ pad_num 2 ((w / 1000) mod 60)
            ++ "." ++ pad_num 3 (w mod 1000) ++ "Z")
  end.

(** The date-time string format of ECMAScript, in the shape the alert
    source emits: [YYYY-MM-DDTHH:mm:ssZ], with optional milliseconds. *)
Definition take_num (n : nat) (s : string) : option (Z * string) :=
  let d := String.substring 0 n s in
  if ((String.length d =? n)%nat && Js.all_digits d)%bool
  then Some (Js.digits_val 0 d, String.substring n (String.length s - n) s)
  else None.

Definition expect (p : string) (s : string) : option string :=
  Js.strip_prefix p s.

Definition parse_iso (s : string) : t :=
  match take_num 4 s with
  | None => Invalid
  | Some (y, s) =>
  match expect "-" s with None => Invalid | Some s =>
  match take_num 2 s with None => Invalid | Some (mo, s) =>
  match expect "-" s with None => Invalid | Some s =>
  match take_num 2 s with None => Invalid | Some (d, s) =>
  match expect "T" s with None => Invalid | Some s =>
  match take_num 2 s with None => Invalid | Some (h, s) =>
  match expect ":" s with None => Invalid | Some s =>
  match take_num 2 s with None => Invalid | Some (mi, s) =>
  match expect ":" s with None => Invalid | Some s =>
  match take_num 2 s with None => Invalid | Some (sec, s) =>
  let fin (ms : Z) :=
    if (1 <=? mo) && (mo <=? 12) && (1 <=? d) && (d <=? 31)
       && (h <=? 23) && (mi <=? 59) && (sec <=? 59)
    then TimeClip (day_of_civil y mo d * msPerDay
                   + h * 3600000 + mi * 60000 + sec * 1000 + ms)
    else Invalid in
  if String.eqb s "Z" then fin 0
  else match expect "." s with
       | None => Invalid
       | Some s =>
           match take_num 3 s with
           | Some (ms, "Z") => fin ms
           | _ => Invalid
           end
       end
  end end end end end end end end end end end.

End JsDate.

(* ===================================================================== *)
(** ** Values thrown and returned *)
(* ===================================================================== *)

(** A thrown [Error]: its message, and the HTTP status the GitHub client
    attaches to a failed request. *)
Record JsError := mkError { status : option Z; message : string }.

Definition Error_ (msg : string) : JsError := mkError None msg.

(** [error.status === code]. *)
Definition status_is (err : JsError) (code : Z) : bool :=
  match status err with
  | Some c => c =? code
  | None => false
  end.

Inductive result (A : Type) : Type :=
| Ok (a : A)
| Throw (e : JsError).
Arguments Ok {A} a.
Arguments Throw {A} e.

(* ===================================================================== *)
(** ** Data model *)
(* ===================================================================== *)

(** The raw alert of the GitHub REST API, as far as the code reads it.
    Every sub-structure and every field may be absent. *)
Record Package := { name : option string; ecosystem : option string }.
Record Dependency := { package : option Package }.
Record Cvss := { score : option Q }.
Record Advisory := {
  summary : option string;
  description : option string;
  severity : option string;
  cvss : option Cvss;
  cve_id : option string;
  ghsa_id : option string }.
Record PatchedVersion := { identifier : option string }.
Record Vulnerability := {
  vulnerable_version_range : option string;
  first_patched_version : option PatchedVersion }.
Record RawAlert := {
  number : Z;
  security_advisory : option Advisory;
  security_vulnerability : option Vulnerability;
  dependency : option Dependency;
  html_url : option string;
  created_at : option string;
  updated_at : option string;
  state : option string;
  dismissed_at : option string;
  dismissed_reason : option string;
  dismissed_comment : option string }.

(** The object [parseAlert] returns. *)
Record Alert := {
  a_id : Z;
  a_title : string;
  a_description : string;
  a_severity : string;
  a_package : string;
  a_ecosystem : string;
  a_vulnerableVersionRange : string;
  a_firstPatchedVersion : string;
  a_cvss : option Q;
  a_cveId : option string;
  a_ghsaId : option string;
  a_url : option string;
  a_createdAt : option string;
  a_updatedAt : option string;
  a_state : option string;
  a_dismissedAt : option string;
  a_dismissedReason : option string;
  a_dismissedComment : option string }.

(** A Jira issue as the code reads it. *)
Record JiraIssue := {
  key : string;
  i_summary : option string;
  i_description : option string }.

Record Transition := { t_id : string; t_name : string }.

(** A number read from the configuration: [parseInt] gives an integer or
    NaN. *)
Inductive jsint := Int (z : Z) | NaN.

Record DueDays := {
  dd_critical : option jsint;
  dd_high : option jsint;
  dd_medium : option jsint;
  dd_low : option jsint }.

Record JiraConfig := {
  projectKey : string;
  issueType : string;
  priority : string;
  labels : option string;
  assignee : option string;
  dueDays : DueDays }.

Record Filters := {
  severityThreshold : option string;
  excludeDismissed : option bool }.

Record Behavior := {
  updateExisting : bool;
  autoCloseResolved : bool;
  closeTransition : string;
  closeComment : string;
  dryRun : bool }.

Record Config := {
  jira : JiraConfig;
  filters : Filters;
  behavior : Behavior }.

(** What the JavaScript host leaves to the implementation, and the time
    zone of the runner. *)
Record Platform := {
  Date_parse : string -> JsDate.t;
  Date_toLocaleString : JsDate.t -> string;
  Number_toString : Q -> string;
  LocalTZA : Z -> bool -> Z }.

(* ===================================================================== *)
(** ** [src/jira.js]: calculateDueDate *)
(* ===================================================================== *)

(** [v || d] for a configured number: absent, NaN and 0 are falsy. *)
Definition or_days (v : option jsint) (d : Z) : Z :=
  match v with
  | Some (Int z) => if z =? 0 then d else z
  | _ => d
  end.

Record DaysMap := { m_critical : Z; m_high : Z; m_medium : Z; m_low : Z }.

Definition daysMap (dueDaysConfig : DueDays) : DaysMap :=
  {| m_critical := or_days (dd_critical dueDaysConfig) 1;
     m_high := or_days (dd_high dueDaysConfig) 7;
     m_medium := or_days (dd_medium dueDaysConfig) 30;
     m_low := or_days (dd_low dueDaysConfig) 90 |}.

(** What reading a property of an object literal finds: a property of its
    own, a member inherited from [Object.prototype] (a function or an
    object, never a number), or nothing. *)
Inductive member := Own (z : Z) | Inherited | Absent.

(** [daysMap[severity]]. *)
Definition daysMap_get (m : DaysMap) (severity : string) : member :=
  if String.eqb severity "critical" then Own (m_critical m)
  else if String.eqb severity "high" then Own (m_high m)
  else if String.eqb severity "medium" then Own (m_medium m)
  else if String.eqb severity "low" then Own (m_low m)
  else if existsb (String.eqb severity) Js.objectPrototype then Inherited
  else Absent.

(** [daysMap[severity] || daysMap.medium]: a number of days, or, for an
    inherited member, which is truthy, something that is no number
    ([None]). *)
Definition dueDaysFor (dueDaysConfig : DueDays) (severity : string)
  : option Z :=
  let m := daysMap dueDaysConfig in
  match daysMap_get m severity with
  | Own z => Some (if z =? 0 then m_medium m else z)
  | Inherited => None
  | Absent => Some (m_medium m)
  end.

(** [createdAt ? new Date(createdAt) : new Date()]. *)
Definition baseDate (P : Platform) (now : Z) (createdAt : option string)
  : JsDate.t :=
  match createdAt with
  | Some s => if String.eqb s "" then JsDate.Valid now else Date_parse P s
  | None => JsDate.Valid now
  end.

(** [dueDate.getDate() + days]: the sum of two numbers; with [days] no
    number the sum is a string, which [setDate] reads as NaN. *)
Definition add_days (g : option Z) (days : option Z) : option Z :=
  match g, days with
  | Some d, Some n => Some (d + n)
  | _, _ => None
  end.

(** [now] is what [new Date()] reads from the clock. [toISOString] throws
    a RangeError on an invalid date. *)
Definition calculateDueDate (P : Platform) (now : Z)
    (severity : string) (dueDaysConfig : DueDays) (createdAt : option string)
  : result string :=
  let days := dueDaysFor dueDaysConfig severity in
  let base := baseDate P now createdAt in
  let dueDate :=
    JsDate.setDate (LocalTZA P) base
      (add_days (JsDate.getDate (LocalTZA P) base) days) in
  match JsDate.toISOString dueDate with
  | Some iso => Ok (hd "" (Js.split "T" iso))
  | None => Throw (Error_ "Invalid time value")
  end.

(* ===================================================================== *)
(** ** [src/github.js]: parseAlert and the severity filter *)
(* ===================================================================== *)

Definition opt_bind {A B} (o : option A) (f : A -> option B) : option B :=
  match o with
  | Some a => f a
  | None => None
  end.

(** [n || null] for a number: 0 is falsy. *)
Definition or_null_num (o : option Q) : option Q :=
  match o with
  | Some q => if Qeq_bool q 0 then None else Some q
  | None => None
  end.

Definition emptyAdvisory : Advisory :=
  {| summary := None; description := None; severity := None;
     cvss := None; cve_id := None; ghsa_id := None |}.
Definition emptyVulnerability : Vulnerability :=
  {| vulnerable_version_range := None; first_patched_version := None |}.
Definition emptyDependency : Dependency := {| package := None |}.

Definition or_obj {A} (o : option A) (d : A) : A :=
  match o with
  | Some a => a
  | None => d
  end.

Definition parseAlert (alert : RawAlert) : Alert :=
  let advisory := or_obj (security_advisory alert) emptyAdvisory in
  let vulnerability := or_obj (security_vulnerability alert) emptyVulnerability in
  let dependency := or_obj (dependency alert) emptyDependency in
  {| a_id := number alert;
     a_title :=
       Js.or_str (summary advisory)
         ("Vulnerability in " ++
            Js.or_str (opt_bind (package dependency) name) "unknown");
     a_description :=
       Js.or_str (description advisory) "No description available";
     a_severity :=
       Js.or_str (option_map Js.toLowerCase (severity advisory)) "unknown";
     a_package := Js.or_str (opt_bind (package dependency) name) "unknown";
     a_ecosystem :=
       Js.or_str (opt_bind (package dependency) ecosystem) "unknown";
     a_vulnerableVersionRange :=
       Js.or_str (vulnerable_version_range vulnerability) "unknown";
     a_firstPatchedVersion :=
       Js.or_str
         (opt_bind (first_patched_version vulnerability) identifier)
         "Not available";
     a_cvss := or_null_num (opt_bind (cvss advisory) score);
     a_cveId := Js.or_null (cve_id advisory);
     a_ghsaId := Js.or_null (ghsa_id advisory);
     a_url := html_url alert;
     a_createdAt := created_at alert;
     a_updatedAt := updated_at alert;
     a_state := state alert;
     a_dismissedAt := dismissed_at alert;
     a_dismissedReason := dismissed_reason alert;
     a_dismissedComment := dismissed_comment alert |}.

Definition severityLevels : list string :=
  ["low"; "medium"; "high"; "critical"].

(** [xs.indexOf(x)]; [undefined] is never found. *)
Fixpoint indexOf_from (i : Z) (xs : list string) (x : string) : Z :=
  match xs with
  | [] => -1
  | y :: r => if String.eqb y x then i else indexOf_from (i + 1) r x
  end.

Definition indexOf (xs : list string) (x : option string) : Z :=
  match x with
  | Some s => indexOf_from 0 xs s
  | None => -1
  end.

(** [alert.security_advisory?.severity?.toLowerCase()]. *)
Definition alertSeverity (alert : RawAlert) : option string :=
  option_map Js.toLowerCase (opt_bind (security_advisory alert) severity).

(** The predicate handed to [alerts.filter]. *)
Definition passesThreshold (minSeverityIndex : Z) (alert : RawAlert) : bool :=
  minSeverityIndex <=? indexOf severityLevels (alertSeverity alert).

(** The filtering step of [getDependabotAlerts], from the threshold to the
    filtered list or the thrown configuration error. *)
Definition filterBySeverity (severityThreshold : string)
    (alerts : list RawAlert) : result (list RawAlert) :=
  let minSeverityIndex :=
    indexOf severityLevels (Some (Js.toLowerCase severityThreshold)) in
  if minSeverityIndex =? -1
  then Throw (Error_ ("Invalid severity threshold: " ++ severityThreshold))
  else Ok (filter (passesThreshold minSeverityIndex) alerts).

(* ===================================================================== *)
(** ** [src/jira.js]: the two regular expressions of extractAlertIdFromIssue *)
(* ===================================================================== *)

(** [re.exec] tries the pattern at each position from the left. *)
Fixpoint search (at_pos : string -> option string) (s : string)
  : option string :=
  match at_pos s with
  | Some r => Some r
  | None =>
      match s with
      | String _ r => search at_pos r
      | EmptyString => None
      end
  end.

(** [\d+] with its capture. *)
Definition digits1 (s : string) : option string :=
  let (d, _) := Js.span_digits s in
  if String.eqb d "" then None else Some d.

(** [/Dependabot Alert #(\d+)/], anchored at the start of [s]. *)
Definition summaryPattern (s : string) : option string :=
  opt_bind (Js.strip_prefix "Dependabot Alert #" s) digits1.

(** [/Alert ID:\s*(\d+)/], anchored at the start of [s]. *)
Definition descriptionPattern (s : string) : option string :=
  opt_bind (Js.strip_prefix "Alert ID:" s)
           (fun r => digits1 (Js.skip_spaces r)).

(** [str?.match(re)], giving capture group 1. *)
Definition match1 (at_pos : string -> option string) (str : option string)
  : option string :=
  opt_bind str (search at_pos).

(* ===================================================================== *)
(** ** Effects: the logger, the action outputs and the two HTTP clients *)
(* ===================================================================== *)

(** The JSON body of a POST to Jira. *)
Record IssueFields := {
  f_project : string;
  f_summary : string;
  f_description : string;
  f_issuetype : string;
  f_priority : string;
  f_duedate : string;
  f_labels : option (list string);
  f_assignee : option string }.

Inductive PostBody :=
| IssueData (fields : IssueFields)
| CommentBody (body : string)
| CommentDoc (text : string)
| TransitionBody (id : string).

(** What a run does to the outside, in order. *)
Inductive event :=
| info (msg : string)
| warning (msg : string)
| error (msg : string)
| debug (msg : string)
| setOutput (name value : string)
| setFailed (msg : string)
| installationTokenRequest (installationId : string)
| listAlertsForRepo (owner repo state : string)
| getAlert (owner repo : string) (alert_number : option Z)
| jiraGet (url : string) (jql : option string)
| jiraPost (url : string) (body : PostBody).

(** A mutating request is a POST to Jira. *)
Definition is_write (e : event) : bool :=
  match e with
  | jiraPost _ _ => true
  | _ => false
  end.

(** A request to Jira of either kind. *)
Definition is_jira_request (e : event) : bool :=
  match e with
  | jiraPost _ _ | jiraGet _ _ => true
  | _ => false
  end.

(** The outside world: action inputs, the clock, and what GitHub and Jira
    answer. Every request may change the world and may fail.
    - [getConfig]: what [getConfig()] of [main.js] returns or throws;
    - [GITHUB_REPOSITORY], [getInput]: the environment variable and the
      authentication inputs read by [github.js];
    - [Date_now]: the instant [new Date()] reads;
    - [generateJWT appId privateKey], [createInstallationAccessToken jwt
      installationId]: the two steps of the GitHub App token;
    - [github_listAlertsForRepo token owner repo state] and
      [github_getAlert token owner repo alert_number]: [response.data] and
      [response.data.state] of the two Octokit calls;
    - [jira_search url jql]: [response.data.issues] of a GET with a query;
    - [jira_transitions url]: [response.data.transitions] of a GET;
    - [jira_post url body]: [response.data.key] of a POST.
    The message of a failed Jira request is the one the response
    interceptor of [createJiraClient] selects. *)
Record Env (W : Type) := {
  getConfig : result Config;
  GITHUB_REPOSITORY : option string;
  getInput : string -> string;
  Date_now : W -> Z;
  generateJWT : string -> string -> W -> result string;
  createInstallationAccessToken :
    string -> string -> W -> result string * W;
  github_listAlertsForRepo :
    string -> string -> string -> string -> W -> result (list RawAlert) * W;
  github_getAlert :
    string -> string -> string -> option Z -> W -> result string * W;
  jira_search : string -> string -> W -> result (option (list JiraIssue)) * W;
  jira_transitions : string -> W -> result (option (list Transition)) * W;
  jira_post : string -> PostBody -> W -> result (option string) * W }.
Arguments getConfig {W}.
Arguments GITHUB_REPOSITORY {W}.
Arguments generateJWT {W}.
Arguments getInput {W}.
Arguments Date_now {W}.
Arguments createInstallationAccessToken {W}.
Arguments github_listAlertsForRepo {W}.
Arguments github_getAlert {W}.
Arguments jira_search {W}.
Arguments jira_transitions {W}.
Arguments jira_post {W}.

(** The local variables of [run] that its loops update. *)
Record Locals := {
  issuesCreated : Z;
  issuesUpdated : Z;
  issuesClosed : Z;
  processedAlerts : list Alert }.

Record St (W : Type) := mkSt {
  world : W;
  trace : list event;
  locals : Locals }.
Arguments mkSt {W}.
Arguments world {W}.
Arguments trace {W}.
Arguments locals {W}.

(** A computation runs from a state to a value or a thrown error, and the
    state it leaves; what was done before a throw stays done. *)
Definition M (W A : Type) : Type := St W -> result A * St W.

Definition ret {W A} (a : A) : M W A := fun s => (Ok a, s).

Definition bind {W A B} (m : M W A) (k : A -> M W B) : M W B :=
  fun s =>
    match m s with
    | (Ok a, s') => k a s'
    | (Throw e, s') => (Throw e, s')
    end.

Definition throw {W A} (e : JsError) : M W A := fun s => (Throw e, s).

(** [try { m } catch (error) { handler(error) }]. *)
Definition try_catch {W A} (m : M W A) (handler : JsError -> M W A) : M W A :=
  fun s =>
    match m s with
    | (Ok a, s') => (Ok a, s')
    | (Throw e, s') => handler e s'
    end.

Definition emit {W} (e : event) : M W unit :=
  fun s => (Ok tt, mkSt (world s) (trace s ++ [e]) (locals s)).

(** A request: the event is recorded and the world answers. *)
Definition request {W A} (e : event) (op : W -> result A * W) : M W A :=
  fun s =>
    let (r, w) := op (world s) in
    (r, mkSt w (trace s ++ [e]) (locals s)).

Definition read_world {W A} (f : W -> A) : M W A :=
  fun s => (Ok (f (world s)), s).

Definition lift {W A} (r : result A) : M W A := fun s => (r, s).

(** A computation on the host that may throw but sends nothing. *)
Definition read_result {W A} (f : W -> result A) : M W A :=
  fun s => (f (world s), s).

Definition update_locals {W} (f : Locals -> Locals) : M W unit :=
  fun s => (Ok tt, mkSt (world s) (trace s) (f (locals s))).

Definition get_locals {W} : M W Locals := fun s => (Ok (locals s), s).

Declare Scope js_scope.
Delimit Scope js_scope with js.
Notation "x <- m ;; k" := (bind m (fun x => k))
  (at level 100, m at next level, right associativity) : js_scope.
Notation "m ;; k" := (bind m (fun _ => k))
  (at level 100, right associativity) : js_scope.
Local Open Scope js_scope.

(** [for (const x of xs) body(x)]. *)
Fixpoint for_of {W A} (body : A -> M W unit) (xs : list A) : M W unit :=
  match xs with
  | [] => ret tt
  | x :: r => body x ;; for_of body r
  end.

Definition nl : string := String (ascii_of_nat 10) EmptyString.

(** A template literal, line by line. *)
Definition lines (ls : list string) : string := Js.join nl ls.

(** [`${x}`] for a value that may be absent. *)
Definition show (o : option string) : string :=
  match o with
  | Some s => s
  | None => "undefined"
  end.

Definition dq : string := String (ascii_of_nat 34) EmptyString.

Definition len {A} (xs : list A) : string :=
  Js.string_of_Z (Z.of_nat (List.length xs)).

Section Program.

Context {W : Type}.
Variable P : Platform.
Variable E : Env W.

(* ===================================================================== *)
(** ** [src/github.js] *)
(* ===================================================================== *)

Definition getInstallationToken (appId privateKey installationId : string)
  : M W string :=
  jwtToken <- read_result (generateJWT E appId privateKey) ;;
  emit (info ("Getting installation token for App ID: " ++ appId
              ++ ", Installation: " ++ installationId)) ;;
  try_catch
    (request (installationTokenRequest installationId)
             (createInstallationAccessToken E jwtToken installationId))
    (fun error =>
       throw (Error_ ("Failed to get installation token: " ++ message error))).

Definition truthy (s : string) : bool := negb (String.eqb s "").

Definition getGitHubToken : M W string :=
  let appId := getInput E "github-app-id" in
  let privateKey := getInput E "github-app-private-key" in
  let installationId := getInput E "github-app-installation-id" in
  let token := getInput E "github-token" in
  if truthy appId && truthy privateKey && truthy installationId then
    emit (info "🔑 Using GitHub App authentication") ;;
    getInstallationToken appId privateKey installationId
  else if truthy token then
    emit (info "🔑 Using GitHub token authentication") ;;
    ret token
  else
    throw (Error_
      ("No authentication method provided. Please provide either:" ++ nl ++
       "1. GitHub App credentials (github-app-id, github-app-private-key, github-app-installation-id), or"
       ++ nl ++ "2. GitHub token (github-token)")).

Definition getRepoInfo : M W (string * string) :=
  match GITHUB_REPOSITORY E with
  | Some repository =>
      if truthy repository then
        let parts := Js.split "/" repository in
        ret (nth 0 parts "undefined", nth 1 parts "undefined")
      else
        throw (Error_ "GITHUB_REPOSITORY environment variable is not set")
  | None =>
      throw (Error_ "GITHUB_REPOSITORY environment variable is not set")
  end.

Definition getDependabotAlerts (owner repo : string) (options : Filters)
  : M W (list RawAlert) :=
  let excludeDismissed := or_obj (excludeDismissed options) true in
  let severityThreshold := or_obj (severityThreshold options) "medium" in
  token <- getGitHubToken ;;
  emit (info ("Fetching Dependabot alerts for " ++ owner ++ "/" ++ repo)) ;;
  try_catch
    (let state := if excludeDismissed then "open" else "all" in
     alerts <- request (listAlertsForRepo owner repo state)
                 (github_listAlertsForRepo E token owner repo state) ;;
     emit (info ("Found " ++ len alerts ++ " total alerts")) ;;
     filteredAlerts <- lift (filterBySeverity severityThreshold alerts) ;;
     emit (info (len filteredAlerts ++ " alerts match severity threshold: "
                 ++ severityThreshold)) ;;
     ret filteredAlerts)
    (fun err =>
       emit (error ("Failed to fetch Dependabot alerts: " ++ message err)) ;;
       throw err).

Definition getAlertStatus (owner repo alertId : string) : M W string :=
  token <- getGitHubToken ;;
  try_catch
    (emit (info ("Checking status of alert #" ++ alertId)) ;;
     let alert_number := Js.parseInt alertId in
     state <- request (getAlert owner repo alert_number)
                (github_getAlert E token owner repo alert_number) ;;
     if String.eqb state "open" then ret "open"
     else if String.eqb state "dismissed" then ret "dismissed"
     else if String.eqb state "fixed" then ret "fixed"
     else ret state)
    (fun err =>
       if status_is err 404 then
         emit (info ("Alert #" ++ alertId
                     ++ " not found (may have been deleted)")) ;;
         ret "not_found"
       else
         emit (warning ("Failed to check status of alert #" ++ alertId
                        ++ ": " ++ message err)) ;;
         ret "unknown").

(* ===================================================================== *)
(** ** [src/jira.js] *)
(* ===================================================================== *)

(** The response interceptor installed by [createJiraClient]: a failed
    request is logged and thrown again under a Jira prefix. *)
Definition jiraClient {A} (e : event) (op : W -> result A * W) : M W A :=
  try_catch (request e op)
    (fun err =>
       emit (error ("Jira API Error: " ++ message err)) ;;
       throw (Error_ ("Jira API Error: " ++ message err))).

Definition existingIssueJql (projectKey : string) (alertId : Z) : string :=
  "project = " ++ projectKey ++ " AND summary ~ " ++ dq
  ++ "Dependabot Alert #" ++ Js.string_of_Z alertId ++ dq.

Definition findExistingIssue (projectKey : string) (alertId : Z)
  : M W (option JiraIssue) :=
  try_catch
    (let jql := existingIssueJql projectKey alertId in
     response <- jiraClient (jiraGet "/search" (Some jql))
                   (jira_search E "/search" jql) ;;
     match response with
     | Some (issue :: _) => ret (Some issue)
     | Some [] => ret None
     | None =>
         throw (Error_
           "Cannot read properties of undefined (reading 'length')")
     end)
    (fun err =>
       emit (warning ("Failed to search for existing issue: "
                      ++ message err)) ;;
       ret None).

Definition when_num (o : option Q) (f : Q -> string) : string :=
  match o with
  | Some q => if Qeq_bool q 0 then "" else f q
  | None => ""
  end.

Definition when_str (o : option string) (f : string -> string) : string :=
  match o with
  | Some s => if String.eqb s "" then "" else f s
  | None => ""
  end.

Definition issueDescription (alert : Alert) : string :=
  Js.trim (lines [
    "";
    "*Dependabot Security Alert #" ++ Js.string_of_Z (a_id alert) ++ "*";
    "";
    "*Package:* " ++ a_package alert;
    "*Ecosystem:* " ++ a_ecosystem alert;
    "*Severity:* " ++ Js.toUpperCase (a_severity alert);
    "*Vulnerable Version Range:* " ++ a_vulnerableVersionRange alert;
    "*First Patched Version:* " ++ a_firstPatchedVersion alert;
    "";
    "*Description:*";
    a_description alert;
    "";
    when_num (a_cvss alert)
      (fun q => "*CVSS Score:* " ++ Number_toString P q);
    when_str (a_cveId alert) (fun s => "*CVE ID:* " ++ s);
    when_str (a_ghsaId alert) (fun s => "*GHSA ID:* " ++ s);
    "";
    "*GitHub Alert URL:* " ++ show (a_url alert);
    "";
    "---";
    "_This issue was automatically created by the Dependabot Jira Sync action._";
    "  "]).

Definition issueData (config : JiraConfig) (alert : Alert) (dueDate : string)
  : IssueFields :=
  {| f_project := projectKey config;
     f_summary := "Dependabot Alert #" ++ Js.string_of_Z (a_id alert)
                  ++ ": " ++ a_title alert;
     f_description := issueDescription alert;
     f_issuetype := issueType config;
     f_priority := priority config;
     f_duedate := dueDate;
     f_labels :=
       match labels config with
       | Some l =>
           if truthy l then Some (map Js.trim (Js.split "," l)) else None
       | None => None
       end;
     f_assignee := Js.or_null (assignee config) |}.

(** What [createJiraIssue] resolves to: the response data, or the dry-run
    sentinel. *)
Record Created := { c_key : option string; c_dryRun : bool }.

Definition createJiraIssue (config : JiraConfig) (alert : Alert)
    (dryRun : bool) : M W Created :=
  now <- read_world (Date_now E) ;;
  dueDate <- lift (calculateDueDate P now (a_severity alert)
                     (dueDays config) (a_createdAt alert)) ;;
  let data := issueData config alert dueDate in
  if dryRun then
    emit (info ("[DRY RUN] Would create Jira issue: " ++ f_summary data)) ;;
    ret {| c_key := Some "DRY-RUN-KEY"; c_dryRun := true |}
  else
    try_catch
      (response <- jiraClient (jiraPost "/issue" (IssueData data))
                     (jira_post E "/issue" (IssueData data)) ;;
       emit (info ("Created Jira issue: " ++ show response)) ;;
       ret {| c_key := response; c_dryRun := false |})
      (fun err =>
         emit (error ("Failed to create Jira issue: " ++ message err)) ;;
         throw err).

(** [new Date(x)] for a timestamp that may be absent. *)
Definition newDate (x : option string) : JsDate.t :=
  match x with
  | Some s => Date_parse P s
  | None => JsDate.Invalid
  end.

Definition updateComment (alert : Alert) : string :=
  Js.trim (lines [
    "";
    "*Dependabot Alert Updated*";
    "";
    "The Dependabot alert #" ++ Js.string_of_Z (a_id alert)
      ++ " has been updated.";
    "";
    "*Current Status:* " ++ show (a_state alert);
    "*Last Updated:* "
      ++ Date_toLocaleString P (newDate (a_updatedAt alert));
    "";
    when_str (a_dismissedAt alert)
      (fun s => "*Dismissed At:* "
                ++ Date_toLocaleString P (Date_parse P s));
    when_str (a_dismissedReason alert)
      (fun s => "*Dismissed Reason:* " ++ s);
    when_str (a_dismissedComment alert)
      (fun s => "*Dismissed Comment:* " ++ s);
    "";
    "*GitHub Alert URL:* " ++ show (a_url alert);
    "  "]).

Record Updated := { u_updated : bool; u_dryRun : bool }.

Definition updateJiraIssue (issueKey : string) (alert : Alert)
    (dryRun : bool) : M W Updated :=
  let comment := updateComment alert in
  if dryRun then
    emit (info ("[DRY RUN] Would update Jira issue " ++ issueKey
                ++ " with comment")) ;;
    ret {| u_updated := true; u_dryRun := true |}
  else
    try_catch
      (let url := "/issue/" ++ issueKey ++ "/comment" in
       jiraClient (jiraPost url (CommentBody comment))
         (jira_post E url (CommentBody comment)) ;;
       emit (info ("Updated Jira issue: " ++ issueKey)) ;;
       ret {| u_updated := true; u_dryRun := false |})
      (fun err =>
         emit (error ("Failed to update Jira issue " ++ issueKey ++ ": "
                      ++ message err)) ;;
         throw err).

Definition openIssuesJql (projectKey : string) : string :=
  "project = " ++ dq ++ projectKey ++ dq
  ++ " AND labels = " ++ dq ++ "dependabot" ++ dq
  ++ " AND status != " ++ dq ++ "Done" ++ dq
  ++ " AND status != " ++ dq ++ "Resolved" ++ dq
  ++ " AND status != " ++ dq ++ "Closed" ++ dq.

Definition findOpenDependabotIssues (projectKey : string)
  : M W (list JiraIssue) :=
  let jql := openIssuesJql projectKey in
  emit (info ("Searching for open Dependabot issues in project "
              ++ projectKey)) ;;
  try_catch
    (response <- jiraClient (jiraGet "/rest/api/3/search" (Some jql))
                   (jira_search E "/rest/api/3/search" jql) ;;
     let issues := or_obj response [] in
     emit (info ("Found " ++ len issues ++ " open Dependabot issues")) ;;
     ret issues)
    (fun err =>
       emit (warning ("Failed to search for open Dependabot issues: "
                      ++ message err)) ;;
       ret []).

Definition extractAlertIdFromIssue (issue : JiraIssue)
  : M W (option string) :=
  match match1 summaryPattern (i_summary issue) with
  | Some id => ret (Some id)
  | None =>
      match match1 descriptionPattern (i_description issue) with
      | Some id => ret (Some id)
      | None =>
          emit (warning ("Could not extract alert ID from issue "
                         ++ key issue)) ;;
          ret None
      end
  end.

(** [availableTransitions.find(t => t.name.toLowerCase() ===
    transition.toLowerCase())]. *)
Definition findTransition (availableTransitions : list Transition)
    (transition : string) : option Transition :=
  find (fun t => String.eqb (Js.toLowerCase (t_name t))
                            (Js.toLowerCase transition))
       availableTransitions.

Definition transitionNotAvailable (transition : string)
    (availableTransitions : list Transition) : string :=
  "Transition " ++ dq ++ transition ++ dq
  ++ " not available. Available transitions: "
  ++ Js.join ", " (map t_name availableTransitions).

Record Closed := { cl_closed : bool; cl_dryRun : bool }.

Definition closeJiraIssue (issueKey transition comment : string)
    (dryRun : bool) : M W Closed :=
  if dryRun then
    emit (info ("[DRY RUN] Would close Jira issue " ++ issueKey
                ++ " with transition " ++ dq ++ transition ++ dq)) ;;
    ret {| cl_closed := false; cl_dryRun := true |}
  else
    try_catch
      (let turl := "/rest/api/3/issue/" ++ issueKey ++ "/transitions" in
       transitionsResponse <- jiraClient (jiraGet turl None)
                                (jira_transitions E turl) ;;
       let availableTransitions := or_obj transitionsResponse [] in
       match findTransition availableTransitions transition with
       | None =>
           throw (Error_
             (transitionNotAvailable transition availableTransitions))
       | Some targetTransition =>
           (if truthy comment then
              let curl := "/rest/api/3/issue/" ++ issueKey ++ "/comment" in
              jiraClient (jiraPost curl (CommentDoc comment))
                (jira_post E curl (CommentDoc comment)) ;;
              ret tt
            else ret tt) ;;
           jiraClient
             (jiraPost turl (TransitionBody (t_id targetTransition)))
             (jira_post E turl (TransitionBody (t_id targetTransition))) ;;
           emit (info ("Closed Jira issue: " ++ issueKey
                       ++ " using transition " ++ dq ++ transition ++ dq)) ;;
           ret {| cl_closed := true; cl_dryRun := false |}
       end)
      (fun err =>
         emit (error ("Failed to close Jira issue " ++ issueKey ++ ": "
                      ++ message err)) ;;
         throw err).

(* ===================================================================== *)
(** ** [src/main.js] *)
(* ===================================================================== *)

Definition incr_created (l : Locals) : Locals :=
  {| issuesCreated := issuesCreated l + 1;
     issuesUpdated := issuesUpdated l;
     issuesClosed := issuesClosed l;
     processedAlerts := processedAlerts l |}.

Definition incr_updated (l : Locals) : Locals :=
  {| issuesCreated := issuesCreated l;
     issuesUpdated := issuesUpdated l + 1;
     issuesClosed := issuesClosed l;
     processedAlerts := processedAlerts l |}.

Definition incr_closed (l : Locals) : Locals :=
  {| issuesCreated := issuesCreated l;
     issuesUpdated := issuesUpdated l;
     issuesClosed := issuesClosed l + 1;
     processedAlerts := processedAlerts l |}.

Definition push_processed (a : Alert) (l : Locals) : Locals :=
  {| issuesCreated := issuesCreated l;
     issuesUpdated := issuesUpdated l;
     issuesClosed := issuesClosed l;
     processedAlerts := processedAlerts l ++ [a] |}.

Definition init_locals : Locals :=
  {| issuesCreated := 0; issuesUpdated := 0; issuesClosed := 0;
     processedAlerts := [] |}.

(** The [if (existingIssue)] of the loop over the alerts. *)
Definition handleAlert (config : Config) (parsedAlert : Alert)
    (existingIssue : option JiraIssue) : M W unit :=
  match existingIssue with
  | Some existing =>
      if updateExisting (behavior config) then
        emit (info ("Found existing issue: " ++ key existing)) ;;
        updateJiraIssue (key existing) parsedAlert
          (dryRun (behavior config)) ;;
        update_locals incr_updated
      else
        emit (info ("Skipping existing issue: " ++ key existing
                    ++ " (update-existing is false)"))
  | None =>
      newIssue <- createJiraIssue (jira config) parsedAlert
                    (dryRun (behavior config)) ;;
      update_locals incr_created ;;
      if negb (dryRun (behavior config)) then
        emit (info ("✅ Created Jira issue " ++ show (c_key newIssue)
                    ++ " for alert #" ++ Js.string_of_Z (a_id parsedAlert)))
      else ret tt
  end.

(** The body of the [try] inside the loop over the alerts. *)
Definition processAlert (config : Config) (alert : RawAlert) : M W unit :=
  let parsedAlert := parseAlert alert in
  update_locals (push_processed parsedAlert) ;;
  emit (info ("Processing alert #" ++ Js.string_of_Z (a_id parsedAlert)
              ++ ": " ++ a_title parsedAlert)) ;;
  existingIssue <- findExistingIssue (projectKey (jira config))
                     (a_id parsedAlert) ;;
  handleAlert config parsedAlert existingIssue.

(** One turn of the loop over the alerts, with its [catch]. *)
Definition alertIteration (config : Config) (alert : RawAlert) : M W unit :=
  try_catch (processAlert config alert)
    (fun err =>
       emit (error ("Failed to process alert #"
                    ++ Js.string_of_Z (number alert) ++ ": "
                    ++ message err))).

(** The alert is resolved: its ticket is to be closed. *)
Definition isResolved (alertStatus : string) : bool :=
  String.eqb alertStatus "fixed"
  || String.eqb alertStatus "dismissed"
  || String.eqb alertStatus "not_found".

Definition closeReason (alertStatus : string) : string :=
  if String.eqb alertStatus "not_found"
  then "Alert was deleted from GitHub"
  else "Alert was " ++ alertStatus ++ " in GitHub".

(** The branch of the auto-close loop taken when the alert is resolved. *)
Definition closeResolved (config : Config) (issue : JiraIssue)
    (alertId alertStatus : string) : M W unit :=
  let closeComment :=
    closeComment (behavior config) ++ nl ++ nl ++ "Reason: "
    ++ closeReason alertStatus in
  closeJiraIssue (key issue) (closeTransition (behavior config))
    closeComment (dryRun (behavior config)) ;;
  update_locals incr_closed ;;
  if negb (dryRun (behavior config)) then
    emit (info ("🔒 Closed Jira issue " ++ key issue ++ " (Alert #"
                ++ alertId ++ " was " ++ alertStatus ++ ")"))
  else ret tt.

(** What the auto-close loop does with a ticket once the status of its
    alert is known. *)
Definition actOnStatus (config : Config) (issue : JiraIssue)
    (alertId alertStatus : string) : M W unit :=
  if isResolved alertStatus then
    closeResolved config issue alertId alertStatus
  else if String.eqb alertStatus "open" then
    emit (debug ("Alert #" ++ alertId
                 ++ " is still open, keeping Jira issue " ++ key issue
                 ++ " open"))
  else
    emit (warning ("Unknown status '" ++ alertStatus ++ "' for alert #"
                   ++ alertId ++ ", keeping issue " ++ key issue
                   ++ " open")).

(** The body of the [try] inside the auto-close loop. *)
Definition processIssue (config : Config) (owner repo : string)
    (issue : JiraIssue) : M W unit :=
  alertId <- extractAlertIdFromIssue issue ;;
  match alertId with
  | None => ret tt
  | Some alertId =>
      alertStatus <- getAlertStatus owner repo alertId ;;
      actOnStatus config issue alertId alertStatus
  end.

(** One turn of the auto-close loop, with its [catch]. *)
Definition issueIteration (config : Config) (owner repo : string)
    (issue : JiraIssue) : M W unit :=
  try_catch (processIssue config owner repo issue)
    (fun err =>
       emit (warning ("Failed to process issue " ++ key issue
                      ++ " for auto-close: " ++ message err))).

Definition autoClosePhase (config : Config) (owner repo : string)
  : M W unit :=
  if autoCloseResolved (behavior config) then
    emit (info (nl ++ "🔄 Checking for resolved alerts to auto-close...")) ;;
    try_catch
      (openIssues <- findOpenDependabotIssues (projectKey (jira config)) ;;
       for_of (issueIteration config owner repo) openIssues ;;
       emit (info ("Processed " ++ len openIssues
                   ++ " open Dependabot issues for auto-close")))
      (fun err =>
         emit (warning ("Auto-close phase failed: " ++ message err)))
  else
    emit (info "Auto-close feature is disabled").

Definition summaryText (dryRun : bool) (l : Locals) : string :=
  let c := Js.string_of_Z (issuesCreated l) in
  let u := Js.string_of_Z (issuesUpdated l) in
  let k := Js.string_of_Z (issuesClosed l) in
  if dryRun then
    "DRY RUN: Would create " ++ c ++ " issues, update " ++ u
    ++ " issues, and close " ++ k ++ " issues"
  else
    "Created " ++ c ++ " new issues, updated " ++ u
    ++ " existing issues, and closed " ++ k ++ " resolved issues".

Definition reportResults (config : Config) : M W unit :=
  l <- get_locals ;;
  let summary := summaryText (dryRun (behavior config)) l in
  emit (info (nl ++ "📊 Summary:")) ;;
  emit (info ("- Alerts processed: " ++ len (processedAlerts l))) ;;
  emit (info ("- Issues created: " ++ Js.string_of_Z (issuesCreated l))) ;;
  emit (info ("- Issues updated: " ++ Js.string_of_Z (issuesUpdated l))) ;;
  emit (info ("- Issues closed: " ++ Js.string_of_Z (issuesClosed l))) ;;
  (if dryRun (behavior config)
   then emit (info "- Mode: DRY RUN (no actual changes made)")
   else ret tt) ;;
  emit (setOutput "issues-created" (Js.string_of_Z (issuesCreated l))) ;;
  emit (setOutput "issues-updated" (Js.string_of_Z (issuesUpdated l))) ;;
  emit (setOutput "issues-closed" (Js.string_of_Z (issuesClosed l))) ;;
  emit (setOutput "alerts-processed" (len (processedAlerts l))) ;;
  emit (setOutput "summary" summary) ;;
  emit (info "✅ Dependabot Jira Sync completed successfully").

(** The early return of [run] when no alert passes the filters. *)
Definition noAlerts : M W unit :=
  emit (info "✅ No Dependabot alerts found matching the criteria") ;;
  emit (setOutput "issues-created" "0") ;;
  emit (setOutput "issues-updated" "0") ;;
  emit (setOutput "alerts-processed" "0") ;;
  emit (setOutput "summary" "No alerts to process").

(** [run], from the alerts that passed the filters on. *)
Definition sync (config : Config) (owner repo : string)
    (alerts : list RawAlert) : M W unit :=
  match alerts with
  | [] => noAlerts
  | _ :: _ =>
      update_locals (fun _ => init_locals) ;;
      for_of (alertIteration config) alerts ;;
      autoClosePhase config owner repo ;;
      reportResults config
  end.

(** [run], once [getConfig] has returned. *)
Definition main (config : Config) : M W unit :=
  emit (info "Starting Dependabot Jira Sync...") ;;
  (if dryRun (behavior config)
   then emit (warning "🧪 DRY RUN MODE - No changes will be made")
   else ret tt) ;;
  repository <- getRepoInfo ;;
  let (owner, repo) := repository in
  emit (info ("Repository: " ++ owner ++ "/" ++ repo)) ;;
  alerts <- getDependabotAlerts owner repo (filters config) ;;
  sync config owner repo alerts.

Definition run : M W unit :=
  try_catch
    (config <- lift (getConfig E) ;;
     main config)
    (fun err => emit (setFailed (message err))).

End Program.

(* ===================================================================== *)
(** ** A sample host and sample worlds, for concrete runs *)
(* ===================================================================== *)

Module Sample.

(** A host that reads ISO timestamps and prints dates in ISO form and
    scores with one decimal, on a runner whose local time is UTC. *)
Definition node : Platform :=
  {| Date_parse := JsDate.parse_iso;
     Date_toLocaleString := fun d =>
       match JsDate.toISOString d with
       | Some s => s
       | None => "Invalid Date"
       end;
     Number_toString := fun q =>
       let t := (Qnum q * 10) / Zpos (Qden q) in
       Js.string_of_Z (t / 10) ++ "." ++ Js.string_of_Z (t mod 10);
     LocalTZA := fun _ _ => 0 |}.



Definition dueDays1 : DueDays :=
  {| dd_critical := Some (Int 1); dd_high := Some (Int 7);
     dd_medium := Some (Int 30); dd_low := Some (Int 90) |}.


Definition config (dry : bool) : Config :=
  {| jira :=
       {| projectKey := "SEC"; issueType := "Bug"; priority := "High";
          labels := Some "dependabot, security"; assignee := None;
          dueDays := dueDays1 |};
     filters :=
       {| severityThreshold := Some "medium"; excludeDismissed := Some true |};
     behavior :=
       {| updateExisting := true; autoCloseResolved := true;
          closeTransition := "done";
          closeComment := "Closed automatically.";
          dryRun := dry |} |}.

Definition rawAlert (n : Z) (sev : string) : RawAlert :=
  {| number := n;
     security_advisory :=
       Some {| summary := Some "Prototype pollution";
               description := Some "Details";
               severity := Some sev;
               cvss := Some {| score := Some (98 # 10) |};
               cve_id := Some "CVE-2019-10744";
               ghsa_id := None |};
     security_vulnerability := None;
     dependency :=
       Some {| package :=
                 Some {| name := Some "lodash"; ecosystem := Some "npm" |} |};
     html_url := Some "https://github.com/o/r/security/dependabot/1";
     created_at := Some "2023-01-10T08:00:00Z";
     updated_at := Some "2023-01-12T08:00:00Z";
     state := Some "open";
     dismissed_at := None;
     dismissed_reason := None;
     dismissed_comment := None |}.

Definition ticket (k : string) (n : string) : JiraIssue :=
  {| key := k;
     i_summary := Some ("Dependabot Alert #" ++ n ++ ": Prototype pollution");
     i_description := Some "Details" |}.

(** A world without memory: GitHub lists [alerts]; alert 7 is fixed, alert
    8 is open, alert 9 is gone (404), a look-up of alert 10 fails in
    transit, every other alert is in a state GitHub has no name for; Jira
    knows the tickets [tickets] as open, finds no ticket for any alert,
    offers the transition "Done" on every ticket but SEC-1, and accepts
    every POST. *)
Definition env (dry : bool) (alerts : list RawAlert)
    (tickets : list JiraIssue) : Env unit :=
  {| getConfig := Ok (config dry);
     GITHUB_REPOSITORY := Some "o/r";
     getInput := fun n => if String.eqb n "github-token" then "t0k3n" else "";
     Date_now := fun _ => 1673776800000;
     generateJWT := fun _ _ _ => Ok "jwt";
     createInstallationAccessToken := fun _ _ w => (Ok "inst", w);
     github_listAlertsForRepo := fun _ _ _ _ w => (Ok alerts, w);
     github_getAlert := fun _ _ _ n w =>
       match n with
       | Some 7 => (Ok "fixed", w)
       | Some 8 => (Ok "open", w)
       | Some 9 => (Throw (mkError (Some 404) "Not Found"), w)
       | Some 10 => (Throw (mkError None "socket hang up"), w)
       | _ => (Ok "auto_dismissed", w)
       end;
     jira_search := fun url _ w =>
       if String.eqb url "/search" then (Ok (Some []), w)
       else (Ok (Some tickets), w);
     jira_transitions := fun url w =>
       if String.eqb url "/rest/api/3/issue/SEC-1/transitions"
       then (Ok (Some [ {| t_id := "21"; t_name := "In Progress" |};
                        {| t_id := "41"; t_name := "Resolved" |} ]), w)
       else (Ok (Some [ {| t_id := "21"; t_name := "In Progress" |};
                        {| t_id := "31"; t_name := "Done" |} ]), w);
     jira_post := fun _ _ w => (Ok (Some "SEC-100"), w) |}.

Definition start : St unit :=
  mkSt tt [] init_locals.

(** An alert whose advisory carries only falsy values: empty strings and a
    CVSS score of zero. *)
Definition falsyAdvisory : Advisory :=
  {| summary := Some ""; description := Some ""; severity := Some "";
     cvss := Some {| score := Some (0 # 1) |};
     cve_id := Some ""; ghsa_id := Some "" |}.

Definition falsyAlert : RawAlert :=
  {| number := 5;
     security_advisory := Some falsyAdvisory;
     security_vulnerability := None;
     dependency :=
       Some {| package :=
                 Some {| name := Some "lodash"; ecosystem := Some "" |} |};
     html_url := Some "https://github.com/o/r/security/dependabot/5";
     created_at := None; updated_at := None;
     state := Some "open";
     dismissed_at := None; dismissed_reason := None;
     dismissed_comment := None |}.

(** An alert whose creation time is no date: creating its ticket throws. *)
Definition undatedAlert (n : Z) : RawAlert :=
  {| number := n;
     security_advisory :=
       Some {| summary := Some "Prototype pollution";
               description := None; severity := Some "high";
               cvss := None; cve_id := None; ghsa_id := None |};
     security_vulnerability := None;
     dependency := None;
     html_url := Some "https://github.com/o/r/security/dependabot/3";
     created_at := Some "yesterday";
     updated_at := None;
     state := Some "open";
     dismissed_at := None; dismissed_reason := None;
     dismissed_comment := None |}.

End Sample.

(* ===================================================================== *)
(** ** Vocabulary of the statements *)
(* ===================================================================== *)

(** The ordering low < medium < high < critical, written out. *)
Definition severity_index (s : string) : option Z :=
  if String.eqb s "low" then Some 0
  else if String.eqb s "medium" then Some 1
  else if String.eqb s "high" then Some 2
  else if String.eqb s "critical" then Some 3
  else None.



(** A raw text field that JavaScript takes for false: absent or empty. *)
Definition falsy_text (o : option string) : Prop := o = None \/ o = Some "".

(** A raw score that JavaScript takes for false: absent or zero. *)
Definition falsy_score (o : option Q) : Prop :=
  o = None \/ exists q, o = Some q /\ q == 0.

(** The raw alert with every falsy field under an [||] made absent. *)
Definition blank (o : option string) : option string :=
  match o with
  | Some EmptyString => None
  | _ => o
  end.

Definition blank_score (o : option Q) : option Q :=
  match o with
  | Some q => if Qnum q =? 0 then None else o
  | None => None
  end.

Definition withoutFalsy (alert : RawAlert) : RawAlert :=
  {| number := number alert;
     security_advisory :=
       option_map (fun a =>
         {| summary := blank (summary a);
            description := blank (description a);
            severity := blank (severity a);
            cvss := option_map
                      (fun c => {| score := blank_score (score c) |})
                      (cvss a);
            cve_id := blank (cve_id a);
            ghsa_id := blank (ghsa_id a) |})
         (security_advisory alert);
     security_vulnerability :=
       option_map (fun v =>
         {| vulnerable_version_range := blank (vulnerable_version_range v);
            first_patched_version :=
              option_map (fun p => {| identifier := blank (identifier p) |})
                (first_patched_version v) |})
         (security_vulnerability alert);
     dependency :=
       option_map (fun d =>
         {| package :=
              option_map (fun p =>
                {| name := blank (name p);
                   ecosystem := blank (ecosystem p) |})
                (package d) |})
         (dependency alert);
     html_url := html_url alert;
     created_at := created_at alert;
     updated_at := updated_at alert;
     state := state alert;
     dismissed_at := dismissed_at alert;
     dismissed_reason := dismissed_reason alert;
     dismissed_comment := dismissed_comment alert |}.

(** The raw alert with the CVSS block of its advisory removed. *)
Definition withoutCvss (alert : RawAlert) : RawAlert :=
  {| number := number alert;
     security_advisory :=
       option_map (fun a =>
         {| summary := summary a;
            description := description a;
            severity := severity a;
            cvss := None;
            cve_id := cve_id a;
            ghsa_id := ghsa_id a |})
         (security_advisory alert);
     security_vulnerability := security_vulnerability alert;
     dependency := dependency alert;
     html_url := html_url alert;
     created_at := created_at alert;
     updated_at := updated_at alert;
     state := state alert;
     dismissed_at := dismissed_at alert;
     dismissed_reason := dismissed_reason alert;
     dismissed_comment := dismissed_comment alert |}.






Fixpoint has_char (c : ascii) (s : string) : bool :=
  match s with
  | String a r => Ascii.eqb a c || has_char c r
  | EmptyString => false
  end.


(** [m] appends events to the trace, all of them in [Q], and does nothing
    else to it, whether it returns or throws. *)
Definition emits {W A} (Q : event -> Prop) (m : M W A) : Prop :=
  forall s r s',
    m s = (r, s') ->
    exists evs, trace s' = (trace s ++ evs)%list /\ Forall Q evs.

(** [m] returns normally from every state. *)
Definition never_throws {W A} (m : M W A) : Prop :=
  forall s, exists a s', m s = (Ok a, s').

(** [s] with the events [evs] appended to its trace. *)
Definition logged {W} (s : St W) (evs : list event) : St W :=
  mkSt (world s) (trace s ++ evs) (locals s).

Definition not_write (e : event) : Prop := is_write e = false.

(** The action output [name] is set by the event [e]. *)
Definition sets_output (name : string) (e : event) : bool :=
  match e with
  | setOutput n _ => String.eqb n name
  | _ => false
  end.

(** What the early return of [run] leaves in the trace. *)
Definition noAlertsEvents : list event :=
  [ info "✅ No Dependabot alerts found matching the criteria";
    setOutput "issues-created" "0";
    setOutput "issues-updated" "0";
    setOutput "alerts-processed" "0";
    setOutput "summary" "No alerts to process" ].

(** A project key that closes the quoted JQL string and adds a clause. *)
Definition injectedKey : string :=
  "SEC" ++ dq ++ "; DROP TABLE alerts; --".

(** The events of a status look-up, up to the answer of GitHub. *)
Definition lookupEvents (owner repo alertId : string) : list event :=
  [ info ("Checking status of alert #" ++ alertId);
    getAlert owner repo (Js.parseInt alertId) ].

Definition any_event (e : event) : Prop := True.

(** The first line the loop over the alerts logs for an alert. *)
Definition processingLine (alert : RawAlert) : event :=
  info ("Processing alert #" ++ Js.string_of_Z (a_id (parseAlert alert))
        ++ ": " ++ a_title (parseAlert alert)).

(** [config] with its dry-run flag set to [b]. *)
Definition withDryRun (b : bool) (config : Config) : Config :=
  {| jira := jira config;
     filters := filters config;
     behavior :=
       {| updateExisting := updateExisting (behavior config);
          autoCloseResolved := autoCloseResolved (behavior config);
          closeTransition := closeTransition (behavior config);
          closeComment := closeComment (behavior config);
          dryRun := b |} |}.

(** The first thing [m] does, whatever follows, is the event [e]. *)
Definition starts_with {W A} (e : event) (m : M W A) : Prop :=
  forall s r s',
    m s = (r, s') -> exists evs, trace s' = (trace s ++ e :: evs)%list.

(** A ticket for the alert 10 of the sample world, whose look-up fails in
    transit. *)
Definition unreachableTicket : JiraIssue := Sample.ticket "SEC-5" "10".

(** The state in which the loop over the alerts looks for the ticket of an
    alert. *)
Definition announced {W} (alert : RawAlert) (s : St W) : St W :=
  mkSt (world s) (trace s ++ [processingLine alert])
    (push_processed (parseAlert alert) (locals s)).

(* ===================================================================== *)
(** ** [src/main.js]: getConfig *)
(* ===================================================================== *)

Module Inputs.

(** The part of the configuration that only [createJiraClient] reads. *)
Record Credentials := {
  url : string;
  username : string;
  apiToken : string }.

Definition and_then {A B} (r : result A) (k : A -> result B) : result B :=
  match r with
  | Ok a => k a
  | Throw e => Throw e
  end.

(** [s || d] for two strings. *)
Definition or_default (s d : string) : string :=
  if String.eqb s "" then d else s.

Section GetConfig.

(** The three readers of [@actions/core]:
    - [getInput name]: [core.getInput(name)], the value of the input, empty
      when it is not supplied;
    - [getRequiredInput name]: [core.getInput(name, { required: true })],
      the value or the error thrown for an input that is not supplied;
    - [getBooleanInput name]: [core.getBooleanInput(name)], a boolean or
      the error thrown for a value that is no boolean. *)
Variable getInput : string -> string.
Variable getRequiredInput : string -> result string.
Variable getBooleanInput : string -> result bool.

(** [parseInt(core.getInput(name) || dflt, 10)]. *)
Definition parseDays (name dflt : string) : jsint :=
  match Js.parseInt (or_default (getInput name) dflt) with
  | Some z => Int z
  | None => NaN
  end.

Definition getConfig : result (Credentials * Config) :=
  and_then (getRequiredInput "jira-url") (fun jiraUrl =>
  and_then (getRequiredInput "jira-username") (fun jiraUsername =>
  and_then (getRequiredInput "jira-api-token") (fun jiraApiToken =>
  and_then (getRequiredInput "jira-project-key") (fun jiraProjectKey =>
  let jiraPart :=
    {| projectKey := jiraProjectKey;
       issueType := or_default (getInput "jira-issue-type") "Bug";
       priority := or_default (getInput "jira-priority") "Medium";
       labels :=
         Some (or_default (getInput "jira-labels") "dependabot,security");
       assignee := Js.or_null (Some (getInput "jira-assignee"));
       dueDays :=
         {| dd_critical := Some (parseDays "critical-due-days" "7");
            dd_high := Some (parseDays "high-due-days" "14");
            dd_medium := Some (parseDays "medium-due-days" "60");
            dd_low := Some (parseDays "low-due-days" "90") |} |} in
  let threshold := or_default (getInput "severity-threshold") "medium" in
  and_then (getBooleanInput "exclude-dismissed") (fun excludeDismissed =>
  and_then (getBooleanInput "update-existing") (fun updateExisting =>
  and_then (getBooleanInput "auto-close-resolved") (fun autoClose =>
  let transition := or_default (getInput "close-transition") "Done" in
  let comment :=
    or_default (getInput "close-comment")
      "This issue has been automatically closed because the associated Dependabot alert was resolved." in
  and_then (getBooleanInput "dry-run") (fun dryRun =>
  Ok ({| url := jiraUrl; username := jiraUsername;
         apiToken := jiraApiToken |},
      {| jira := jiraPart;
         filters :=
           {| severityThreshold := Some threshold;
              excludeDismissed := Some excludeDismissed |};
         behavior :=
           {| updateExisting := updateExisting;
              autoCloseResolved := autoClose;
              closeTransition := transition;
              closeComment := comment;
              dryRun := dryRun |} |}))))))))).

End GetConfig.

(** Sample inputs: the required ones, nothing for the due days of high, "0"
    for critical, "soon" for medium and "45" for low. *)
Definition sampleInput (name : string) : string :=
  if String.eqb name "jira-url" then "https://example.atlassian.net"
  else if String.eqb name "jira-username" then "bot@example.com"
  else if String.eqb name "jira-api-token" then "s3cr3t"
  else if String.eqb name "jira-project-key" then "SEC"
  else if String.eqb name "critical-due-days" then "0"
  else if String.eqb name "medium-due-days" then "soon"
  else if String.eqb name "low-due-days" then "45"
  else "".

Definition sampleRequired (name : string) : result string :=
  if String.eqb (sampleInput name) ""
  then Throw (Error_ ("Input required and not supplied: " ++ name))
  else Ok (sampleInput name).

Definition sampleBoolean (name : string) : result bool :=
  if String.eqb name "dry-run" then Ok false else Ok true.

End Inputs.

(** The error a read throws, if it throws. *)
Definition failure {A} (r : result A) : option JsError :=
  match r with
  | Throw e => Some e
  | Ok _ => None
  end.

Fixpoint firstSome {A} (xs : list (option A)) : option A :=
  match xs with
  | [] => None
  | Some a :: _ => Some a
  | None :: r => firstSome r
  end.

(** The inputs [getConfig] reads with a reader that may throw, in the order
    it reads them. *)
Definition requiredInputs : list string :=
  [ "jira-url"; "jira-username"; "jira-api-token"; "jira-project-key" ].

Definition booleanInputs : list string :=
  [ "exclude-dismissed"; "update-existing"; "auto-close-resolved";
    "dry-run" ].

(** The four due-day settings: the severity, the name of its input, the
    default [getConfig] reads for an empty input, and the default
    [calculateDueDate] falls back to. *)
Definition dueDayInputs : list (string * string * Z * Z) :=
  [ ("critical", "critical-due-days", 7, 1);
    ("high", "high-due-days", 14, 7);
    ("medium", "medium-due-days", 60, 30);
    ("low", "low-due-days", 90, 90) ].

(** [m] relates the state it starts from to the state it ends in by [R],
    whether it returns or throws. *)
Definition keeps {W A} (R : St W -> St W -> Prop) (m : M W A) : Prop :=
  forall s r s', m s = (r, s') -> R s s'.

(** The local variables of [run] are those of before. *)
Definition same_locals {W} (s s' : St W) : Prop := locals s' = locals s.

(** Only the count of closed tickets may have changed, and it has not gone
    down. *)
Definition closed_more {W} (s s' : St W) : Prop :=
  issuesCreated (locals s') = issuesCreated (locals s)
  /\ issuesUpdated (locals s') = issuesUpdated (locals s)
  /\ processedAlerts (locals s') = processedAlerts (locals s)
  /\ issuesClosed (locals s) <= issuesClosed (locals s').

(** A POST that creates a ticket. *)
Definition creates_ticket (e : event) : bool :=
  match e with
  | jiraPost _ (IssueData _) => true
  | _ => false
  end.

Definition fails_run (e : event) : bool :=
  match e with
  | setFailed _ => true
  | _ => false
  end.

(** The world [E] with parts of Jira out of reach: the searches when
    [search] is set, the look-up of transitions when [transitions] is set,
    and every POST whose body is [refused]. *)
Definition outage : JsError := mkError (Some 503) "Service Unavailable".

Definition unreachable (E : Env unit) (search transitions : bool)
    (refused : PostBody -> bool) : Env unit :=
  {| getConfig := getConfig E;
     GITHUB_REPOSITORY := GITHUB_REPOSITORY E;
     getInput := getInput E;
     Date_now := Date_now E;
     generateJWT := generateJWT E;
     createInstallationAccessToken := createInstallationAccessToken E;
     github_listAlertsForRepo := github_listAlertsForRepo E;
     github_getAlert := github_getAlert E;
     jira_search := fun url jql w =>
       if search then (Throw outage, w) else jira_search E url jql w;
     jira_transitions := fun url w =>
       if transitions then (Throw outage, w) else jira_transitions E url w;
     jira_post := fun url body w =>
       if refused body then (Throw outage, w) else jira_post E url body w |}.

(** The world [E] with none of the authentication inputs supplied. *)
Definition withoutToken (E : Env unit) : Env unit :=
  {| getConfig := getConfig E;
     GITHUB_REPOSITORY := GITHUB_REPOSITORY E;
     getInput := fun _ => "";
     Date_now := Date_now E;
     generateJWT := generateJWT E;
     createInstallationAccessToken := createInstallationAccessToken E;
     github_listAlertsForRepo := github_listAlertsForRepo E;
     github_getAlert := github_getAlert E;
     jira_search := jira_search E;
     jira_transitions := jira_transitions E;
     jira_post := jira_post E |}.

Definition is_comment (body : PostBody) : bool :=
  match body with
  | CommentDoc _ | CommentBody _ => true
  | _ => false
  end.

(** An event that is no request to Jira and does not fail the workflow. *)
Definition quiet (e : event) : Prop :=
  is_jira_request e || fails_run e = false.

Definition no_failure (e : event) : Prop := fails_run e = false.

Definition no_creation (e : event) : Prop := creates_ticket e = false.

Definition is_output (e : event) : bool :=
  match e with
  | setOutput _ _ => true
  | _ => false
  end.

Definition no_output (e : event) : Prop := is_output e = false.

(** What [run] does last in a run that found alerts: it sets the five
    outputs and logs the closing line. *)
Definition finalOutputs (dryRun : bool) (alerts : list RawAlert)
    (l : Locals) : list event :=
  [ setOutput "issues-created" (Js.string_of_Z (issuesCreated l));
    setOutput "issues-updated" (Js.string_of_Z (issuesUpdated l));
    setOutput "issues-closed" (Js.string_of_Z (issuesClosed l));
    setOutput "alerts-processed" (len alerts);
    setOutput "summary" (summaryText dryRun l);
    info "✅ Dependabot Jira Sync completed successfully" ].

(** What [m] has appended to the trace when it throws is in [Q]. *)
Definition throws_after {W A} (Q : event -> Prop) (m : M W A) : Prop :=
  forall s e s',
    m s = (Throw e, s') ->
    exists evs, trace s' = (trace s ++ evs)%list /\ Forall Q evs.

(* ===================================================================== *)
(** * Properties *)
(* ===================================================================== *)

(** ** Severity filter *)

Lemma severity_index_inv s i :
  severity_index s = Some i ->
  (s = "low" /\ i = 0) \/ (s = "medium" /\ i = 1)
  \/ (s = "high" /\ i = 2) \/ (s = "critical" /\ i = 3).
Proof.
  unfold severity_index.
  destruct (String.eqb_spec s "low"); [intros [= <-]; auto|].
  destruct (String.eqb_spec s "medium"); [intros [= <-]; auto|].
  destruct (String.eqb_spec s "high"); [intros [= <-]; auto|].
  destruct (String.eqb_spec s "critical"); [intros [= <-]; auto 6|].
  discriminate.
Qed.

(** [indexOf] on the severity list is the index of the specification, and
    -1 for every other string. *)
Lemma indexOf_severity s :
  indexOf severityLevels (Some s) =
  match severity_index s with
  | Some i => i
  | None => -1
  end.
Proof.
  unfold indexOf, severityLevels, severity_index, indexOf_from.
  rewrite !(String.eqb_sym _ s).
  destruct (String.eqb s "low"); [reflexivity|].
  destruct (String.eqb s "medium"); [reflexivity|].
  destruct (String.eqb s "high"); [reflexivity|].
  destruct (String.eqb s "critical"); reflexivity.
Qed.

Lemma severity_index_range s i : severity_index s = Some i -> 0 <= i <= 3.
Proof.
  intros H. apply severity_index_inv in H.
  destruct H as [[_ ->]|[[_ ->]|[[_ ->]|[_ ->]]]]; lia.
Qed.

Lemma filterBySeverity_ok threshold alerts kept :
  filterBySeverity threshold alerts = Ok kept ->
  exists j, severity_index (Js.toLowerCase threshold) = Some j
            /\ kept = filter (passesThreshold j) alerts.
Proof.
  unfold filterBySeverity. rewrite indexOf_severity.
  destruct (severity_index (Js.toLowerCase threshold)) as [j|] eqn:Hj.
  - pose proof (severity_index_range _ _ Hj).
    destruct (Z.eqb_spec j (-1)); [lia|].
    intros [= <-]. eauto.
  - simpl. discriminate.
Qed.

Lemma filterBySeverity_invalid threshold alerts :
  severity_index (Js.toLowerCase threshold) = None ->
  filterBySeverity threshold alerts =
  Throw (Error_ ("Invalid severity threshold: " ++ threshold)).
Proof.
  intros H. unfold filterBySeverity. rewrite indexOf_severity, H.
  reflexivity.
Qed.

Lemma passesThreshold_unrecognized j alert :
  0 <= j ->
  (forall s, alertSeverity alert = Some s -> severity_index s = None) ->
  passesThreshold j alert = false.
Proof.
  intros Hj H. unfold passesThreshold.
  destruct (alertSeverity alert) as [s|] eqn:Hs.
  - rewrite indexOf_severity, (H s eq_refl). apply Z.leb_gt. lia.
  - simpl. apply Z.leb_gt. lia.
Qed.

(** ** Running the monad *)

Ltac mred :=
  unfold bind, ret, throw, try_catch, emit, request, read_world, lift,
    read_result, update_locals, get_locals in *;
  cbn [world trace locals fst snd negb] in *.

Lemma bind_ok {W A B} (m : M W A) (k : A -> M W B) s a s1 :
  m s = (Ok a, s1) -> bind m k s = k a s1.
Proof. unfold bind. intros ->. reflexivity. Qed.

Lemma bind_throw {W A B} (m : M W A) (k : A -> M W B) s e s1 :
  m s = (Throw e, s1) -> bind m k s = (Throw e, s1).
Proof. unfold bind. intros ->. reflexivity. Qed.

(** An invalid threshold makes [getDependabotAlerts] throw, whatever the
    token and the alert source answer. *)
Lemma getDependabotAlerts_invalid {W} (E : Env W) owner repo options
    threshold st :
  severityThreshold options = Some threshold ->
  severity_index (Js.toLowerCase threshold) = None ->
  exists e st', getDependabotAlerts E owner repo options st = (Throw e, st').
Proof.
  intros Ht Hbad. unfold getDependabotAlerts. rewrite Ht. cbn [or_obj].
  destruct (getGitHubToken E st) as [[token|e] s1] eqn:Htok.
  - rewrite (bind_ok _ _ _ _ _ Htok). mred.
    match goal with
    | |- context [github_listAlertsForRepo E token owner repo ?x ?w] =>
        destruct (github_listAlertsForRepo E token owner repo x w)
          as [[alerts|e] w1]
    end; mred.
    + rewrite (filterBySeverity_invalid _ _ Hbad). mred. eauto.
    + eauto.
  - rewrite (bind_throw _ _ _ _ _ Htok). eauto.
Qed.

(** When the token and the alert list are obtained, the error thrown for an
    invalid threshold names it, and is logged on the way out. *)
Lemma getDependabotAlerts_invalid_message {W} (E : Env W) owner repo options
    threshold st token s1 alerts w1 :
  severityThreshold options = Some threshold ->
  severity_index (Js.toLowerCase threshold) = None ->
  getGitHubToken E st = (Ok token, s1) ->
  github_listAlertsForRepo E token owner repo
    (if or_obj (excludeDismissed options) true then "open" else "all")
    (world s1) = (Ok alerts, w1) ->
  exists st',
    getDependabotAlerts E owner repo options st =
    (Throw (Error_ ("Invalid severity threshold: " ++ threshold)), st').
Proof.
  intros Ht Hbad Htok Hlist. unfold getDependabotAlerts. rewrite Ht.
  cbn [or_obj]. rewrite (bind_ok _ _ _ _ _ Htok). mred. rewrite Hlist. mred.
  rewrite (filterBySeverity_invalid _ _ Hbad). mred. eauto.
Qed.

(** C5. Severity filter: for a severity and a threshold among the four
    words, an alert is kept exactly when the index of its severity is at
    least the index of the threshold, in the order low, medium, high,
    critical; an alert whose severity is none of the four words (or is
    absent) is kept under no threshold; and a threshold that is none of the
    four words, whatever its case, makes the filtering fail with an error
    that names it, and makes [getDependabotAlerts] throw. *)
Theorem severity_filter_contract {W} (E : Env W)
    (owner repo : string) (options : Filters)
    (alerts : list RawAlert) (alert : RawAlert) (threshold : string) :
  (forall s i j,
      opt_bind (security_advisory alert) severity = Some s ->
      severity_index s = Some i ->
      severity_index threshold = Some j ->
      exists kept,
        filterBySeverity threshold alerts = Ok kept
        /\ (In alert kept <-> In alert alerts /\ j <= i))
  /\ (forall kept,
        (forall s, alertSeverity alert = Some s -> severity_index s = None) ->
        filterBySeverity threshold alerts = Ok kept ->
        ~ In alert kept)
  /\ (severity_index (Js.toLowerCase threshold) = None ->
      filterBySeverity threshold alerts =
        Throw (Error_ ("Invalid severity threshold: " ++ threshold))
      /\ (forall st,
            severityThreshold options = Some threshold ->
            exists e st',
              getDependabotAlerts E owner repo options st = (Throw e, st'))
      /\ (forall st token s1 listed w1,
            severityThreshold options = Some threshold ->
            getGitHubToken E st = (Ok token, s1) ->
            github_listAlertsForRepo E token owner repo
              (if or_obj (excludeDismissed options) true
               then "open" else "all") (world s1) = (Ok listed, w1) ->
            exists st',
              getDependabotAlerts E owner repo options st
              = (Throw (Error_ ("Invalid severity threshold: "
                                ++ threshold)), st'))).
Proof.
  split; [|split].
  - intros s i j Hs Hi Hj.
    assert (Hlow : Js.toLowerCase threshold = threshold).
    { apply severity_index_inv in Hj.
      destruct Hj as [[-> _]|[[-> _]|[[-> _]|[-> _]]]]; reflexivity. }
    assert (Hls : Js.toLowerCase s = s).
    { apply severity_index_inv in Hi.
      destruct Hi as [[-> _]|[[-> _]|[[-> _]|[-> _]]]]; reflexivity. }
    exists (filter (passesThreshold j) alerts). split.
    + unfold filterBySeverity. rewrite Hlow, indexOf_severity, Hj.
      pose proof (severity_index_range _ _ Hj).
      destruct (Z.eqb_spec j (-1)); [lia | reflexivity].
    + rewrite filter_In. unfold passesThreshold, alertSeverity.
      rewrite Hs. cbn [option_map]. rewrite Hls, indexOf_severity, Hi.
      rewrite Z.leb_le. tauto.
  - intros kept Hun Hok Hin.
    apply filterBySeverity_ok in Hok. destruct Hok as (j & Hj & ->).
    apply filter_In in Hin. destruct Hin as [_ Hp].
    rewrite passesThreshold_unrecognized in Hp; [discriminate | | exact Hun].
    apply severity_index_range in Hj. lia.
  - intros Hbad. split; [|split].
    + apply filterBySeverity_invalid, Hbad.
    + intros st Ht. eapply getDependabotAlerts_invalid; eauto.
    + intros st token s1 listed w1 Ht Htok Hlist.
      eapply getDependabotAlerts_invalid_message; eauto.
Qed.

(** Every pair of the four words, and two alerts outside them, under the
    threshold "High" written with a capital. *)
Lemma severity_filter_contract_witness :
  (exists kept,
      filterBySeverity "high"
        [Sample.rawAlert 1 "critical"; Sample.rawAlert 2 "low"] = Ok kept
      /\ (In (Sample.rawAlert 1 "critical") kept
          <-> In (Sample.rawAlert 1 "critical")
                 [Sample.rawAlert 1 "critical"; Sample.rawAlert 2 "low"]
              /\ 2 <= 3))
  /\ ~ In (Sample.rawAlert 3 "moderate")
          (filter (passesThreshold 0) [Sample.rawAlert 3 "moderate"])
  /\ exists st',
       getDependabotAlerts
         (Sample.env false [Sample.rawAlert 1 "critical"] [])
         "o" "r"
         {| severityThreshold := Some "urgent"; excludeDismissed := None |}
         Sample.start
       = (Throw (Error_ "Invalid severity threshold: urgent"), st').
Proof.
  split; [|split].
  - apply (proj1 (severity_filter_contract
                    (Sample.env false [] []) "o" "r"
                    {| severityThreshold := None; excludeDismissed := None |}
                    [Sample.rawAlert 1 "critical"; Sample.rawAlert 2 "low"]
                    (Sample.rawAlert 1 "critical") "high")
                 "critical" 3 2); reflexivity.
  - apply (proj1 (proj2 (severity_filter_contract
                    (Sample.env false [] []) "o" "r"
                    {| severityThreshold := None; excludeDismissed := None |}
                    [Sample.rawAlert 3 "moderate"]
                    (Sample.rawAlert 3 "moderate") "low"))).
    + intros s [= <-]. reflexivity.
    + reflexivity.
  - destruct (proj2 (proj2 (severity_filter_contract
                    (Sample.env false [Sample.rawAlert 1 "critical"] [])
                    "o" "r"
                    {| severityThreshold := Some "urgent";
                       excludeDismissed := None |}
                    [] (Sample.rawAlert 1 "critical") "urgent")) eq_refl)
      as (_ & _ & Hmsg).
    exact (Hmsg Sample.start "t0k3n"
             (logged Sample.start
                [info "🔑 Using GitHub token authentication"])
             [Sample.rawAlert 1 "critical"] tt eq_refl eq_refl eq_refl).
Defined.

(** ** parseAlert *)

Lemma or_str_blank o d : Js.or_str (blank o) d = Js.or_str o d.
Proof. destruct o as [[|c s]|]; reflexivity. Qed.

Lemma or_null_blank o : Js.or_null (blank o) = Js.or_null o.
Proof. destruct o as [[|c s]|]; reflexivity. Qed.

Lemma Qeq_bool_zero q : Qeq_bool q 0 = (Qnum q =? 0).
Proof. unfold Qeq_bool. cbn. now rewrite Z.mul_1_r. Qed.

Lemma or_null_num_blank o : or_null_num (blank_score o) = or_null_num o.
Proof.
  destruct o as [q|]; [|reflexivity]. unfold or_null_num, blank_score.
  rewrite Qeq_bool_zero. destruct (Qnum q =? 0) eqn:Hq; [reflexivity|].
  rewrite Qeq_bool_zero, Hq. reflexivity.
Qed.

Lemma or_str_lower_blank o d :
  Js.or_str (option_map Js.toLowerCase (blank o)) d =
  Js.or_str (option_map Js.toLowerCase o) d.
Proof. destruct o as [[|c s]|]; reflexivity. Qed.

(** [parseAlert] does not see the difference between a falsy field and an
    absent one. *)
Lemma parseAlert_withoutFalsy alert :
  parseAlert (withoutFalsy alert) = parseAlert alert.
Proof.
  destruct alert as [n adv vul dep url ca ua st da dr dc].
  unfold parseAlert, withoutFalsy; cbn [number security_advisory
    security_vulnerability dependency html_url created_at updated_at state
    dismissed_at dismissed_reason dismissed_comment].
  destruct adv as [[su de se [[sc]|] ce gh]|];
    destruct vul as [[vr [[id]|]]|];
    destruct dep as [[[[pn pe]|]]|];
    cbn [option_map or_obj summary description severity cvss cve_id ghsa_id
         vulnerable_version_range first_patched_version opt_bind package
         name ecosystem identifier score emptyAdvisory emptyVulnerability
         emptyDependency];
    rewrite ?or_str_blank, ?or_null_blank, ?or_str_lower_blank,
      ?or_null_num_blank;
    reflexivity.
Qed.

Lemma or_str_falsy o d : falsy_text o -> Js.or_str o d = d.
Proof. intros [->| ->]; reflexivity. Qed.

Lemma or_str_truthy o d s : o = Some s -> s <> "" -> Js.or_str o d = s.
Proof.
  intros -> Hs. unfold Js.or_str.
  destruct (String.eqb_spec s ""); [contradiction | reflexivity].
Qed.

Lemma or_null_falsy o : falsy_text o -> Js.or_null o = None.
Proof. intros [->| ->]; reflexivity. Qed.

Lemma or_null_truthy o s : o = Some s -> s <> "" -> Js.or_null o = Some s.
Proof.
  intros -> Hs. unfold Js.or_null.
  destruct (String.eqb_spec s ""); [contradiction | reflexivity].
Qed.

Lemma or_null_num_falsy o : falsy_score o -> or_null_num o = None.
Proof.
  intros [->|(q & -> & Hq)]; [reflexivity|]. unfold or_null_num.
  apply Qeq_bool_iff in Hq. now rewrite Hq.
Qed.

Lemma or_null_num_truthy o q :
  o = Some q -> ~ q == 0 -> or_null_num o = Some q.
Proof.
  intros -> Hq. unfold or_null_num.
  destruct (Qeq_bool q 0) eqn:Hb; [|reflexivity].
  apply Qeq_bool_iff in Hb. contradiction.
Qed.

Lemma lower_falsy o :
  falsy_text o -> falsy_text (option_map Js.toLowerCase o).
Proof. intros [->| ->]; [left | right]; reflexivity. Qed.

Lemma toLowerCase_nonempty s : s <> "" -> Js.toLowerCase s <> "".
Proof. destruct s; [contradiction | discriminate]. Qed.

(** The fields of the raw alert as [parseAlert] reaches them. *)
Lemma parseAlert_fields alert :
  let advisory := security_advisory alert in
  let pkg := opt_bind (dependency alert) package in
  let vulnerability := security_vulnerability alert in
  let name_ := Js.or_str (opt_bind pkg name) "unknown" in
  parseAlert alert
  = {| a_id := number alert;
       a_title :=
         Js.or_str (opt_bind advisory summary) ("Vulnerability in " ++ name_);
       a_description :=
         Js.or_str (opt_bind advisory description)
           "No description available";
       a_severity :=
         Js.or_str
           (option_map Js.toLowerCase (opt_bind advisory severity))
           "unknown";
       a_package := name_;
       a_ecosystem := Js.or_str (opt_bind pkg ecosystem) "unknown";
       a_vulnerableVersionRange :=
         Js.or_str (opt_bind vulnerability vulnerable_version_range)
           "unknown";
       a_firstPatchedVersion :=
         Js.or_str
           (opt_bind (opt_bind vulnerability first_patched_version)
              identifier)
           "Not available";
       a_cvss := or_null_num (opt_bind (opt_bind advisory cvss) score);
       a_cveId := Js.or_null (opt_bind advisory cve_id);
       a_ghsaId := Js.or_null (opt_bind advisory ghsa_id);
       a_url := html_url alert;
       a_createdAt := created_at alert;
       a_updatedAt := updated_at alert;
       a_state := state alert;
       a_dismissedAt := dismissed_at alert;
       a_dismissedReason := dismissed_reason alert;
       a_dismissedComment := dismissed_comment alert |}.
Proof.
  destruct alert as [n adv vul dep url ca ua st da dr dc].
  destruct adv as [adv|], vul as [vul|], dep as [dep|]; reflexivity.
Qed.

(** C10. [parseAlert] collapses every falsy raw field to its fallback, not
    only the absent ones. Field by field: an absent or empty summary gives
    the title "Vulnerability in <package>", and an absent or empty
    description, severity, package name, ecosystem, version range or
    patched version gives "No description available", "unknown" or "Not
    available"; an absent or zero CVSS score and an absent or empty CVE or
    GHSA id give null; every other value is kept (the severity in lower
    case). So the parsed alert is that of the raw alert with its falsy
    fields removed, and an alert with a CVSS score of 0 parses as the same
    alert without its CVSS block. *)
Theorem parseAlert_falsy_fallbacks (alert : RawAlert) :
  let parsed := parseAlert alert in
  let advisory := security_advisory alert in
  let pkg := opt_bind (dependency alert) package in
  let vulnerability := security_vulnerability alert in
  let patched :=
    opt_bind (opt_bind vulnerability first_patched_version) identifier in
  let cvssScore := opt_bind (opt_bind advisory cvss) score in
  parsed = parseAlert (withoutFalsy alert)
  /\ (falsy_text (opt_bind advisory summary) ->
      a_title parsed = "Vulnerability in " ++ a_package parsed)
  /\ (falsy_text (opt_bind advisory description) ->
      a_description parsed = "No description available")
  /\ (falsy_text (opt_bind advisory severity) ->
      a_severity parsed = "unknown")
  /\ (falsy_text (opt_bind pkg name) -> a_package parsed = "unknown")
  /\ (falsy_text (opt_bind pkg ecosystem) -> a_ecosystem parsed = "unknown")
  /\ (falsy_text (opt_bind vulnerability vulnerable_version_range) ->
      a_vulnerableVersionRange parsed = "unknown")
  /\ (falsy_text patched -> a_firstPatchedVersion parsed = "Not available")
  /\ (falsy_score cvssScore ->
      a_cvss parsed = None
      /\ (cvssScore <> None -> parsed = parseAlert (withoutCvss alert)))
  /\ (falsy_text (opt_bind advisory cve_id) -> a_cveId parsed = None)
  /\ (falsy_text (opt_bind advisory ghsa_id) -> a_ghsaId parsed = None)
  /\ (forall s, s <> "" ->
        (opt_bind advisory summary = Some s -> a_title parsed = s)
        /\ (opt_bind advisory description = Some s ->
            a_description parsed = s)
        /\ (opt_bind advisory severity = Some s ->
            a_severity parsed = Js.toLowerCase s)
        /\ (opt_bind pkg name = Some s -> a_package parsed = s)
        /\ (opt_bind pkg ecosystem = Some s -> a_ecosystem parsed = s)
        /\ (opt_bind vulnerability vulnerable_version_range = Some s ->
            a_vulnerableVersionRange parsed = s)
        /\ (patched = Some s -> a_firstPatchedVersion parsed = s)
        /\ (opt_bind advisory cve_id = Some s -> a_cveId parsed = Some s)
        /\ (opt_bind advisory ghsa_id = Some s ->
            a_ghsaId parsed = Some s))
  /\ (forall q, ~ q == 0 -> cvssScore = Some q -> a_cvss parsed = Some q).
Proof.
  cbv zeta.
  split; [symmetry; apply parseAlert_withoutFalsy|].
  pose proof (parseAlert_fields alert) as Hf. cbv zeta in Hf.
  split; [intros H; rewrite Hf; cbn [a_title a_package];
          apply or_str_falsy, H|].
  split; [intros H; rewrite Hf; apply or_str_falsy, H|].
  split; [intros H; rewrite Hf; apply or_str_falsy, lower_falsy, H|].
  split; [intros H; rewrite Hf; apply or_str_falsy, H|].
  split; [intros H; rewrite Hf; apply or_str_falsy, H|].
  split; [intros H; rewrite Hf; apply or_str_falsy, H|].
  split; [intros H; rewrite Hf; apply or_str_falsy, H|].
  split.
  { intros H. split; [rewrite Hf; apply or_null_num_falsy, H|].
    intros Hsome. clear Hf.
    destruct alert as [n adv vul dep url ca ua st da dr dc].
    cbn [security_advisory] in H, Hsome.
    destruct adv as [[su de se [[[q|]]|] ce gh]|];
      cbn [opt_bind cvss score] in H, Hsome;
      try (exfalso; apply Hsome; reflexivity).
    destruct H as [H|(q' & [= <-] & Hq)]; [discriminate H|].
    unfold parseAlert, withoutCvss;
      cbn [number security_advisory security_vulnerability dependency
           html_url created_at updated_at state dismissed_at
           dismissed_reason dismissed_comment option_map or_obj cvss
           summary description severity cve_id ghsa_id opt_bind score].
    unfold or_null_num. apply Qeq_bool_iff in Hq. rewrite Hq. reflexivity. }
  split; [intros H; rewrite Hf; apply or_null_falsy, H|].
  split; [intros H; rewrite Hf; apply or_null_falsy, H|].
  split.
  { intros s Hs. rewrite Hf.
    cbn [a_title a_description a_severity a_package a_ecosystem
         a_vulnerableVersionRange a_firstPatchedVersion a_cveId a_ghsaId].
    repeat split; intros H;
      try (apply or_str_truthy; assumption);
      try (apply or_null_truthy; assumption).
    rewrite H. cbn [option_map].
    apply or_str_truthy; [reflexivity | apply toLowerCase_nonempty, Hs]. }
  intros q Hq H. rewrite Hf. apply or_null_num_truthy; assumption.
Qed.

(** An alert whose advisory carries only empty strings and a score of
    zero, and an alert with all its fields. *)
Lemma parseAlert_falsy_fallbacks_witness :
  a_cvss (parseAlert Sample.falsyAlert) = None
  /\ parseAlert Sample.falsyAlert
     = parseAlert (withoutCvss Sample.falsyAlert)
  /\ a_title (parseAlert Sample.falsyAlert) = "Vulnerability in lodash"
  /\ a_description (parseAlert Sample.falsyAlert)
     = "No description available"
  /\ a_severity (parseAlert Sample.falsyAlert) = "unknown"
  /\ a_ecosystem (parseAlert Sample.falsyAlert) = "unknown"
  /\ a_cveId (parseAlert Sample.falsyAlert) = None
  /\ a_ghsaId (parseAlert Sample.falsyAlert) = None
  /\ a_cveId (parseAlert (Sample.rawAlert 7 "High")) = Some "CVE-2019-10744"
  /\ a_severity (parseAlert (Sample.rawAlert 7 "High")) = "high".
Proof.
  destruct (parseAlert_falsy_fallbacks Sample.falsyAlert)
    as (_ & Ht & Hd & Hs & _ & He & _ & _ & Hc & Hcve & Hghsa & _).
  destruct (Hc (or_intror (ex_intro _ (0 # 1) (conj eq_refl (Qeq_refl _)))))
    as [Hc1 Hc2].
  destruct (parseAlert_falsy_fallbacks (Sample.rawAlert 7 "High"))
    as (_ & _ & _ & _ & _ & _ & _ & _ & _ & _ & _ & Hkept & _).
  split; [exact Hc1|].
  split; [apply Hc2; discriminate|].
  split; [exact (Ht (or_intror eq_refl))|].
  split; [exact (Hd (or_intror eq_refl))|].
  split; [exact (Hs (or_intror eq_refl))|].
  split; [exact (He (or_intror eq_refl))|].
  split; [exact (Hcve (or_intror eq_refl))|].
  split; [exact (Hghsa (or_intror eq_refl))|].
  split.
  - apply (Hkept "CVE-2019-10744"); [discriminate | reflexivity].
  - apply (Hkept "High"); [discriminate | reflexivity].
Defined.

(** ** calculateDueDate *)





Lemma string_of_uint_digits u :
  Js.all_digits (NilEmpty.string_of_uint u) = true.
Proof. induction u; cbn; auto. Qed.




























(** ** extractAlertIdFromIssue *)

Lemma span_digits_app ds r :
  Js.all_digits ds = true ->
  Js.span_digits (ds ++ String ":" r) = (ds, String ":" r).
Proof.
  induction ds as [|c ds IH]; cbn; [reflexivity|].
  intros H. apply andb_true_iff in H. destruct H as [Hc Hds].
  rewrite Hc, (IH Hds). reflexivity.
Qed.

(** The summary pattern finds the id at the head of a summary of the form
    "Dependabot Alert #<digits>: <title>". *)
Lemma summaryPattern_created ds title :
  Js.all_digits ds = true -> ds <> "" ->
  match1 summaryPattern (Some ("Dependabot Alert #" ++ ds ++ ": " ++ title))
  = Some ds.
Proof.
  intros Hd Hne. unfold match1, opt_bind.
  assert (Hp : summaryPattern ("Dependabot Alert #" ++ ds ++ ": " ++ title)
               = Some ds).
  { unfold summaryPattern. cbn [append Js.strip_prefix Ascii.eqb Bool.eqb].
    cbn [opt_bind]. unfold digits1. rewrite (span_digits_app _ _ Hd).
    destruct (String.eqb_spec ds ""); [contradiction | reflexivity]. }
  destruct ("Dependabot Alert #" ++ ds ++ ": " ++ title)%string eqn:Hs;
    cbn [search]; rewrite Hp; reflexivity.
Qed.

Lemma string_of_Z_digits n :
  0 <= n ->
  Js.all_digits (Js.string_of_Z n) = true /\ Js.string_of_Z n <> "".
Proof.
  intros Hn. unfold Js.string_of_Z, NilZero.string_of_int.
  destruct n as [|p|p]; [cbn; split; [reflexivity | discriminate] | | lia].
  cbn [Z.to_int]. unfold NilZero.string_of_uint.
  destruct (Pos.to_uint p) eqn:Hp;
    try (split; [apply (string_of_uint_digits (_ u)) | cbn; discriminate]).
  split; [reflexivity | discriminate].
Qed.

(** C2, as the code has it. The summary pattern is "Dependabot Alert
    #<digits>" and the body pattern is "Alert ID:", optional white space
    and digits. A ticket whose summary matches the summary pattern gets its
    id from the summary whatever the body holds, and no warning; a summary
    of the form the create path writes, "Dependabot Alert #<id>: <title>",
    matches with that id, so summary "Dependabot Alert #42: ..." and body
    "Alert ID: 999" give "42"; and when neither pattern matches the result
    is none, with a warning that names the ticket. *)
Theorem extractAlertId_summary_precedence {W} (issue : JiraIssue)
    (st : St W) :
  (forall id,
      match1 summaryPattern (i_summary issue) = Some id ->
      extractAlertIdFromIssue issue st = (Ok (Some id), st))
  /\ (forall n title,
        0 <= n ->
        i_summary issue
        = Some ("Dependabot Alert #" ++ Js.string_of_Z n ++ ": " ++ title) ->
        extractAlertIdFromIssue issue st
        = (Ok (Some (Js.string_of_Z n)), st))
  /\ (forall id,
        match1 summaryPattern (i_summary issue) = None ->
        match1 descriptionPattern (i_description issue) = Some id ->
        extractAlertIdFromIssue issue st = (Ok (Some id), st))
  /\ (match1 summaryPattern (i_summary issue) = None ->
      match1 descriptionPattern (i_description issue) = None ->
      extractAlertIdFromIssue issue st
      = (Ok None,
         mkSt (world st)
           (trace st ++ [warning ("Could not extract alert ID from issue "
                                  ++ key issue)])
           (locals st))).
Proof.
  unfold extractAlertIdFromIssue.
  split; [|split; [|split]].
  - intros id ->. reflexivity.
  - intros n title Hn ->.
    destruct (string_of_Z_digits n Hn) as [Hd Hne].
    rewrite (summaryPattern_created _ title Hd Hne). reflexivity.
  - intros id -> ->. reflexivity.
  - intros -> ->. reflexivity.
Qed.

Lemma extractAlertId_summary_precedence_witness :
  extractAlertIdFromIssue
    {| key := "SEC-123";
       i_summary := Some "Dependabot Alert #42: ...";
       i_description := Some "Alert ID: 999" |} Sample.start
  = (Ok (Some "42"), Sample.start)
  /\ extractAlertIdFromIssue
       {| key := "SEC-123";
          i_summary := Some "Security Issue: lodash vulnerability";
          i_description := Some "Alert ID: 123" |} Sample.start
     = (Ok (Some "123"), Sample.start)
  /\ extractAlertIdFromIssue
       {| key := "SEC-123";
          i_summary := Some "Manual security issue";
          i_description := None |} Sample.start
     = (Ok None,
        mkSt tt [warning "Could not extract alert ID from issue SEC-123"]
          init_locals).
Proof.
  split; [|split].
  - exact (proj1 (proj2 (extractAlertId_summary_precedence
             {| key := "SEC-123";
                i_summary := Some "Dependabot Alert #42: ...";
                i_description := Some "Alert ID: 999" |} Sample.start))
             42 "..." ltac:(lia) eq_refl).
  - exact (proj1 (proj2 (proj2 (extractAlertId_summary_precedence
             {| key := "SEC-123";
                i_summary := Some "Security Issue: lodash vulnerability";
                i_description := Some "Alert ID: 123" |} Sample.start)))
             "123" eq_refl eq_refl).
  - exact (proj2 (proj2 (proj2 (extractAlertId_summary_precedence
             {| key := "SEC-123";
                i_summary := Some "Manual security issue";
                i_description := None |} Sample.start)))
             eq_refl eq_refl).
Defined.

(** C2, as the specification words it, fails: a summary that carries only
    the bare marker "Alert #42" does not match the summary pattern of the
    code, so the id is taken from the body. *)
Lemma extractAlertId_bare_marker_counterexample :
  fst (extractAlertIdFromIssue
         {| key := "SEC-123";
            i_summary := Some "Alert #42: ...";
            i_description := Some "Alert ID: 999" |} Sample.start)
  = Ok (Some "999")
  /\ fst (extractAlertIdFromIssue
            {| key := "SEC-123";
               i_summary := Some "Alert #42: ...";
               i_description := Some "Alert ID: 999" |} Sample.start)
     <> Ok (Some "42").
Proof. split; [reflexivity | discriminate]. Qed.

(** ** What a computation appends to the trace *)

Section Emits.

Context {W : Type} (Q : event -> Prop).

Lemma emits_ret {A} (a : A) : emits Q (@ret W A a).
Proof.
  intros s r s' [= <- <-]. exists []. now rewrite app_nil_r.
Qed.

Lemma emits_throw {A} e : emits Q (@throw W A e).
Proof.
  intros s r s' [= <- <-]. exists []. now rewrite app_nil_r.
Qed.

Lemma emits_lift {A} (x : result A) : emits Q (@lift W A x).
Proof.
  intros s r s' [= <- <-]. exists []. now rewrite app_nil_r.
Qed.

Lemma emits_read_world {A} (f : W -> A) : emits Q (read_world f).
Proof.
  intros s r s' [= <- <-]. exists []. now rewrite app_nil_r.
Qed.

Lemma emits_read_result {A} (f : W -> result A) : emits Q (read_result f).
Proof.
  intros s r s' [= <- <-]. exists []. now rewrite app_nil_r.
Qed.

Lemma emits_update_locals f : emits Q (@update_locals W f).
Proof.
  intros s r s' [= <- <-]. exists []. cbn. now rewrite app_nil_r.
Qed.

Lemma emits_get_locals : emits Q (@get_locals W).
Proof.
  intros s r s' [= <- <-]. exists []. now rewrite app_nil_r.
Qed.

Lemma emits_emit e : Q e -> emits Q (@emit W e).
Proof.
  intros He s r s' [= <- <-]. exists [e]. cbn. auto.
Qed.

Lemma emits_request {A} e (op : W -> result A * W) :
  Q e -> emits Q (request e op).
Proof.
  intros He s r s'. unfold request. destruct (op (world s)) as [x w].
  intros [= <- <-]. exists [e]. cbn. auto.
Qed.

Lemma emits_bind {A B} (m : M W A) (k : A -> M W B) :
  emits Q m -> (forall a, emits Q (k a)) -> emits Q (bind m k).
Proof.
  intros Hm Hk s r s'. unfold bind.
  destruct (m s) as [[a|e] s1] eqn:Hms.
  - intros Hka. destruct (Hm _ _ _ Hms) as (ev1 & E1 & F1).
    destruct (Hk a _ _ _ Hka) as (ev2 & E2 & F2).
    exists (ev1 ++ ev2)%list. rewrite E2, E1, app_assoc.
    split; [reflexivity|]. apply Forall_app; auto.
  - intros [= <- <-]. exact (Hm _ _ _ Hms).
Qed.

Lemma emits_try_catch {A} (m : M W A) h :
  emits Q m -> (forall e, emits Q (h e)) -> emits Q (try_catch m h).
Proof.
  intros Hm Hh s r s'. unfold try_catch.
  destruct (m s) as [[a|e] s1] eqn:Hms.
  - intros [= <- <-]. exact (Hm _ _ _ Hms).
  - intros Hhe. destruct (Hm _ _ _ Hms) as (ev1 & E1 & F1).
    destruct (Hh e _ _ _ Hhe) as (ev2 & E2 & F2).
    exists (ev1 ++ ev2)%list. rewrite E2, E1, app_assoc.
    split; [reflexivity|]. apply Forall_app; auto.
Qed.

Lemma emits_for_of {A} (body : A -> M W unit) xs :
  (forall x, emits Q (body x)) -> emits Q (for_of body xs).
Proof.
  intros Hb. induction xs as [|x xs IH]; cbn [for_of].
  - apply emits_ret.
  - apply emits_bind; auto.
Qed.

End Emits.

(** Breaks a computation down to its events. *)
Ltac emits_step :=
  match goal with
  | |- emits _ (bind _ _) => apply emits_bind; [|intros ?]
  | |- emits _ (try_catch _ _) => apply emits_try_catch; [|intros ?]
  | |- emits _ (ret _) => apply emits_ret
  | |- emits _ (throw _) => apply emits_throw
  | |- emits _ (lift _) => apply emits_lift
  | |- emits _ (read_world _) => apply emits_read_world
  | |- emits _ (read_result _) => apply emits_read_result
  | |- emits _ (update_locals _) => apply emits_update_locals
  | |- emits _ get_locals => apply emits_get_locals
  | |- emits _ (emit _) => apply emits_emit; first [exact I | reflexivity]
  | |- emits _ (request _ _) =>
      apply emits_request; first [exact I | reflexivity]
  | |- emits _ (for_of _ _) => apply emits_for_of; intros ?
  | |- emits _ (if ?b then _ else _) => destruct b
  | |- emits _ (match ?x with _ => _ end) => destruct x
  | |- emits _ (let (_, _) := ?x in _) => destruct x
  end.

Ltac emits_all := repeat emits_step.

(** ** No write without permission: what each function sends *)

Create HintDb emits.

Ltac emits_prog :=
  repeat first
    [ solve [auto with emits]
    | emits_step
    | exact I
    | exact eq_refl ].

Section SendsNoWrite.

Context {W : Type}.
Variable P : Platform.
Variable E : Env W.

Lemma emits_jiraClient {A} Q e (op : W -> result A * W) :
  Q e -> (forall m, Q (error m)) -> emits Q (jiraClient e op).
Proof.
  intros He Herr. unfold jiraClient.
  apply emits_try_catch; [apply emits_request, He|].
  intros err. apply emits_bind; [apply emits_emit, Herr|].
  intros _. apply emits_throw.
Qed.

Lemma emits_getGitHubToken : emits not_write (getGitHubToken E).
Proof. unfold getGitHubToken, getInstallationToken. emits_prog. Qed.

Lemma emits_getRepoInfo : emits not_write (getRepoInfo E).
Proof. unfold getRepoInfo. emits_prog. Qed.

Hint Resolve emits_getGitHubToken emits_getRepoInfo : emits.

Lemma emits_getDependabotAlerts owner repo options :
  emits not_write (getDependabotAlerts E owner repo options).
Proof. unfold getDependabotAlerts. emits_prog. Qed.

Lemma emits_getAlertStatus owner repo alertId :
  emits not_write (getAlertStatus E owner repo alertId).
Proof. unfold getAlertStatus. emits_prog. Qed.

Lemma emits_findExistingIssue projectKey alertId :
  emits not_write (findExistingIssue E projectKey alertId).
Proof.
  unfold findExistingIssue.
  apply emits_try_catch; [|intros; emits_prog].
  apply emits_bind;
    [apply emits_jiraClient; [reflexivity | intros; reflexivity]|].
  intros; emits_prog.
Qed.

Lemma emits_findOpenDependabotIssues projectKey :
  emits not_write (findOpenDependabotIssues E projectKey).
Proof.
  unfold findOpenDependabotIssues.
  apply emits_bind; [emits_prog|]. intros _.
  apply emits_try_catch; [|intros; emits_prog].
  apply emits_bind;
    [apply emits_jiraClient; [reflexivity | intros; reflexivity]|].
  intros; emits_prog.
Qed.

Lemma emits_extractAlertIdFromIssue issue :
  emits not_write (@extractAlertIdFromIssue W issue).
Proof. unfold extractAlertIdFromIssue. emits_prog. Qed.

Lemma emits_createJiraIssue_dry config alert :
  emits not_write (createJiraIssue P E config alert true).
Proof. unfold createJiraIssue. emits_prog. Qed.

Lemma emits_updateJiraIssue_dry issueKey alert :
  emits not_write (updateJiraIssue P E issueKey alert true).
Proof. unfold updateJiraIssue. emits_prog. Qed.

Lemma emits_closeJiraIssue_dry issueKey transition comment :
  emits not_write (closeJiraIssue E issueKey transition comment true).
Proof. unfold closeJiraIssue. emits_prog. Qed.

Hint Resolve emits_getDependabotAlerts emits_getAlertStatus
  emits_findExistingIssue emits_findOpenDependabotIssues
  emits_extractAlertIdFromIssue emits_createJiraIssue_dry
  emits_updateJiraIssue_dry emits_closeJiraIssue_dry : emits.

Variable config : Config.
Hypothesis Hdry : dryRun (behavior config) = true.

Lemma emits_alertIteration_dry alert :
  emits not_write (alertIteration P E config alert).
Proof.
  unfold alertIteration, processAlert, handleAlert. rewrite Hdry.
  emits_prog.
Qed.

Lemma emits_issueIteration_dry owner repo issue :
  emits not_write (issueIteration E config owner repo issue).
Proof.
  unfold issueIteration, processIssue, actOnStatus, closeResolved.
  rewrite Hdry. emits_prog.
Qed.

Hint Resolve emits_alertIteration_dry emits_issueIteration_dry : emits.

Lemma emits_sync_dry owner repo alerts :
  emits not_write (sync P E config owner repo alerts).
Proof.
  unfold sync, noAlerts, autoClosePhase, reportResults.
  rewrite Hdry. emits_prog.
Qed.

Hint Resolve emits_sync_dry : emits.

Lemma emits_main_dry : emits not_write (main P E config).
Proof. unfold main. rewrite Hdry. emits_prog. Qed.

Lemma emits_run_dry :
  getConfig E = Ok config -> emits not_write (run P E).
Proof.
  intros Hcfg s r s' Hrun. unfold run in Hrun.
  assert (Hsame : forall h,
             try_catch (bind (lift (getConfig E)) (main P E)) h s
             = try_catch (main P E config) h s).
  { intros h. unfold try_catch, bind, lift. rewrite Hcfg. reflexivity. }
  rewrite Hsame in Hrun. revert Hrun.
  apply emits_try_catch; [apply emits_main_dry|].
  intros err. apply emits_emit. reflexivity.
Qed.

End SendsNoWrite.

(** ** findExistingIssue *)

(** C3, what the code does. [findExistingIssue] checks neither the project
    key nor the alert id: for every key and every id it builds the query
    with both interpolated, sends it to Jira as its first step, and returns
    normally; no input makes it fail. For the key [injectedKey] and the id
    -1 the search request carries the injected text. *)
Theorem findExistingIssue_unguarded {W} (E : Env W) (projectKey : string)
    (alertId : Z) (s : St W) :
  (exists found s' evs,
      findExistingIssue E projectKey alertId s = (Ok found, s')
      /\ trace s'
         = (trace s
            ++ jiraGet "/search"
                 (Some ("project = " ++ projectKey ++ " AND summary ~ "
                        ++ dq ++ "Dependabot Alert #"
                        ++ Js.string_of_Z alertId ++ dq)%string)
            :: evs)%list)
  /\ findExistingIssue (Sample.env false [] []) injectedKey (-1) Sample.start
     = (Ok None,
        mkSt tt
          [jiraGet "/search"
             (Some ("project = SEC" ++ dq
                    ++ "; DROP TABLE alerts; -- AND summary ~ " ++ dq
                    ++ "Dependabot Alert #-1" ++ dq))]
          init_locals).
Proof.
  split; [|reflexivity].
  unfold findExistingIssue, jiraClient, existingIssueJql. mred.
  destruct (jira_search E "/search" _ (world s)) as [[[[|i l]|]|e] w];
    cbn [world trace locals]; do 3 eexists; (split; [reflexivity|]);
    cbn [trace]; rewrite <- ?app_assoc; reflexivity.
Qed.

(** ** The run without alerts *)

(** C8, what the code does. When no alert passes the filters, [run] sets
    issues-created, issues-updated and alerts-processed to "0" and the
    summary to "No alerts to process", and returns: the output
    issues-closed is not set, and the auto-close phase is not entered. *)
Theorem zero_alert_outputs {W} (P : Platform) (E : Env W) (config : Config)
    (owner repo : string) (s : St W) :
  sync P E config owner repo [] s = (Ok tt, logged s noAlertsEvents)
  /\ existsb (sets_output "issues-created") noAlertsEvents = true
  /\ existsb (sets_output "issues-updated") noAlertsEvents = true
  /\ existsb (sets_output "alerts-processed") noAlertsEvents = true
  /\ In (setOutput "summary" "No alerts to process") noAlertsEvents
  /\ existsb (sets_output "issues-closed") noAlertsEvents = false
  /\ existsb (sets_output "issues-closed")
       (trace (snd (run Sample.node
                      (Sample.env false [Sample.rawAlert 2 "low"]
                         [Sample.ticket "SEC-2" "7"])
                      Sample.start))) = false.
Proof.
  split.
  - unfold sync, noAlerts, logged, noAlertsEvents. mred.
    rewrite <- !app_assoc. reflexivity.
  - repeat split; try reflexivity. cbn. auto 10.
Qed.

(** ** The three write operations *)

Section Writes.

Context {W : Type}.
Variable P : Platform.
Variable E : Env W.

Lemma updateJiraIssue_dry issueKey alert (s : St W) :
  updateJiraIssue P E issueKey alert true s
  = (Ok {| u_updated := true; u_dryRun := true |},
     logged s [info ("[DRY RUN] Would update Jira issue " ++ issueKey
                     ++ " with comment")]).
Proof. reflexivity. Qed.

Lemma closeJiraIssue_dry issueKey transition comment (s : St W) :
  closeJiraIssue E issueKey transition comment true s
  = (Ok {| cl_closed := false; cl_dryRun := true |},
     logged s [info ("[DRY RUN] Would close Jira issue " ++ issueKey
                     ++ " with transition " ++ dq ++ transition ++ dq)]).
Proof. reflexivity. Qed.

Lemma createJiraIssue_dry config alert (s : St W) :
  createJiraIssue P E config alert true s
  = match calculateDueDate P (Date_now E (world s)) (a_severity alert)
            (dueDays config) (a_createdAt alert) with
    | Ok dueDate =>
        (Ok {| c_key := Some "DRY-RUN-KEY"; c_dryRun := true |},
         logged s [info ("[DRY RUN] Would create Jira issue: "
                         ++ f_summary (issueData P config alert dueDate))])
    | Throw e => (Throw e, s)
    end.
Proof.
  unfold createJiraIssue. mred.
  destruct (calculateDueDate _ _ _ _ _); reflexivity.
Qed.

(** [find] gives nothing exactly when no transition carries the name, up to
    the case of letters. *)
Lemma findTransition_none ts transition :
  findTransition ts transition = None
  <-> forall t, In t ts ->
                Js.toLowerCase (t_name t) <> Js.toLowerCase transition.
Proof.
  unfold findTransition. split.
  - intros H t Hin Heq.
    apply (find_none _ _ H) in Hin. rewrite Heq, String.eqb_refl in Hin.
    discriminate.
  - intros H. induction ts as [|t ts IH]; cbn; [reflexivity|].
    destruct (String.eqb_spec (Js.toLowerCase (t_name t))
                (Js.toLowerCase transition)) as [Heq|_].
    + exfalso. apply (H t); [left; reflexivity | exact Heq].
    + apply IH. intros t' Hin. apply H. right. exact Hin.
Qed.

(** The transition asked for is not on offer: [closeJiraIssue] throws an
    error that names it and lists what is on offer, after the one GET and
    before any POST. *)
Lemma closeJiraIssue_missing issueKey transition comment (s : St W)
    offered w1 :
  jira_transitions E ("/rest/api/3/issue/" ++ issueKey ++ "/transitions")
    (world s) = (Ok offered, w1) ->
  findTransition (or_obj offered []) transition = None ->
  closeJiraIssue E issueKey transition comment false s
  = (Throw (Error_ (transitionNotAvailable transition (or_obj offered []))),
     mkSt w1
       (trace s
        ++ [ jiraGet ("/rest/api/3/issue/" ++ issueKey ++ "/transitions")
               None;
             error ("Failed to close Jira issue " ++ issueKey ++ ": "
                    ++ transitionNotAvailable transition
                         (or_obj offered [])) ])
       (locals s)).
Proof.
  intros Hget Hfind. unfold closeJiraIssue, jiraClient. mred.
  rewrite Hget. cbn [world trace locals]. rewrite Hfind.
  cbn [message Error_ world trace locals]. rewrite <- app_assoc. reflexivity.
Qed.

Lemma truthy_app a c b : truthy (a ++ String c b) = true.
Proof. destruct a; reflexivity. Qed.

(** The transition is on offer and Jira accepts both POSTs: the comment is
    posted, then the transition. *)
Lemma closeJiraIssue_done issueKey transition comment (s : St W)
    offered target w1 r2 w2 r3 w3 :
  let turl := "/rest/api/3/issue/" ++ issueKey ++ "/transitions" in
  let curl := "/rest/api/3/issue/" ++ issueKey ++ "/comment" in
  truthy comment = true ->
  jira_transitions E turl (world s) = (Ok offered, w1) ->
  findTransition (or_obj offered []) transition = Some target ->
  jira_post E curl (CommentDoc comment) w1 = (Ok r2, w2) ->
  jira_post E turl (TransitionBody (t_id target)) w2 = (Ok r3, w3) ->
  closeJiraIssue E issueKey transition comment false s
  = (Ok {| cl_closed := true; cl_dryRun := false |},
     mkSt w3
       (trace s
        ++ [ jiraGet turl None;
             jiraPost curl (CommentDoc comment);
             jiraPost turl (TransitionBody (t_id target));
             info ("Closed Jira issue: " ++ issueKey
                   ++ " using transition " ++ dq ++ transition ++ dq) ])
       (locals s)).
Proof.
  intros turl curl Hc Hget Hfind Hp1 Hp2. subst turl curl.
  unfold closeJiraIssue, jiraClient. mred.
  rewrite Hget. cbn [world trace locals]. rewrite Hfind, Hc.
  cbn [world trace locals]. rewrite Hp1. cbn [world trace locals].
  rewrite Hp2.
  cbn [world trace locals]. rewrite <- !app_assoc. reflexivity.
Qed.

End Writes.

(** ** getAlertStatus *)

Section Status.

Context {W : Type}.
Variable E : Env W.

Lemma getGitHubToken_locals (s : St W) r s1 :
  getGitHubToken E s = (r, s1) -> locals s1 = locals s.
Proof.
  unfold getGitHubToken, getInstallationToken.
  destruct (truthy _ && truthy _ && truthy _).
  - mred. destruct (generateJWT E _ _ (world s)) as [jwt|e].
    + destruct (createInstallationAccessToken E jwt _ (world s))
        as [[tok|e] w]; intros [= _ <-]; reflexivity.
    + intros [= _ <-]. reflexivity.
  - destruct (truthy _); mred; intros [= _ <-]; reflexivity.
Qed.

(** Once the token is there, [getAlertStatus] returns a status for every
    outcome of the look-up. *)
Lemma getAlertStatus_outcome owner repo alertId (s : St W) token s1 :
  getGitHubToken E s = (Ok token, s1) ->
  getAlertStatus E owner repo alertId s
  = match github_getAlert E token owner repo (Js.parseInt alertId)
            (world s1) with
    | (Ok state, w) =>
        (Ok state,
         mkSt w (trace s1 ++ lookupEvents owner repo alertId) (locals s1))
    | (Throw err, w) =>
        if status_is err 404 then
          (Ok "not_found",
           mkSt w
             (trace s1 ++ lookupEvents owner repo alertId
              ++ [info ("Alert #" ++ alertId
                        ++ " not found (may have been deleted)")])
             (locals s1))
        else
          (Ok "unknown",
           mkSt w
             (trace s1 ++ lookupEvents owner repo alertId
              ++ [warning ("Failed to check status of alert #" ++ alertId
                           ++ ": " ++ message err)])
             (locals s1))
    end.
Proof.
  intros Htok. unfold getAlertStatus, lookupEvents.
  rewrite (bind_ok _ _ _ _ _ Htok). mred.
  destruct (github_getAlert E token owner repo _ (world s1))
    as [[state|err] w]; cbn [world trace locals].
  - rewrite <- app_assoc. cbn [app].
    destruct (String.eqb_spec state "open") as [->|_]; [reflexivity|].
    destruct (String.eqb_spec state "dismissed") as [->|_]; [reflexivity|].
    destruct (String.eqb_spec state "fixed") as [->|_]; reflexivity.
  - destruct (status_is err 404); cbn [world trace locals];
      rewrite <- !app_assoc; reflexivity.
Qed.

End Status.

(** ** The two loops *)

Section Loops.

Context {W : Type}.
Variable P : Platform.
Variable E : Env W.
Variable config : Config.

Lemma emits_any_alertIteration alert :
  emits any_event (alertIteration P E config alert).
Proof.
  unfold alertIteration, processAlert, handleAlert, findExistingIssue,
    createJiraIssue, updateJiraIssue, jiraClient.
  emits_prog.
Qed.

Lemma emits_any_issueIteration owner repo issue :
  emits any_event (issueIteration E config owner repo issue).
Proof.
  unfold issueIteration, processIssue, actOnStatus, closeResolved,
    closeJiraIssue, extractAlertIdFromIssue, getAlertStatus, getGitHubToken,
    getInstallationToken, jiraClient.
  emits_prog.
Qed.

Lemma for_of_never_throws {A} (body : A -> M W unit) xs :
  (forall x, never_throws (body x)) -> never_throws (for_of body xs).
Proof.
  intros Hb. induction xs as [|x xs IH]; intros s; cbn [for_of].
  - exists tt, s. reflexivity.
  - destruct (Hb x s) as ([] & s1 & H1). rewrite (bind_ok _ _ _ _ _ H1).
    apply IH.
Qed.

Lemma alertIteration_never_throws alert :
  never_throws (alertIteration P E config alert).
Proof.
  intros s. unfold alertIteration, try_catch.
  destruct (processAlert P E config alert s) as [[[]|e] s1].
  - exists tt, s1. reflexivity.
  - eexists tt, _. reflexivity.
Qed.

Lemma issueIteration_never_throws owner repo issue :
  never_throws (issueIteration E config owner repo issue).
Proof.
  intros s. unfold issueIteration, try_catch.
  destruct (processIssue E config owner repo issue s) as [[[]|e] s1].
  - exists tt, s1. reflexivity.
  - eexists tt, _. reflexivity.
Qed.

Lemma alertIteration_caught alert (s : St W) e s0 :
  processAlert P E config alert s = (Throw e, s0) ->
  alertIteration P E config alert s
  = (Ok tt,
     logged s0 [error ("Failed to process alert #"
                       ++ Js.string_of_Z (number alert) ++ ": "
                       ++ message e)]).
Proof. intros H. unfold alertIteration, try_catch. rewrite H. reflexivity. Qed.

Lemma issueIteration_caught owner repo issue (s : St W) e s0 :
  processIssue E config owner repo issue s = (Throw e, s0) ->
  issueIteration E config owner repo issue s
  = (Ok tt,
     logged s0 [warning ("Failed to process issue " ++ key issue
                         ++ " for auto-close: " ++ message e)]).
Proof. intros H. unfold issueIteration, try_catch. rewrite H. reflexivity. Qed.

(** Whatever happens to an alert, the line that announces it is logged. *)
Lemma alertIteration_starts alert (s : St W) r s1 :
  alertIteration P E config alert s = (r, s1) ->
  exists evs, trace s1 = (trace s ++ processingLine alert :: evs)%list.
Proof.
  unfold alertIteration, processAlert.
  set (k := bind (findExistingIssue E _ _) _).
  set (h := fun err : JsError => emit _).
  intros H.
  assert (Hk : emits any_event (try_catch k h)).
  { subst k h. unfold handleAlert, findExistingIssue, createJiraIssue,
      updateJiraIssue, jiraClient. emits_prog. }
  change (try_catch k h
            (mkSt (world s) (trace s ++ [processingLine alert])
               (push_processed (parseAlert alert) (locals s)))
          = (r, s1)) in H.
  destruct (Hk _ _ _ H) as (evs & Hevs & _). cbn [trace] in Hevs.
  exists evs. rewrite Hevs, <- app_assoc. reflexivity.
Qed.

(** The loop over the alerts returns normally and announces every alert of
    the list. *)
Lemma alert_loop_processes_all alerts (s : St W) :
  exists s',
    for_of (alertIteration P E config) alerts s = (Ok tt, s')
    /\ forall alert, In alert alerts -> In (processingLine alert) (trace s').
Proof.
  revert s. induction alerts as [|a alerts IH]; intros s; cbn [for_of].
  - exists s. split; [reflexivity | intros ? []].
  - destruct (alertIteration_never_throws a s) as ([] & s1 & H1).
    rewrite (bind_ok _ _ _ _ _ H1).
    destruct (IH s1) as (s' & Hloop & Hin). exists s'. split; [exact Hloop|].
    intros alert [<-|Halert]; [|apply Hin, Halert].
    destruct (alertIteration_starts _ _ _ _ H1) as (evs & Hevs).
    destruct (emits_for_of any_event _ alerts
                (emits_any_alertIteration) _ _ _ Hloop) as (evs' & Hevs' & _).
    rewrite Hevs', Hevs. apply in_or_app. left. apply in_or_app. right.
    left. reflexivity.
Qed.

End Loops.

(** An error thrown by the close operation leaves [actOnStatus] as it
    is. *)
Lemma actOnStatus_close_throws {W} (E : Env W) config issue alertId
    alertStatus (s : St W) e s0 :
  isResolved alertStatus = true ->
  closeJiraIssue E (key issue) (closeTransition (behavior config))
    (closeComment (behavior config) ++ nl ++ nl ++ "Reason: "
     ++ closeReason alertStatus)
    (dryRun (behavior config)) s = (Throw e, s0) ->
  actOnStatus E config issue alertId alertStatus s = (Throw e, s0).
Proof.
  intros Hres Hclose. unfold actOnStatus, closeResolved. rewrite Hres.
  rewrite (bind_throw _ _ _ _ _ Hclose). reflexivity.
Qed.

Lemma run_never_throws {W} (P : Platform) (E : Env W) :
  never_throws (run P E).
Proof.
  intros s. unfold run, try_catch.
  destruct (bind (lift (getConfig E)) (main P E) s) as [[[]|e] s1].
  - exists tt, s1. reflexivity.
  - eexists tt, _. reflexivity.
Qed.

(** C1. Failure isolation. In the loop over the alerts, a turn always
    returns normally, an error thrown while an alert is processed is logged
    with the number of the alert, the loop goes on with the next alert, and
    every alert of the list is announced in the log. Closing a ticket with a
    transition that, up to the case of letters, is not among the
    transitions Jira offers throws an error that names the transition asked
    for and lists the offered ones, before any POST. In the auto-close
    loop that error, like any other, is caught, logged as a warning with
    the key of the ticket, and the loop goes on with the next ticket. [run]
    itself never throws. *)
Theorem failure_isolation {W} (P : Platform) (E : Env W) (config : Config)
    (owner repo : string) :
  (forall alert rest (s : St W),
      exists s1,
        alertIteration P E config alert s = (Ok tt, s1)
        /\ for_of (alertIteration P E config) (alert :: rest) s
           = for_of (alertIteration P E config) rest s1
        /\ (forall e s0,
              processAlert P E config alert s = (Throw e, s0) ->
              s1 = logged s0 [error ("Failed to process alert #"
                                     ++ Js.string_of_Z (number alert)
                                     ++ ": " ++ message e)]))
  /\ (forall alerts (s : St W),
        exists s',
          for_of (alertIteration P E config) alerts s = (Ok tt, s')
          /\ forall alert,
               In alert alerts -> In (processingLine alert) (trace s'))
  /\ (forall issueKey transition comment (s : St W) offered w1,
        jira_transitions E
          ("/rest/api/3/issue/" ++ issueKey ++ "/transitions") (world s)
        = (Ok offered, w1) ->
        (forall t, In t (or_obj offered []) ->
                   Js.toLowerCase (t_name t) <> Js.toLowerCase transition) ->
        let msg :=
          "Transition " ++ dq ++ transition ++ dq
          ++ " not available. Available transitions: "
          ++ Js.join ", " (map t_name (or_obj offered [])) in
        closeJiraIssue E issueKey transition comment false s
        = (Throw (Error_ msg),
           mkSt w1
             (trace s
              ++ [ jiraGet
                     ("/rest/api/3/issue/" ++ issueKey ++ "/transitions")
                     None;
                   error ("Failed to close Jira issue " ++ issueKey ++ ": "
                          ++ msg) ])
             (locals s)))
  /\ (forall issue alertId alertStatus (s : St W) e s0,
        isResolved alertStatus = true ->
        closeJiraIssue E (key issue) (closeTransition (behavior config))
          (closeComment (behavior config) ++ nl ++ nl ++ "Reason: "
           ++ closeReason alertStatus)
          (dryRun (behavior config)) s = (Throw e, s0) ->
        actOnStatus E config issue alertId alertStatus s = (Throw e, s0))
  /\ (forall issue rest (s : St W),
        exists s1,
          issueIteration E config owner repo issue s = (Ok tt, s1)
          /\ for_of (issueIteration E config owner repo) (issue :: rest) s
             = for_of (issueIteration E config owner repo) rest s1
          /\ (forall e s0,
                processIssue E config owner repo issue s = (Throw e, s0) ->
                s1 = logged s0
                       [warning ("Failed to process issue " ++ key issue
                                 ++ " for auto-close: " ++ message e)]))
  /\ never_throws (run P E).
Proof.
  split; [|split; [|split; [|split; [|split]]]].
  - intros alert rest s.
    destruct (alertIteration_never_throws P E config alert s)
      as ([] & s1 & H1).
    exists s1. split; [exact H1|]. split.
    + cbn [for_of]. unfold bind. rewrite H1. reflexivity.
    + intros e s0 Hthrow.
      rewrite (alertIteration_caught P E config _ _ _ _ Hthrow) in H1.
      now inversion H1.
  - apply alert_loop_processes_all.
  - intros issueKey transition comment s offered w1 Hget Hnone msg.
    apply closeJiraIssue_missing; [exact Hget|].
    apply findTransition_none, Hnone.
  - intros. eapply actOnStatus_close_throws; eauto.
  - intros issue rest s.
    destruct (issueIteration_never_throws E config owner repo issue s)
      as ([] & s1 & H1).
    exists s1. split; [exact H1|]. split.
    + cbn [for_of]. unfold bind. rewrite H1. reflexivity.
    + intros e s0 Hthrow.
      rewrite (issueIteration_caught E config _ _ _ _ _ _ Hthrow) in H1.
      now inversion H1.
  - apply run_never_throws.
Qed.

(** The sample world: the ticket SEC-1 does not offer "done", the ticket
    SEC-2 does. Closing SEC-1 throws as stated; the loop over both tickets
    logs the failure of SEC-1 and still posts the transition of SEC-2; and
    an alert whose ticket cannot be created is logged and passed over. *)
Lemma failure_isolation_witness :
  closeJiraIssue (Sample.env false [] []) "SEC-1" "done" "Closed." false
    Sample.start
  = (Throw (Error_ ("Transition " ++ dq ++ "done" ++ dq
                    ++ " not available. Available transitions: "
                    ++ "In Progress, Resolved")),
     mkSt tt
       [ jiraGet "/rest/api/3/issue/SEC-1/transitions" None;
         error ("Failed to close Jira issue SEC-1: Transition " ++ dq
                ++ "done" ++ dq
                ++ " not available. Available transitions: "
                ++ "In Progress, Resolved") ]
       init_locals)
  /\ (exists s',
        for_of (issueIteration (Sample.env false [] []) (Sample.config false)
                  "o" "r")
          [Sample.ticket "SEC-1" "7"; Sample.ticket "SEC-2" "7"]
          Sample.start = (Ok tt, s')
        /\ In (warning ("Failed to process issue SEC-1 for auto-close: "
                        ++ "Transition " ++ dq ++ "done" ++ dq
                        ++ " not available. Available transitions: "
                        ++ "In Progress, Resolved"))
              (trace s')
        /\ In (jiraPost "/rest/api/3/issue/SEC-2/transitions"
                 (TransitionBody "31")) (trace s')
        /\ issuesClosed (locals s') = 1)
  /\ (exists s0,
        alertIteration Sample.node (Sample.env false [] [])
          (Sample.config false) (Sample.undatedAlert 3) Sample.start
        = (Ok tt,
           logged s0
             [error "Failed to process alert #3: Invalid time value"])).
Proof.
  pose proof (failure_isolation Sample.node (Sample.env false [] [])
                (Sample.config false) "o" "r")
    as (Halert & _ & Hclose & _ & Hissue & _).
  split; [|split].
  - apply (Hclose "SEC-1" "done" "Closed." Sample.start
             (Some [ {| t_id := "21"; t_name := "In Progress" |};
                     {| t_id := "41"; t_name := "Resolved" |} ]) tt eq_refl).
    intros t [<-|[<-|[]]]; discriminate.
  - destruct (Hissue (Sample.ticket "SEC-1" "7")
                [Sample.ticket "SEC-2" "7"] Sample.start)
      as (s1 & H1 & Hloop & Hcaught).
    eexists. split; [rewrite Hloop|].
    + rewrite (Hcaught _ _ eq_refl). vm_compute. reflexivity.
    + vm_compute. split; [auto 20|]. split; [auto 20 | reflexivity].
  - destruct (Halert (Sample.undatedAlert 3) [] Sample.start)
      as (s1 & H1 & _ & Hcaught).
    eexists. rewrite H1. apply f_equal.
    refine (Hcaught (Error_ "Invalid time value") _ _).
    vm_compute. reflexivity.
Defined.

(** ** The decision of the auto-close loop *)

Section Decision.

Context {W : Type}.
Variable E : Env W.
Variable config : Config.

Lemma isResolved_iff alertStatus :
  isResolved alertStatus = true
  <-> alertStatus = "fixed" \/ alertStatus = "dismissed"
      \/ alertStatus = "not_found".
Proof.
  unfold isResolved. rewrite !orb_true_iff, !String.eqb_eq. tauto.
Qed.

Lemma actOnStatus_resolved issue alertId alertStatus (s : St W) :
  isResolved alertStatus = true ->
  actOnStatus E config issue alertId alertStatus s
  = closeResolved E config issue alertId alertStatus s.
Proof. intros H. unfold actOnStatus. rewrite H. reflexivity. Qed.

Lemma actOnStatus_open issue alertId (s : St W) :
  actOnStatus E config issue alertId "open" s
  = (Ok tt,
     logged s [debug ("Alert #" ++ alertId
                      ++ " is still open, keeping Jira issue " ++ key issue
                      ++ " open")]).
Proof. reflexivity. Qed.

Lemma actOnStatus_unknown issue alertId alertStatus (s : St W) :
  isResolved alertStatus = false -> alertStatus <> "open" ->
  actOnStatus E config issue alertId alertStatus s
  = (Ok tt,
     logged s [warning ("Unknown status '" ++ alertStatus ++ "' for alert #"
                        ++ alertId ++ ", keeping issue " ++ key issue
                        ++ " open")]).
Proof.
  intros H Hopen. unfold actOnStatus. rewrite H.
  destruct (String.eqb_spec alertStatus "open"); [contradiction|].
  reflexivity.
Qed.

Lemma closeResolved_dry issue alertId alertStatus (s : St W) :
  dryRun (behavior config) = true ->
  closeResolved E config issue alertId alertStatus s
  = (Ok tt,
     mkSt (world s)
       (trace s
        ++ [info ("[DRY RUN] Would close Jira issue " ++ key issue
                  ++ " with transition " ++ dq
                  ++ closeTransition (behavior config) ++ dq)])
       (incr_closed (locals s))).
Proof. intros H. unfold closeResolved. rewrite H. reflexivity. Qed.

(** The comment posted on closing: the configured text and the reason. *)
Lemma closeResolved_done issue alertId alertStatus (s : St W)
    offered target w1 r2 w2 r3 w3 :
  let turl := "/rest/api/3/issue/" ++ key issue ++ "/transitions" in
  let curl := "/rest/api/3/issue/" ++ key issue ++ "/comment" in
  let comment := closeComment (behavior config) ++ nl ++ nl ++ "Reason: "
                 ++ closeReason alertStatus in
  dryRun (behavior config) = false ->
  jira_transitions E turl (world s) = (Ok offered, w1) ->
  findTransition (or_obj offered []) (closeTransition (behavior config))
  = Some target ->
  jira_post E curl (CommentDoc comment) w1 = (Ok r2, w2) ->
  jira_post E turl (TransitionBody (t_id target)) w2 = (Ok r3, w3) ->
  closeResolved E config issue alertId alertStatus s
  = (Ok tt,
     mkSt w3
       (trace s
        ++ [ jiraGet turl None;
             jiraPost curl (CommentDoc comment);
             jiraPost turl (TransitionBody (t_id target));
             info ("Closed Jira issue: " ++ key issue
                   ++ " using transition " ++ dq
                   ++ closeTransition (behavior config) ++ dq);
             info ("🔒 Closed Jira issue " ++ key issue ++ " (Alert #"
                   ++ alertId ++ " was " ++ alertStatus ++ ")") ])
       (incr_closed (locals s))).
Proof.
  intros turl curl comment Hdry Hget Hfind Hp1 Hp2.
  unfold closeResolved. rewrite Hdry.
  erewrite bind_ok;
    [| eapply closeJiraIssue_done; eauto; apply truthy_app].
  mred. rewrite <- app_assoc. reflexivity.
Qed.

Lemma processIssue_examined owner repo issue alertId alertStatus
    (s s2 : St W) :
  extractAlertIdFromIssue issue s = (Ok (Some alertId), s) ->
  getAlertStatus E owner repo alertId s = (Ok alertStatus, s2) ->
  processIssue E config owner repo issue s
  = actOnStatus E config issue alertId alertStatus s2.
Proof.
  intros Hid Hst. unfold processIssue.
  rewrite (bind_ok _ _ _ _ _ Hid). rewrite (bind_ok _ _ _ _ _ Hst).
  reflexivity.
Qed.

End Decision.

Section Starts.

Context {W : Type}.

Lemma starts_request {A} e (op : W -> result A * W) :
  starts_with e (request e op).
Proof.
  intros s r s'. unfold request. destruct (op (world s)) as [x w].
  intros [= <- <-]. exists []. reflexivity.
Qed.

Lemma starts_bind {A B} e (m : M W A) (k : A -> M W B) :
  starts_with e m -> (forall a, emits any_event (k a)) ->
  starts_with e (bind m k).
Proof.
  intros Hm Hk s r s'. unfold bind.
  destruct (m s) as [[a|err] s1] eqn:Hms.
  - intros Hka. destruct (Hm _ _ _ Hms) as (ev1 & E1).
    destruct (Hk a _ _ _ Hka) as (ev2 & E2 & _).
    exists (ev1 ++ ev2)%list. rewrite E2, E1, <- app_assoc. reflexivity.
  - intros [= <- <-]. exact (Hm _ _ _ Hms).
Qed.

Lemma starts_try_catch {A} e (m : M W A) h :
  starts_with e m -> (forall err, emits any_event (h err)) ->
  starts_with e (try_catch m h).
Proof.
  intros Hm Hh s r s'. unfold try_catch.
  destruct (m s) as [[a|err] s1] eqn:Hms.
  - intros [= <- <-]. exact (Hm _ _ _ Hms).
  - intros Hhe. destruct (Hm _ _ _ Hms) as (ev1 & E1).
    destruct (Hh err _ _ _ Hhe) as (ev2 & E2 & _).
    exists (ev1 ++ ev2)%list. rewrite E2, E1, <- app_assoc. reflexivity.
Qed.

(** Outside a dry run the close operation begins by asking Jira for the
    transitions of the ticket. *)
Lemma closeJiraIssue_starts (E : Env W) issueKey transition comment :
  starts_with
    (jiraGet ("/rest/api/3/issue/" ++ issueKey ++ "/transitions") None)
    (closeJiraIssue E issueKey transition comment false).
Proof.
  unfold closeJiraIssue, jiraClient.
  apply starts_try_catch; [|intros; emits_prog].
  apply starts_bind; [|intros; emits_prog].
  apply starts_try_catch; [apply starts_request | intros; emits_prog].
Qed.

Lemma closeResolved_starts (E : Env W) config issue alertId alertStatus :
  dryRun (behavior config) = false ->
  starts_with
    (jiraGet ("/rest/api/3/issue/" ++ key issue ++ "/transitions") None)
    (closeResolved E config issue alertId alertStatus).
Proof.
  intros Hdry. unfold closeResolved. rewrite Hdry.
  apply starts_bind; [apply closeJiraIssue_starts | intros; emits_prog].
Qed.

End Starts.

(** C4. The decision of the auto-close loop. A ticket whose alert id was
    extracted and whose alert has the status [alertStatus] is handed to the
    close operation exactly when the status is "fixed", "dismissed" or
    "not_found": then, outside a dry run, Jira is asked for the transitions
    of the ticket first and, when the transition is on offer and Jira
    accepts the requests, the comment and the transition are posted and the
    ticket is counted as closed; in a dry run the ticket is counted and
    nothing is sent. With the status "open" the only effect is a debug
    line; with any other status the only effect is a warning that names the
    status; in both cases nothing is sent to Jira and nothing is counted. *)
Theorem auto_close_decision {W} (E : Env W) (config : Config)
    (owner repo : string) (issue : JiraIssue) (alertId alertStatus : string)
    (s : St W) :
  let turl := "/rest/api/3/issue/" ++ key issue ++ "/transitions" in
  let curl := "/rest/api/3/issue/" ++ key issue ++ "/comment" in
  let comment := closeComment (behavior config) ++ nl ++ nl ++ "Reason: "
                 ++ closeReason alertStatus in
  (forall s0,
      extractAlertIdFromIssue issue s0 = (Ok (Some alertId), s0) ->
      getAlertStatus E owner repo alertId s0 = (Ok alertStatus, s) ->
      processIssue E config owner repo issue s0
      = actOnStatus E config issue alertId alertStatus s)
  /\ (isResolved alertStatus = true
      <-> alertStatus = "fixed" \/ alertStatus = "dismissed"
          \/ alertStatus = "not_found")
  /\ (isResolved alertStatus = true ->
      actOnStatus E config issue alertId alertStatus s
      = closeResolved E config issue alertId alertStatus s
      /\ (dryRun (behavior config) = false ->
          forall r s',
            actOnStatus E config issue alertId alertStatus s = (r, s') ->
            exists evs, trace s' = (trace s ++ jiraGet turl None :: evs)%list)
      /\ (dryRun (behavior config) = false ->
          forall offered target w1 r2 w2 r3 w3,
            jira_transitions E turl (world s) = (Ok offered, w1) ->
            findTransition (or_obj offered [])
              (closeTransition (behavior config)) = Some target ->
            jira_post E curl (CommentDoc comment) w1 = (Ok r2, w2) ->
            jira_post E turl (TransitionBody (t_id target)) w2
            = (Ok r3, w3) ->
            exists evs,
              actOnStatus E config issue alertId alertStatus s
              = (Ok tt, mkSt w3 (trace s ++ evs) (incr_closed (locals s)))
              /\ In (jiraPost turl (TransitionBody (t_id target))) evs)
      /\ (dryRun (behavior config) = true ->
          exists line,
            actOnStatus E config issue alertId alertStatus s
            = (Ok tt,
               mkSt (world s) (trace s ++ [info line])
                 (incr_closed (locals s)))))
  /\ (alertStatus = "open" ->
      actOnStatus E config issue alertId alertStatus s
      = (Ok tt,
         logged s [debug ("Alert #" ++ alertId
                          ++ " is still open, keeping Jira issue "
                          ++ key issue ++ " open")]))
  /\ (isResolved alertStatus = false -> alertStatus <> "open" ->
      actOnStatus E config issue alertId alertStatus s
      = (Ok tt,
         logged s [warning ("Unknown status '" ++ alertStatus
                            ++ "' for alert #" ++ alertId
                            ++ ", keeping issue " ++ key issue
                            ++ " open")]))
  /\ (isResolved alertStatus = false ->
      exists e,
        actOnStatus E config issue alertId alertStatus s
        = (Ok tt, logged s [e])
        /\ is_jira_request e = false).
Proof.
  intros turl curl comment.
  split; [|split; [|split; [|split; [|split]]]].
  - intros s0 Hid Hst. eapply processIssue_examined; eauto.
  - apply isResolved_iff.
  - intros Hres. rewrite (actOnStatus_resolved E config _ _ _ _ Hres).
    split; [reflexivity|]. split; [|split].
    + intros Hdry r s'. apply closeResolved_starts, Hdry.
    + intros Hdry offered target w1 r2 w2 r3 w3 Hget Hfind Hp1 Hp2.
      eexists. split.
      * eapply closeResolved_done; eauto.
      * cbn. auto.
    + intros Hdry. eexists. apply closeResolved_dry, Hdry.
  - intros ->. apply actOnStatus_open.
  - apply actOnStatus_unknown.
  - intros Hres. destruct (String.eqb_spec alertStatus "open") as [->|Hopen].
    + eexists. split; [apply actOnStatus_open | reflexivity].
    + eexists. split; [apply actOnStatus_unknown; assumption | reflexivity].
Qed.

(** The sample world: the alert of SEC-4 is gone and its ticket is closed;
    the alert of SEC-3 is open and the alert of SEC-6 is in a state without
    a name, and their tickets are left as they are. *)
Lemma auto_close_decision_witness :
  (exists evs,
      actOnStatus (Sample.env false [] []) (Sample.config false)
        (Sample.ticket "SEC-4" "9") "9" "not_found" Sample.start
      = (Ok tt, mkSt tt ([] ++ evs) (incr_closed init_locals))
      /\ In (jiraPost "/rest/api/3/issue/SEC-4/transitions"
               (TransitionBody "31")) evs)
  /\ actOnStatus (Sample.env false [] []) (Sample.config false)
       (Sample.ticket "SEC-3" "8") "8" "open" Sample.start
     = (Ok tt,
        logged Sample.start
          [debug "Alert #8 is still open, keeping Jira issue SEC-3 open"])
  /\ actOnStatus (Sample.env false [] []) (Sample.config false)
       (Sample.ticket "SEC-6" "11") "11" "auto_dismissed" Sample.start
     = (Ok tt,
        logged Sample.start
          [warning ("Unknown status 'auto_dismissed' for alert #11, "
                    ++ "keeping issue SEC-6 open")]).
Proof.
  split; [|split].
  - pose proof (auto_close_decision (Sample.env false [] [])
                  (Sample.config false) "o" "r" (Sample.ticket "SEC-4" "9")
                  "9" "not_found" Sample.start)
      as (_ & _ & Hres & _).
    destruct (Hres eq_refl) as (_ & _ & Hdone & _).
    exact (Hdone eq_refl
             (Some [ {| t_id := "21"; t_name := "In Progress" |};
                     {| t_id := "31"; t_name := "Done" |} ])
             {| t_id := "31"; t_name := "Done" |} tt (Some "SEC-100") tt
             (Some "SEC-100") tt eq_refl eq_refl eq_refl eq_refl).
  - pose proof (auto_close_decision (Sample.env false [] [])
                  (Sample.config false) "o" "r" (Sample.ticket "SEC-3" "8")
                  "8" "open" Sample.start)
      as (_ & _ & _ & Hopen & _).
    exact (Hopen eq_refl).
  - pose proof (auto_close_decision (Sample.env false [] [])
                  (Sample.config false) "o" "r" (Sample.ticket "SEC-6" "11")
                  "11" "auto_dismissed" Sample.start)
      as (_ & _ & _ & _ & Hunknown & _).
    apply Hunknown; [reflexivity | discriminate].
Defined.

(** ** A look-up that fails *)

(** C9, as the code has it. Once the token is there, [getAlertStatus]
    returns a status for every outcome of the look-up: the state GitHub
    reports, "not_found" when the look-up fails with status 404, "unknown"
    when it fails in any other way; it does not throw. So when the look-up
    for a ticket of the auto-close loop fails in transit, the turn returns
    normally, its only effects are the look-up and two warnings, nothing is
    sent to Jira, the ticket is not counted as closed, and the loop goes on
    with the next ticket. The token is fetched outside the [try]: when it
    cannot be had, [getAlertStatus] throws that error; the turn of the loop
    catches it, logs a warning, leaves the ticket open and the loop goes
    on. *)
Theorem getAlertStatus_total {W} (E : Env W) (config : Config)
    (owner repo alertId : string) (s : St W) :
  (forall token s1,
      getGitHubToken E s = (Ok token, s1) ->
      (exists alertStatus s2,
          getAlertStatus E owner repo alertId s = (Ok alertStatus, s2)
          /\ match fst (github_getAlert E token owner repo
                          (Js.parseInt alertId) (world s1)) with
             | Ok state => alertStatus = state
             | Throw err =>
                 (status err = Some 404 -> alertStatus = "not_found")
                 /\ (status err <> Some 404 -> alertStatus = "unknown")
             end)
      /\ (forall issue rest err w2,
            extractAlertIdFromIssue issue s = (Ok (Some alertId), s) ->
            github_getAlert E token owner repo (Js.parseInt alertId)
              (world s1) = (Throw err, w2) ->
            status err <> Some 404 ->
            let evs :=
              (lookupEvents owner repo alertId
               ++ [ warning ("Failed to check status of alert #" ++ alertId
                             ++ ": " ++ message err);
                    warning ("Unknown status 'unknown' for alert #"
                             ++ alertId ++ ", keeping issue " ++ key issue
                             ++ " open") ])%list
            in
            let s3 := mkSt w2 (trace s1 ++ evs) (locals s) in
            issueIteration E config owner repo issue s = (Ok tt, s3)
            /\ for_of (issueIteration E config owner repo) (issue :: rest) s
               = for_of (issueIteration E config owner repo) rest s3
            /\ forallb (fun e => negb (is_jira_request e)) evs = true
            /\ issuesClosed (locals s3) = issuesClosed (locals s)))
  /\ (forall e s1,
        getGitHubToken E s = (Throw e, s1) ->
        getAlertStatus E owner repo alertId s = (Throw e, s1)
        /\ (forall issue rest,
              extractAlertIdFromIssue issue s = (Ok (Some alertId), s) ->
              let s3 :=
                logged s1
                  [warning ("Failed to process issue " ++ key issue
                            ++ " for auto-close: " ++ message e)] in
              issueIteration E config owner repo issue s = (Ok tt, s3)
              /\ for_of (issueIteration E config owner repo)
                   (issue :: rest) s
                 = for_of (issueIteration E config owner repo) rest s3
              /\ issuesClosed (locals s3) = issuesClosed (locals s))).
Proof.
  assert (H404 : forall err,
            (status err = Some 404 -> status_is err 404 = true)
            /\ (status err <> Some 404 -> status_is err 404 = false)).
  { intros err. unfold status_is. destruct (status err) as [c|].
    - destruct (Z.eqb_spec c 404) as [->|Hc]; split; intros H;
        try reflexivity; congruence.
    - split; [discriminate | reflexivity]. }
  split.
  - intros token s1 Htok. split.
    + rewrite (getAlertStatus_outcome E owner repo alertId s token s1 Htok).
      destruct (github_getAlert E token owner repo _ (world s1))
        as [[state|err] w]; cbn [fst].
      * eauto.
      * destruct (H404 err) as [Hyes Hno].
        destruct (status_is err 404); do 2 eexists;
          (split; [reflexivity|]); split; intros Hc.
        -- reflexivity.
        -- discriminate (Hno Hc).
        -- discriminate (Hyes Hc).
        -- reflexivity.
    + intros issue rest err w2 Hid Hget Hnot evs s3.
      assert (Hturn : issueIteration E config owner repo issue s
                      = (Ok tt, s3)).
      { pose proof (getAlertStatus_outcome E owner repo alertId s token s1
                      Htok) as Hst.
        rewrite Hget, (proj2 (H404 err) Hnot) in Hst.
        unfold issueIteration, try_catch.
        rewrite (processIssue_examined E config _ _ _ _ _ _ _ Hid Hst).
        rewrite actOnStatus_unknown; [|reflexivity | discriminate].
        unfold logged, s3, evs. cbn [world trace locals].
        rewrite (getGitHubToken_locals E _ _ _ Htok), <- !app_assoc.
        reflexivity. }
      split; [exact Hturn|]. split; [|split].
      * cbn [for_of]. unfold bind. rewrite Hturn. reflexivity.
      * reflexivity.
      * reflexivity.
  - intros e s1 Htok.
    assert (Hthrow : getAlertStatus E owner repo alertId s = (Throw e, s1)).
    { unfold getAlertStatus. apply bind_throw, Htok. }
    split; [exact Hthrow|].
    intros issue rest Hid s3.
    assert (Hturn : issueIteration E config owner repo issue s
                    = (Ok tt, s3)).
    { unfold issueIteration, try_catch, processIssue.
      rewrite (bind_ok _ _ _ _ _ Hid). unfold bind at 1.
      rewrite Hthrow. reflexivity. }
    split; [exact Hturn|]. split.
    + cbn [for_of]. unfold bind. rewrite Hturn. reflexivity.
    + unfold s3, logged. cbn [locals].
      rewrite (getGitHubToken_locals E _ _ _ Htok). reflexivity.
Qed.

(** The sample world: the look-up of alert 9 is answered with 404 and that
    of alert 10 fails with "socket hang up"; the ticket SEC-5 of alert 10
    stays open and the ticket SEC-2 after it is closed. Without a token
    the turn for SEC-2 ends in a warning. *)
Lemma getAlertStatus_total_witness :
  (exists s2,
      getAlertStatus (Sample.env false [] []) "o" "r" "9" Sample.start
      = (Ok "not_found", s2))
  /\ (exists s2,
        getAlertStatus (Sample.env false [] []) "o" "r" "10" Sample.start
        = (Ok "unknown", s2))
  /\ (exists s3,
        issueIteration (Sample.env false [] []) (Sample.config false)
          "o" "r" unreachableTicket Sample.start = (Ok tt, s3)
        /\ for_of (issueIteration (Sample.env false [] [])
                     (Sample.config false) "o" "r")
             [unreachableTicket; Sample.ticket "SEC-2" "7"] Sample.start
           = for_of (issueIteration (Sample.env false [] [])
                       (Sample.config false) "o" "r")
               [Sample.ticket "SEC-2" "7"] s3
        /\ issuesClosed (locals s3) = 0)
  /\ (exists s3,
        issueIteration (withoutToken (Sample.env false [] []))
          (Sample.config false) "o" "r" (Sample.ticket "SEC-2" "7")
          Sample.start = (Ok tt, s3)
        /\ issuesClosed (locals s3) = 0).
Proof.
  pose proof (getAlertStatus_total (Sample.env false [] [])
                (Sample.config false) "o" "r" "9" Sample.start)
    as (Hnine & _).
  destruct (Hnine "t0k3n"
              (logged Sample.start
                 [info "🔑 Using GitHub token authentication"]) eq_refl)
    as ((st9 & s9 & Hst9 & Hval9) & _).
  pose proof (getAlertStatus_total (Sample.env false [] [])
                (Sample.config false) "o" "r" "10" Sample.start)
    as (Hten & _).
  destruct (Hten "t0k3n"
              (logged Sample.start
                 [info "🔑 Using GitHub token authentication"]) eq_refl)
    as ((st10 & s10 & Hst10 & Hval10) & Hturn).
  split; [|split; [|split]].
  - exists s9. rewrite Hst9. cbn [fst] in Hval9.
    destruct Hval9 as [Hyes _]. rewrite (Hyes eq_refl). reflexivity.
  - exists s10. rewrite Hst10. cbn [fst] in Hval10.
    destruct Hval10 as [_ Hno]. rewrite (Hno ltac:(discriminate)).
    reflexivity.
  - destruct (Hturn unreachableTicket [Sample.ticket "SEC-2" "7"]
                (mkError None "socket hang up") tt eq_refl eq_refl
                ltac:(discriminate))
      as (H1 & H2 & _ & H4).
    eexists. split; [exact H1|]. split; [exact H2 | exact H4].
  - pose proof (getAlertStatus_total (withoutToken (Sample.env false [] []))
                  (Sample.config false) "o" "r" "7" Sample.start)
      as (_ & Hnone).
    destruct (getGitHubToken (withoutToken (Sample.env false [] []))
                Sample.start) as [[tok|e] s1] eqn:Htok;
      [vm_compute in Htok; discriminate Htok|].
    destruct (Hnone e s1 eq_refl) as (_ & Hloop).
    destruct (Hloop (Sample.ticket "SEC-2" "7") [] eq_refl)
      as (H1 & _ & H3).
    eexists. split; [exact H1 | exact H3].
Defined.

(** Where the claim fails: with no token to be had, [getAlertStatus]
    returns no status; it throws. *)
Lemma getAlertStatus_token_counterexample :
  (exists e,
      fst (getAlertStatus (withoutToken (Sample.env false [] [])) "o" "r"
             "7" Sample.start) = Throw e)
  /\ forall alertStatus,
       fst (getAlertStatus (withoutToken (Sample.env false [] [])) "o" "r"
              "7" Sample.start) <> Ok alertStatus.
Proof.
  split.
  - eexists. vm_compute. reflexivity.
  - intros alertStatus H. vm_compute in H. discriminate H.
Qed.

(** ** Dry run *)

Section DryRun.

Context {W : Type}.
Variable P : Platform.
Variable E : Env W.
Variable config : Config.

Lemma processAlert_lookup cfg alert (s : St W) :
  processAlert P E cfg alert s
  = bind (findExistingIssue E (projectKey (jira cfg)) (number alert))
      (handleAlert P E cfg (parseAlert alert)) (announced alert s).
Proof. reflexivity. Qed.

(** An alert with a ticket, updates enabled: the dry run counts the
    update. *)
Lemma handleAlert_dry_update parsedAlert existing (s1 : St W) :
  updateExisting (behavior config) = true ->
  handleAlert P E (withDryRun true config) parsedAlert (Some existing) s1
  = (Ok tt,
     mkSt (world s1)
       (trace s1
        ++ [ info ("Found existing issue: " ++ key existing);
             info ("[DRY RUN] Would update Jira issue " ++ key existing
                   ++ " with comment") ])
       (incr_updated (locals s1))).
Proof.
  intros Hup. unfold handleAlert.
  cbn [withDryRun behavior dryRun updateExisting]. rewrite Hup. mred.
  rewrite updateJiraIssue_dry. unfold logged. cbn [world trace locals].
  rewrite <- app_assoc. reflexivity.
Qed.

(** An alert without a ticket whose due date can be computed: the dry run
    counts the creation. *)
Lemma handleAlert_dry_create parsedAlert (s1 : St W) dueDate :
  calculateDueDate P (Date_now E (world s1)) (a_severity parsedAlert)
    (dueDays (jira config)) (a_createdAt parsedAlert) = Ok dueDate ->
  handleAlert P E (withDryRun true config) parsedAlert None s1
  = (Ok tt,
     mkSt (world s1)
       (trace s1
        ++ [ info ("[DRY RUN] Would create Jira issue: "
                   ++ f_summary (issueData P (jira config) parsedAlert
                                   dueDate)) ])
       (incr_created (locals s1))).
Proof.
  intros Hdue. unfold handleAlert.
  cbn [withDryRun behavior dryRun updateExisting jira].
  erewrite bind_ok; [|rewrite createJiraIssue_dry, Hdue; reflexivity].
  reflexivity.
Qed.

(** Whenever the real run returns normally from an alert, the dry run from
    the same state does too, with the same counters. *)
Lemma handleAlert_same_counters parsedAlert existingIssue (s1 sr : St W) :
  handleAlert P E (withDryRun false config) parsedAlert existingIssue s1
  = (Ok tt, sr) ->
  exists sd,
    handleAlert P E (withDryRun true config) parsedAlert existingIssue s1
    = (Ok tt, sd)
    /\ locals sd = locals sr.
Proof.
  destruct existingIssue as [existing|].
  - destruct (updateExisting (behavior config)) eqn:Hup.
    + rewrite (handleAlert_dry_update _ _ _ Hup).
      unfold handleAlert.
      cbn [withDryRun behavior dryRun updateExisting]. rewrite Hup.
      unfold updateJiraIssue, jiraClient. mred.
      match goal with
      | |- context [jira_post E ?a ?b ?c] =>
          destruct (jira_post E a b c) as [[k|e] w]
      end; cbn [world trace locals]; [|discriminate].
      intros [= <-]. eexists. split; reflexivity.
    + unfold handleAlert.
      cbn [withDryRun behavior dryRun updateExisting]. rewrite Hup.
      intros [= <-]. eexists. split; reflexivity.
  - unfold handleAlert at 1.
    cbn [withDryRun behavior dryRun updateExisting jira].
    unfold createJiraIssue, jiraClient. mred.
    destruct (calculateDueDate P (Date_now E (world s1))
                (a_severity parsedAlert) (dueDays (jira config))
                (a_createdAt parsedAlert)) as [dueDate|e0] eqn:Hdue;
      [|discriminate].
    rewrite (handleAlert_dry_create _ _ _ Hdue).
    match goal with
    | |- context [jira_post E ?a ?b ?c] =>
        destruct (jira_post E a b c) as [[k|e] w]
    end; cbn [world trace locals]; [|discriminate].
    intros [= <-]. eexists. split; reflexivity.
Qed.

Lemma processAlert_same_counters alert (s sr : St W) :
  processAlert P E (withDryRun false config) alert s = (Ok tt, sr) ->
  exists sd,
    processAlert P E (withDryRun true config) alert s = (Ok tt, sd)
    /\ locals sd = locals sr.
Proof.
  rewrite !processAlert_lookup. cbn [withDryRun jira]. unfold bind.
  destruct (findExistingIssue E (projectKey (jira config)) (number alert)
              (announced alert s)) as [[found|e] s1]; [|discriminate].
  apply handleAlert_same_counters.
Qed.

Lemma closeResolved_same_counters issue alertId alertStatus (s sr : St W) :
  closeResolved E (withDryRun false config) issue alertId alertStatus s
  = (Ok tt, sr) ->
  exists sd,
    closeResolved E (withDryRun true config) issue alertId alertStatus s
    = (Ok tt, sd)
    /\ locals sd = locals sr.
Proof.
  intros Hreal. rewrite closeResolved_dry by reflexivity.
  eexists. split; [reflexivity|]. cbn [locals].
  revert Hreal. unfold closeResolved.
  cbn [withDryRun behavior dryRun closeTransition closeComment].
  unfold bind at 1.
  match goal with
  | |- context [closeJiraIssue E ?a ?b ?c false s] =>
      destruct (closeJiraIssue E a b c false s) as [[c0|e] s1] eqn:Hc
  end; [|discriminate].
  mred. intros [= <-]. cbn [locals]. f_equal.
  revert Hc. unfold closeJiraIssue, jiraClient. mred.
  repeat (cbn [world trace locals];
          match goal with
          | |- context [jira_transitions E ?a ?b] =>
              destruct (jira_transitions E a b) as [[?|?] ?]
          | |- context [jira_post E ?a ?b ?c] =>
              destruct (jira_post E a b c) as [[?|?] ?]
          | |- context [findTransition ?a ?b] =>
              destruct (findTransition a b)
          | |- context [truthy ?a] => destruct (truthy a)
          end);
    cbn [world trace locals]; try discriminate;
    intros [= _ <-]; reflexivity.
Qed.

End DryRun.

(** C7, as the code has it. With the dry-run flag set, nothing a run does
    is a POST to Jira, whatever the alerts, the tickets and the answers of
    the two services; update and close log their intent and return their
    sentinel without sending anything and without touching the world, and
    so does create once the due date is computed (when it cannot be, create
    throws, sending nothing, as it does outside a dry run). The dry run
    raises the count of updated, created or closed tickets by exactly one
    for every update, every creation with a due date and every closure, and
    touches no other count; whenever a real run returns normally from an
    alert or a ticket, the dry run from the same state does too, with the
    same counts. The summary reads "DRY RUN: Would create ...". *)
Theorem dry_run_frame {W} (P : Platform) (E : Env W) (config : Config) :
  let dry := withDryRun true config in
  let real := withDryRun false config in
  (forall owner repo alerts, emits not_write (sync P E dry owner repo alerts))
  /\ (getConfig E = Ok dry -> emits not_write (run P E))
  /\ (forall cfg alert (s : St W),
        createJiraIssue P E cfg alert true s
        = match calculateDueDate P (Date_now E (world s)) (a_severity alert)
                  (dueDays cfg) (a_createdAt alert) with
          | Ok dueDate =>
              (Ok {| c_key := Some "DRY-RUN-KEY"; c_dryRun := true |},
               logged s
                 [info ("[DRY RUN] Would create Jira issue: "
                        ++ f_summary (issueData P cfg alert dueDate))])
          | Throw e => (Throw e, s)
          end)
  /\ (forall issueKey alert (s : St W),
        updateJiraIssue P E issueKey alert true s
        = (Ok {| u_updated := true; u_dryRun := true |},
           logged s [info ("[DRY RUN] Would update Jira issue " ++ issueKey
                           ++ " with comment")]))
  /\ (forall issueKey transition comment (s : St W),
        closeJiraIssue E issueKey transition comment true s
        = (Ok {| cl_closed := false; cl_dryRun := true |},
           logged s [info ("[DRY RUN] Would close Jira issue " ++ issueKey
                           ++ " with transition " ++ dq ++ transition
                           ++ dq)]))
  /\ (forall alert (s sr : St W),
        processAlert P E real alert s = (Ok tt, sr) ->
        exists sd,
          processAlert P E dry alert s = (Ok tt, sd)
          /\ locals sd = locals sr)
  /\ (forall issue alertId alertStatus (s sr : St W),
        closeResolved E real issue alertId alertStatus s = (Ok tt, sr) ->
        exists sd,
          closeResolved E dry issue alertId alertStatus s = (Ok tt, sd)
          /\ locals sd = locals sr)
  /\ (forall parsedAlert existing (s1 : St W),
        updateExisting (behavior config) = true ->
        exists sd,
          handleAlert P E dry parsedAlert (Some existing) s1 = (Ok tt, sd)
          /\ world sd = world s1
          /\ issuesUpdated (locals sd) = issuesUpdated (locals s1) + 1
          /\ issuesCreated (locals sd) = issuesCreated (locals s1)
          /\ issuesClosed (locals sd) = issuesClosed (locals s1)
          /\ processedAlerts (locals sd) = processedAlerts (locals s1))
  /\ (forall parsedAlert (s1 : St W) dueDate,
        calculateDueDate P (Date_now E (world s1)) (a_severity parsedAlert)
          (dueDays (jira config)) (a_createdAt parsedAlert) = Ok dueDate ->
        exists sd,
          handleAlert P E dry parsedAlert None s1 = (Ok tt, sd)
          /\ world sd = world s1
          /\ issuesCreated (locals sd) = issuesCreated (locals s1) + 1
          /\ issuesUpdated (locals sd) = issuesUpdated (locals s1)
          /\ issuesClosed (locals sd) = issuesClosed (locals s1)
          /\ processedAlerts (locals sd) = processedAlerts (locals s1))
  /\ (forall issue alertId alertStatus (s : St W),
        exists sd,
          closeResolved E dry issue alertId alertStatus s = (Ok tt, sd)
          /\ world sd = world s
          /\ issuesClosed (locals sd) = issuesClosed (locals s) + 1
          /\ issuesCreated (locals sd) = issuesCreated (locals s)
          /\ issuesUpdated (locals sd) = issuesUpdated (locals s)
          /\ processedAlerts (locals sd) = processedAlerts (locals s))
  /\ (forall l,
        summaryText (dryRun (behavior dry)) l
        = "DRY RUN: Would create " ++ Js.string_of_Z (issuesCreated l)
          ++ " issues, update " ++ Js.string_of_Z (issuesUpdated l)
          ++ " issues, and close " ++ Js.string_of_Z (issuesClosed l)
          ++ " issues").
Proof.
  intros dry real.
  split; [|split; [|split; [|split; [|split; [|split; [|split; [|split;
    [|split; [|split]]]]]]]]].
  - intros owner repo alerts. apply emits_sync_dry. reflexivity.
  - intros Hcfg. eapply emits_run_dry; [|exact Hcfg]. reflexivity.
  - intros. apply createJiraIssue_dry.
  - intros. apply updateJiraIssue_dry.
  - intros. apply closeJiraIssue_dry.
  - intros alert s sr. apply processAlert_same_counters.
  - intros issue alertId alertStatus s sr. apply closeResolved_same_counters.
  - intros parsedAlert existing s1 Hup. eexists.
    split; [apply handleAlert_dry_update, Hup|].
    cbn [world locals issuesUpdated issuesCreated issuesClosed
         processedAlerts incr_updated].
    repeat split; reflexivity.
  - intros parsedAlert s1 dueDate Hdue. eexists.
    split; [eapply handleAlert_dry_create, Hdue|].
    cbn [world locals issuesUpdated issuesCreated issuesClosed
         processedAlerts incr_created].
    repeat split; reflexivity.
  - intros issue alertId alertStatus s. eexists.
    split; [apply closeResolved_dry; reflexivity|].
    cbn [world locals issuesUpdated issuesCreated issuesClosed
         processedAlerts incr_closed].
    repeat split; reflexivity.
  - reflexivity.
Qed.

(** The sample world with one high alert and one ticket whose alert is
    fixed: the dry run sends no POST, and counts one creation, one update
    of an existing ticket and one closure, as the real run does. *)
Lemma dry_run_frame_witness :
  (forall r s',
      run Sample.node
        (Sample.env true [Sample.rawAlert 1 "high"]
           [Sample.ticket "SEC-2" "7"]) Sample.start = (r, s') ->
      exists evs,
        trace s' = (trace Sample.start ++ evs)%list
        /\ Forall not_write evs)
  /\ (exists sd,
        processAlert Sample.node (Sample.env true [] [])
          (withDryRun true (Sample.config false)) (Sample.rawAlert 1 "high")
          Sample.start = (Ok tt, sd)
        /\ issuesCreated (locals sd) = 1)
  /\ (exists sd,
        handleAlert Sample.node (Sample.env true [] [])
          (withDryRun true (Sample.config false))
          (parseAlert (Sample.rawAlert 7 "high"))
          (Some (Sample.ticket "SEC-2" "7")) Sample.start = (Ok tt, sd)
        /\ issuesUpdated (locals sd) = 1
        /\ issuesCreated (locals sd) = 0)
  /\ (exists sd,
        closeResolved (Sample.env true [] [])
          (withDryRun true (Sample.config false)) (Sample.ticket "SEC-2" "7")
          "7" "fixed" Sample.start = (Ok tt, sd)
        /\ issuesClosed (locals sd) = 1).
Proof.
  pose proof (dry_run_frame Sample.node
                (Sample.env true [Sample.rawAlert 1 "high"]
                   [Sample.ticket "SEC-2" "7"]) (Sample.config false))
    as (_ & Hrun & _).
  pose proof (dry_run_frame Sample.node (Sample.env true [] [])
                (Sample.config false))
    as (_ & _ & _ & _ & _ & Halert & Hclose & Hupdate & _).
  split; [|split; [|split]].
  - exact (Hrun eq_refl Sample.start).
  - destruct (processAlert Sample.node (Sample.env true [] [])
                (withDryRun false (Sample.config false))
                (Sample.rawAlert 1 "high") Sample.start) as [r sr] eqn:Hreal.
    pose proof Hreal as Hv. vm_compute in Hv.
    injection Hv as Hr Hs. subst r.
    destruct (Halert _ _ _ Hreal) as (sd & Hd & Hl).
    exists sd. split; [exact Hd|]. rewrite Hl, <- Hs. reflexivity.
  - destruct (Hupdate (parseAlert (Sample.rawAlert 7 "high"))
                (Sample.ticket "SEC-2" "7") Sample.start eq_refl)
      as (sd & Hd & _ & Hu & Hc & _).
    exists sd. split; [exact Hd|]. split; [exact Hu | exact Hc].
  - destruct (closeResolved (Sample.env true [] [])
                (withDryRun false (Sample.config false))
                (Sample.ticket "SEC-2" "7") "7" "fixed" Sample.start)
      as [r sr] eqn:Hreal.
    pose proof Hreal as Hv. vm_compute in Hv.
    injection Hv as Hr Hs. subst r.
    destruct (Hclose _ _ _ _ _ Hreal) as (sd & Hd & Hl).
    exists sd. split; [exact Hd|]. rewrite Hl, <- Hs. reflexivity.
Defined.

(** Where the claim fails. In a dry run, creating the ticket of an alert
    whose creation time is no date returns no sentinel: it throws. And the
    counts of a dry run are not those of a real run when a write of the
    real run fails: with Jira refusing every POST the real run creates
    nothing and counts nothing, while the dry run counts one creation. *)
Lemma dry_run_frame_counterexample :
  fst (createJiraIssue Sample.node (Sample.env true [] [])
         (jira (Sample.config true)) (parseAlert (Sample.undatedAlert 3))
         true Sample.start)
  = Throw (Error_ "Invalid time value")
  /\ issuesCreated
       (locals
          (snd (alertIteration Sample.node
                  (unreachable (Sample.env false [] []) false false
                     (fun _ => true))
                  (Sample.config false) (Sample.rawAlert 1 "high")
                  Sample.start))) = 0
  /\ issuesCreated
       (locals
          (snd (alertIteration Sample.node
                  (unreachable (Sample.env false [] []) false false
                     (fun _ => true))
                  (Sample.config true) (Sample.rawAlert 1 "high")
                  Sample.start))) = 1.
Proof. repeat split; vm_compute; reflexivity. Qed.

(* ===================================================================== *)
(** * Further properties of the code *)
(* ===================================================================== *)

(** ** Numbers written and read back *)

Lemma digit_not_space c :
  Js.is_digit c = true ->
  Js.is_space c = false /\ Ascii.eqb c "-" = false /\ Ascii.eqb c "+" = false.
Proof.
  destruct c as [[|] [|] [|] [|] [|] [|] [|] [|]];
    intros H; try discriminate H; repeat split; reflexivity.
Qed.

Lemma span_digits_all s :
  Js.all_digits s = true -> Js.span_digits s = (s, "").
Proof.
  induction s as [|c s IH]; cbn; [reflexivity|].
  intros H. apply andb_true_iff in H. destruct H as [Hc Hs].
  rewrite Hc, (IH Hs). reflexivity.
Qed.

(** [parseInt] of a non-empty string of digits is its decimal value. *)
Lemma parseInt_digits s :
  Js.all_digits s = true -> s <> "" ->
  Js.parseInt s = Some (Js.digits_val 0 s).
Proof.
  intros Hd Hne. destruct s as [|c r]; [contradiction|].
  pose proof Hd as Hd'. cbn in Hd'. apply andb_true_iff in Hd'.
  destruct Hd' as [Hc _].
  destruct (digit_not_space c Hc) as (Hsp & Hm & Hp).
  unfold Js.parseInt. cbn [Js.skip_spaces]. rewrite Hsp, Hm, Hp.
  rewrite (span_digits_all _ Hd). reflexivity.
Qed.

Lemma digits_val_acc d p :
  Js.digits_val (Zpos p) (NilEmpty.string_of_uint d)
  = Zpos (Pos.of_uint_acc d p).
Proof.
  revert p. induction d; intros p; cbn [NilEmpty.string_of_uint
    Js.digits_val Pos.of_uint_acc]; try reflexivity;
    rewrite <- IHd; f_equal;
    match goal with
    | |- context [Js.digit_val ?c] =>
        let v := eval vm_compute in (Js.digit_val c) in
        change (Js.digit_val c) with v
    end; lia.
Qed.

Lemma digits_val_uint d :
  Js.digits_val 0 (NilEmpty.string_of_uint d) = Z.of_N (Pos.of_uint d).
Proof.
  induction d; cbn [NilEmpty.string_of_uint Js.digits_val Pos.of_uint
    Z.of_N]; try reflexivity; try exact IHd;
    rewrite <- digits_val_acc; f_equal.
Qed.

Lemma parseInt_neg_digits s :
  Js.all_digits s = true -> s <> "" ->
  Js.parseInt (String "-" s) = Some (- Js.digits_val 0 s).
Proof.
  intros Hd Hne. unfold Js.parseInt. cbn [Js.skip_spaces].
  change (Js.is_space "-") with false. cbn iota.
  change (Ascii.eqb "-" "-") with true. cbn iota.
  rewrite (span_digits_all _ Hd).
  destruct s; [contradiction | reflexivity].
Qed.

Lemma digits_val_pos p :
  Js.digits_val 0 (NilZero.string_of_uint (Pos.to_uint p)) = Zpos p.
Proof.
  pose proof (DecimalPos.Unsigned.of_to p) as Hof.
  pose proof (DecimalPos.Unsigned.to_uint_nonnil p) as Hnn.
  assert (Hs : NilZero.string_of_uint (Pos.to_uint p)
               = NilEmpty.string_of_uint (Pos.to_uint p)).
  { destruct (Pos.to_uint p); try reflexivity; contradiction. }
  rewrite Hs, digits_val_uint, Hof. reflexivity.
Qed.

Lemma string_of_pos_digits p :
  Js.all_digits (NilZero.string_of_uint (Pos.to_uint p)) = true
  /\ NilZero.string_of_uint (Pos.to_uint p) <> "".
Proof. exact (string_of_Z_digits (Zpos p) ltac:(lia)). Qed.

(** An integer written in decimal and read back by [parseInt] is the same
    integer. *)
Lemma parseInt_string_of_Z n : Js.parseInt (Js.string_of_Z n) = Some n.
Proof.
  destruct n as [|p|p]; [reflexivity | |].
  - destruct (string_of_pos_digits p) as [Hd Hne].
    change (Js.string_of_Z (Zpos p))
      with (NilZero.string_of_uint (Pos.to_uint p)).
    rewrite (parseInt_digits _ Hd Hne), digits_val_pos. reflexivity.
  - destruct (string_of_pos_digits p) as [Hd Hne].
    change (Js.string_of_Z (Zneg p))
      with (String "-" (NilZero.string_of_uint (Pos.to_uint p))).
    rewrite (parseInt_neg_digits _ Hd Hne), digits_val_pos. reflexivity.
Qed.

Lemma string_of_Z_nonempty n : Js.string_of_Z n <> "".
Proof.
  destruct n as [|p|p]; [discriminate | | discriminate].
  apply (string_of_pos_digits p).
Qed.

(** ** [getConfig] *)

(** X1. [getConfig] reads the four required inputs and then the four
    boolean inputs, in the order of the source; it throws the error of the
    first of these reads that throws, and returns a configuration exactly
    when none of them throws. *)
Theorem getConfig_first_failure (getInput : string -> string)
    (getRequiredInput : string -> result string)
    (getBooleanInput : string -> result bool) :
  failure (Inputs.getConfig getInput getRequiredInput getBooleanInput)
  = firstSome
      (map (fun n => failure (getRequiredInput n)) requiredInputs
       ++ map (fun n => failure (getBooleanInput n)) booleanInputs).
Proof.
  unfold Inputs.getConfig, Inputs.and_then, requiredInputs, booleanInputs.
  cbn [map app firstSome].
  repeat match goal with
  | |- context [getRequiredInput ?n] =>
      destruct (getRequiredInput n); cbn [failure firstSome];
      [|reflexivity]
  | |- context [getBooleanInput ?n] =>
      destruct (getBooleanInput n); cbn [failure firstSome];
      [|reflexivity]
  end.
  reflexivity.
Qed.

Lemma or_default_nonempty s d : d <> "" -> Inputs.or_default s d <> "".
Proof.
  intros Hd. unfold Inputs.or_default.
  destruct (String.eqb s "") eqn:He; [exact Hd|].
  intros ->. discriminate He.
Qed.

Lemma getConfig_ok getInput getRequiredInput getBooleanInput creds cfg :
  Inputs.getConfig getInput getRequiredInput getBooleanInput
  = Ok (creds, cfg) ->
  exists u n t k b1 b2 b3 b4,
    getRequiredInput "jira-url" = Ok u
    /\ getRequiredInput "jira-username" = Ok n
    /\ getRequiredInput "jira-api-token" = Ok t
    /\ getRequiredInput "jira-project-key" = Ok k
    /\ getBooleanInput "exclude-dismissed" = Ok b1
    /\ getBooleanInput "update-existing" = Ok b2
    /\ getBooleanInput "auto-close-resolved" = Ok b3
    /\ getBooleanInput "dry-run" = Ok b4
    /\ creds = {| Inputs.url := u; Inputs.username := n;
                  Inputs.apiToken := t |}
    /\ cfg =
       {| jira :=
            {| projectKey := k;
               issueType :=
                 Inputs.or_default (getInput "jira-issue-type") "Bug";
               priority :=
                 Inputs.or_default (getInput "jira-priority") "Medium";
               labels :=
                 Some (Inputs.or_default (getInput "jira-labels")
                         "dependabot,security");
               assignee := Js.or_null (Some (getInput "jira-assignee"));
               dueDays :=
                 {| dd_critical :=
                      Some (Inputs.parseDays getInput "critical-due-days" "7");
                    dd_high :=
                      Some (Inputs.parseDays getInput "high-due-days" "14");
                    dd_medium :=
                      Some (Inputs.parseDays getInput "medium-due-days" "60");
                    dd_low :=
                      Some (Inputs.parseDays getInput "low-due-days" "90")
                 |} |};
          filters :=
            {| severityThreshold :=
                 Some (Inputs.or_default (getInput "severity-threshold")
                         "medium");
               excludeDismissed := Some b1 |};
          behavior :=
            {| updateExisting := b2;
               autoCloseResolved := b3;
               closeTransition :=
                 Inputs.or_default (getInput "close-transition") "Done";
               closeComment :=
                 Inputs.or_default (getInput "close-comment")
                   "This issue has been automatically closed because the associated Dependabot alert was resolved.";
               dryRun := b4 |} |}.
Proof.
  unfold Inputs.getConfig, Inputs.and_then.
  repeat match goal with
  | |- context [match getRequiredInput ?n with _ => _ end] =>
      destruct (getRequiredInput n); [|discriminate]
  | |- context [match getBooleanInput ?n with _ => _ end] =>
      destruct (getBooleanInput n); [|discriminate]
  end.
  intros [= <- <-]. do 8 eexists. repeat (split; [reflexivity|]).
  reflexivity.
Qed.

Lemma or_days_parse s d :
  or_days (Some (match Js.parseInt s with Some z => Int z | None => NaN end))
    d
  = match Js.parseInt s with
    | Some z => if z =? 0 then d else z
    | None => d
    end.
Proof. destruct (Js.parseInt s); reflexivity. Qed.

(** X2. The number of days added for a severity, from the input to the
    offset [calculateDueDate] uses: with the input left empty it is the
    default of [getConfig] (7, 14, 60, 90); with the input a safe integer
    other than zero, in decimal, it is that integer; with an input that is
    no number or is zero it is the default of [calculateDueDate] (1, 7, 30,
    90). *)
Theorem configured_due_days getInput getRequiredInput getBooleanInput
    creds cfg severity input fromConfig fromDueDate :
  Inputs.getConfig getInput getRequiredInput getBooleanInput
  = Ok (creds, cfg) ->
  In (severity, input, fromConfig, fromDueDate) dueDayInputs ->
  let days := dueDaysFor (dueDays (jira cfg)) severity in
  (getInput input = "" -> days = Some fromConfig)
  /\ (forall n,
        n <> 0 -> Js.safe_integer n ->
        getInput input = Js.string_of_Z n -> days = Some n)
  /\ (getInput input <> "" ->
      Js.parseInt (getInput input) = None
      \/ Js.parseInt (getInput input) = Some 0 ->
      days = Some fromDueDate).
Proof.
  intros Hcfg Hin days.
  destruct (getConfig_ok _ _ _ _ _ Hcfg)
    as (u & n & t & k & b1 & b2 & b3 & b4 & _ & _ & _ & _ & _ & _ & _ & _
        & _ & ->).
  subst days. cbn [jira dueDays].
  unfold dueDayInputs in Hin. cbn [In] in Hin.
  assert (Hor : forall s d, s <> "" -> Inputs.or_default s d = s).
  { intros s d Hs. unfold Inputs.or_default.
    destruct (String.eqb_spec s ""); [contradiction | reflexivity]. }
  destruct Hin as [Hin|[Hin|[Hin|[Hin|[]]]]];
    injection Hin as <- <- <- <-;
    unfold dueDaysFor, daysMap, Inputs.parseDays;
    cbn [daysMap_get String.eqb Ascii.eqb Bool.eqb m_critical m_high
         m_medium m_low dd_critical dd_high dd_medium dd_low];
    rewrite ?or_days_parse;
    (split; [|split]).
  all: try (intros He; rewrite He; reflexivity).
  all: try (intros m Hm _ He;
            rewrite He, (Hor _ _ (string_of_Z_nonempty m)),
              parseInt_string_of_Z;
            destruct (Z.eqb_spec m 0); [contradiction|];
            rewrite ?(proj2 (Z.eqb_neq m 0)) by assumption; reflexivity).
  all: intros Hne [Hp|Hp]; rewrite (Hor _ _ Hne), Hp; reflexivity.
Qed.

Lemma configured_due_days_witness :
  let cfg :=
    match Inputs.getConfig Inputs.sampleInput Inputs.sampleRequired
            Inputs.sampleBoolean with
    | Ok (_, cfg) => cfg
    | Throw _ => Sample.config false
    end in
  dueDaysFor (dueDays (jira cfg)) "high" = Some 14
  /\ dueDaysFor (dueDays (jira cfg)) "low" = Some 45
  /\ dueDaysFor (dueDays (jira cfg)) "critical" = Some 1
  /\ dueDaysFor (dueDays (jira cfg)) "medium" = Some 30.
Proof.
  destruct (Inputs.getConfig Inputs.sampleInput Inputs.sampleRequired
              Inputs.sampleBoolean) as [[creds cfg]|e] eqn:Hcfg;
    [|vm_compute in Hcfg; discriminate Hcfg].
  cbv zeta.
  pose proof (configured_due_days _ _ _ creds cfg "high" "high-due-days"
                14 7 Hcfg ltac:(vm_compute; tauto)) as (Hhigh & _ & _).
  pose proof (configured_due_days _ _ _ creds cfg "low" "low-due-days"
                90 90 Hcfg ltac:(vm_compute; tauto)) as (_ & Hlow & _).
  pose proof (configured_due_days _ _ _ creds cfg "critical"
                "critical-due-days" 7 1 Hcfg ltac:(vm_compute; tauto))
    as (_ & _ & Hcritical).
  pose proof (configured_due_days _ _ _ creds cfg "medium"
                "medium-due-days" 60 30 Hcfg ltac:(vm_compute; tauto))
    as (_ & _ & Hmedium).
  split; [|split; [|split]].
  - apply Hhigh. reflexivity.
  - apply (Hlow 45); [lia | vm_compute; discriminate | reflexivity].
  - apply Hcritical; [discriminate | right; reflexivity].
  - apply Hmedium; [discriminate | left; reflexivity].
Defined.

Lemma split_nonempty c s : Js.split c s <> [].
Proof.
  destruct s as [|a r]; cbn; [discriminate|].
  destruct (Ascii.eqb a c); [discriminate|].
  destruct (Js.split c r); discriminate.
Qed.

(** X3. Under a configuration returned by [getConfig] every ticket that is
    created carries an issue type, a priority and at least one label; with
    the input [jira-labels] left empty the labels are "dependabot" and
    "security", the first of which the search of the auto-close phase asks
    for; an assignee is sent exactly when the input [jira-assignee] is not
    empty. *)
Theorem getConfig_ticket_fields (P : Platform) getInput getRequiredInput
    getBooleanInput creds cfg (alert : Alert) (dueDate : string) :
  Inputs.getConfig getInput getRequiredInput getBooleanInput
  = Ok (creds, cfg) ->
  let data := issueData P (jira cfg) alert dueDate in
  f_issuetype data <> "" /\ f_priority data <> ""
  /\ (exists l ls, f_labels data = Some (l :: ls))
  /\ (getInput "jira-labels" = "" ->
      f_labels data = Some ["dependabot"; "security"])
  /\ (f_assignee data = None <-> getInput "jira-assignee" = "")
  /\ (forall a, f_assignee data = Some a -> a = getInput "jira-assignee").
Proof.
  intros Hcfg data.
  destruct (getConfig_ok _ _ _ _ _ Hcfg)
    as (u & n & t & k & b1 & b2 & b3 & b4 & _ & _ & _ & _ & _ & _ & _ & _
        & _ & ->).
  subst data. unfold issueData.
  cbn [jira f_issuetype f_priority f_labels f_assignee issueType priority
       labels assignee].
  split; [apply or_default_nonempty; discriminate|].
  split; [apply or_default_nonempty; discriminate|].
  split; [|split; [|split]].
  - assert (Hl : truthy (Inputs.or_default (getInput "jira-labels")
                           "dependabot,security") = true).
    { unfold truthy. apply negb_true_iff.
      destruct (String.eqb_spec
                  (Inputs.or_default (getInput "jira-labels")
                     "dependabot,security") ""); [|reflexivity].
      exfalso. revert e. apply or_default_nonempty. discriminate. }
    rewrite Hl.
    pose proof (split_nonempty ","
                  (Inputs.or_default (getInput "jira-labels")
                     "dependabot,security")) as Hs.
    destruct (Js.split _ _) as [|l ls]; [contradiction|].
    exists (Js.trim l), (map Js.trim ls). reflexivity.
  - intros ->. reflexivity.
  - unfold Js.or_null. cbv beta iota.
    destruct (String.eqb_spec (getInput "jira-assignee") "") as [He|Hne];
      cbv beta iota; rewrite ?(proj2 (String.eqb_neq _ _) Hne).
    + split; intros _; [exact He | reflexivity].
    + split; [intros H; discriminate H | intros He; contradiction].
  - unfold Js.or_null. cbv beta iota.
    destruct (String.eqb_spec (getInput "jira-assignee") "") as [He|Hne];
      cbv beta iota; rewrite ?(proj2 (String.eqb_neq _ _) Hne);
      intros a Ha; [discriminate Ha | now injection Ha as <-].
Qed.

Lemma getConfig_ticket_fields_witness :
  exists creds cfg,
    Inputs.getConfig Inputs.sampleInput Inputs.sampleRequired
      Inputs.sampleBoolean = Ok (creds, cfg)
    /\ f_labels (issueData Sample.node (jira cfg)
                   (parseAlert (Sample.rawAlert 7 "high")) "2023-01-17")
       = Some ["dependabot"; "security"].
Proof.
  destruct (Inputs.getConfig Inputs.sampleInput Inputs.sampleRequired
              Inputs.sampleBoolean) as [[creds cfg]|e] eqn:Hcfg;
    [|vm_compute in Hcfg; discriminate Hcfg].
  exists creds, cfg. split; [reflexivity|].
  apply (getConfig_ticket_fields Sample.node _ _ _ creds cfg
           (parseAlert (Sample.rawAlert 7 "high")) "2023-01-17" Hcfg).
  reflexivity.
Defined.

(** ** From a ticket back to its alert *)

Lemma search_some f s r :
  search f s = Some r -> exists t, f t = Some r.
Proof.
  induction s as [|c s IH]; cbn.
  - destruct (f "") eqn:Hf; [intros [= <-]; eauto | discriminate].
  - destruct (f (String c s)) eqn:Hf; [intros [= <-]; eauto | exact IH].
Qed.

Lemma span_digits_fst s : Js.all_digits (fst (Js.span_digits s)) = true.
Proof.
  induction s as [|c s IH]; cbn; [reflexivity|].
  destruct (Js.is_digit c) eqn:Hc; [|reflexivity].
  destruct (Js.span_digits s) as [d t]. cbn in *. now rewrite Hc, IH.
Qed.

Lemma digits1_some s d :
  digits1 s = Some d -> Js.all_digits d = true /\ d <> "".
Proof.
  unfold digits1. pose proof (span_digits_fst s) as Hd.
  destruct (Js.span_digits s) as [x t]. cbn in Hd.
  destruct (String.eqb_spec x ""); [discriminate|].
  intros [= <-]. auto.
Qed.

Lemma match1_digits str d :
  match1 summaryPattern str = Some d
  \/ match1 descriptionPattern str = Some d ->
  Js.all_digits d = true /\ d <> "".
Proof.
  unfold match1, opt_bind. destruct str as [s|]; [|intros [H|H]; discriminate].
  intros [H|H]; apply search_some in H; destruct H as (t & Ht).
  - unfold summaryPattern, opt_bind in Ht.
    destruct (Js.strip_prefix _ t); [|discriminate].
    exact (digits1_some _ _ Ht).
  - unfold descriptionPattern, opt_bind in Ht.
    destruct (Js.strip_prefix _ t); [|discriminate].
    exact (digits1_some _ _ Ht).
Qed.

Lemma digit_val_range c : Js.is_digit c = true -> 0 <= Js.digit_val c <= 9.
Proof.
  destruct c as [[|] [|] [|] [|] [|] [|] [|] [|]];
    intros H; try discriminate H; vm_compute; split; discriminate.
Qed.

Lemma digits_val_nonneg s acc :
  Js.all_digits s = true -> 0 <= acc -> 0 <= Js.digits_val acc s.
Proof.
  revert acc.
  induction s as [|c s IH]; cbn [Js.digits_val Js.all_digits];
    intros acc Hd Hacc; [exact Hacc|].
  apply andb_true_iff in Hd. destruct Hd as [Hc Hs].
  apply IH; [exact Hs|]. pose proof (digit_val_range c Hc). lia.
Qed.

(** X4. Whatever [extractAlertIdFromIssue] returns as an alert id is a
    non-empty string of decimal digits, so the number [getAlertStatus]
    asks GitHub for is defined (never NaN) and not negative; the function
    leaves the state as it was. *)
Theorem extracted_id_is_number {W} (issue : JiraIssue) (st st' : St W)
    (id : string) :
  extractAlertIdFromIssue issue st = (Ok (Some id), st') ->
  st' = st
  /\ Js.all_digits id = true /\ id <> ""
  /\ exists n, 0 <= n /\ Js.parseInt id = Some n.
Proof.
  unfold extractAlertIdFromIssue.
  destruct (match1 summaryPattern (i_summary issue)) as [d|] eqn:Hs.
  - intros [= <- <-].
    destruct (match1_digits _ _ (or_introl Hs)) as [Hd Hne].
    repeat split; try assumption.
    exists (Js.digits_val 0 d).
    split; [apply digits_val_nonneg; [assumption | lia]|].
    apply parseInt_digits; assumption.
  - destruct (match1 descriptionPattern (i_description issue)) as [d|] eqn:Hb.
    + intros [= <- <-].
      destruct (match1_digits _ _ (or_intror Hb)) as [Hd Hne].
      repeat split; try assumption.
      exists (Js.digits_val 0 d).
      split; [apply digits_val_nonneg; [assumption | lia]|].
      apply parseInt_digits; assumption.
    + mred. intros H. discriminate H.
Qed.

Lemma extracted_id_is_number_witness :
  extractAlertIdFromIssue (Sample.ticket "SEC-1" "7") Sample.start
  = (Ok (Some "7"), Sample.start)
  /\ Js.all_digits "7" = true.
Proof.
  assert (H : extractAlertIdFromIssue (Sample.ticket "SEC-1" "7")
                Sample.start = (Ok (Some "7"), Sample.start))
    by (vm_compute; reflexivity).
  split; [exact H|].
  exact (proj1 (proj2 (extracted_id_is_number _ _ _ _ H))).
Defined.

(** X5. A ticket whose summary is the one [createJiraIssue] writes for an
    alert whose number is a safe integer and not negative leads the
    auto-close loop back to that alert: the id extracted is the number in decimal, [parseInt]
    reads it back as the number, and the loop goes on to ask GitHub for
    the status of that alert. *)
Theorem created_ticket_round_trip {W} (P : Platform) (E : Env W)
    (jiraConfig : JiraConfig) (config : Config) (alert : Alert)
    (dueDate owner repo : string) (issue : JiraIssue) (st : St W) :
  0 <= a_id alert <= Js.MAX_SAFE_INTEGER ->
  i_summary issue = Some (f_summary (issueData P jiraConfig alert dueDate)) ->
  let id := Js.string_of_Z (a_id alert) in
  extractAlertIdFromIssue issue st = (Ok (Some id), st)
  /\ Js.parseInt id = Some (a_id alert)
  /\ processIssue E config owner repo issue st
     = bind (getAlertStatus E owner repo id)
         (actOnStatus E config issue id) st.
Proof.
  intros [Hid _] Hsum id.
  destruct (string_of_Z_digits _ Hid) as [Hd Hne].
  assert (Hx : @extractAlertIdFromIssue W issue st = (Ok (Some id), st)).
  { unfold extractAlertIdFromIssue. rewrite Hsum. cbn [f_summary issueData].
    rewrite (summaryPattern_created _ (a_title alert) Hd Hne). reflexivity. }
  split; [exact Hx|]. split; [apply parseInt_string_of_Z|].
  unfold processIssue. rewrite (bind_ok _ _ _ _ _ Hx). reflexivity.
Qed.

Lemma created_ticket_round_trip_witness :
  let alert := parseAlert (Sample.rawAlert 7 "high") in
  let issue :=
    {| key := "SEC-100";
       i_summary :=
         Some (f_summary (issueData Sample.node
                            (jira (Sample.config false)) alert "2023-01-17"));
       i_description := None |} in
  extractAlertIdFromIssue issue Sample.start = (Ok (Some "7"), Sample.start).
Proof.
  cbv zeta.
  apply (created_ticket_round_trip Sample.node
           (Sample.env false [] []) (jira (Sample.config false))
           (Sample.config false) (parseAlert (Sample.rawAlert 7 "high"))
           "2023-01-17" "o" "r" _ Sample.start);
    [split; vm_compute; discriminate | reflexivity].
Defined.

(** ** The severity threshold *)

Lemma filterBySeverity_index threshold i alerts :
  severity_index (Js.toLowerCase threshold) = Some i ->
  filterBySeverity threshold alerts
  = Ok (filter (passesThreshold i) alerts).
Proof.
  intros Hi. unfold filterBySeverity. rewrite indexOf_severity, Hi.
  pose proof (severity_index_range _ _ Hi) as Hr.
  destruct (Z.eqb_spec i (-1)); [lia | reflexivity].
Qed.

Lemma filter_filter_weaker {A} (p q : A -> bool) xs :
  (forall a, q a = true -> p a = true) ->
  filter q (filter p xs) = filter q xs.
Proof.
  intros Hpq. induction xs as [|x xs IH]; cbn; [reflexivity|].
  destruct (p x) eqn:Hp; cbn.
  - now rewrite IH.
  - destruct (q x) eqn:Hq; [|exact IH].
    rewrite (Hpq _ Hq) in Hp. discriminate.
Qed.

(** X6. Raising the severity threshold only removes alerts: for two valid
    thresholds, the alerts kept under the higher one are those kept under
    the lower one, filtered again; in particular filtering twice under the
    same threshold changes nothing. The thresholds are compared without
    regard to letter case. *)
Theorem filterBySeverity_monotone (lower higher : string) (i j : Z)
    (alerts : list RawAlert) :
  severity_index (Js.toLowerCase lower) = Some i ->
  severity_index (Js.toLowerCase higher) = Some j ->
  i <= j ->
  exists keptLower keptHigher,
    filterBySeverity lower alerts = Ok keptLower
    /\ filterBySeverity higher alerts = Ok keptHigher
    /\ filterBySeverity higher keptLower = Ok keptHigher
    /\ filterBySeverity lower keptLower = Ok keptLower
    /\ (forall alert, In alert keptHigher -> In alert keptLower).
Proof.
  intros Hi Hj Hij.
  exists (filter (passesThreshold i) alerts),
         (filter (passesThreshold j) alerts).
  rewrite !(filterBySeverity_index _ _ _ Hi),
          !(filterBySeverity_index _ _ _ Hj).
  assert (Hw : forall a, passesThreshold j a = true
                         -> passesThreshold i a = true).
  { intros a. unfold passesThreshold. rewrite !Z.leb_le. lia. }
  repeat split.
  - now rewrite filter_filter_weaker.
  - now rewrite filter_filter_weaker.
  - intros a Ha. apply filter_In in Ha. destruct Ha as [Hin Hp].
    apply filter_In. auto.
Qed.

Lemma filterBySeverity_monotone_witness :
  filterBySeverity "HIGH"
    [Sample.rawAlert 1 "low"; Sample.rawAlert 2 "critical";
     Sample.rawAlert 3 "medium"; Sample.rawAlert 4 "High"]
  = Ok [Sample.rawAlert 2 "critical"; Sample.rawAlert 4 "High"].
Proof.
  destruct (filterBySeverity_monotone "Medium" "HIGH" 1 2
              [Sample.rawAlert 1 "low"; Sample.rawAlert 2 "critical";
               Sample.rawAlert 3 "medium"; Sample.rawAlert 4 "High"]
              eq_refl eq_refl ltac:(lia))
    as (kl & kh & Hl & Hh & _).
  rewrite Hh. vm_compute in Hh. injection Hh as <-. reflexivity.
Defined.

(** ** Authentication and the repository *)

Section GitHubAccess.

Context {W : Type}.
Variable E : Env W.

(** X7. How [getGitHubToken] chooses. With the three inputs of a GitHub App
    all supplied the installation token is used and the input
    [github-token] is not consulted: a failure to sign the JWT is thrown
    as it is, a refused token request is thrown under the prefix "Failed to
    get installation token: ", and neither falls back to [github-token].
    With any of the three left empty the value of [github-token] is
    returned without a request, and with that empty too the function
    throws before doing anything. *)
Theorem getGitHubToken_outcomes (st : St W) :
  let appId := getInput E "github-app-id" in
  let privateKey := getInput E "github-app-private-key" in
  let installationId := getInput E "github-app-installation-id" in
  let token := getInput E "github-token" in
  let announced :=
    [ info "🔑 Using GitHub App authentication";
      info ("Getting installation token for App ID: " ++ appId
            ++ ", Installation: " ++ installationId);
      installationTokenRequest installationId ] in
  (appId <> "" /\ privateKey <> "" /\ installationId <> "" ->
   match generateJWT E appId privateKey (world st) with
   | Throw e =>
       getGitHubToken E st
       = (Throw e, logged st [info "🔑 Using GitHub App authentication"])
   | Ok jwt =>
       match createInstallationAccessToken E jwt installationId
               (world st) with
       | (Ok installationToken, w) =>
           getGitHubToken E st
           = (Ok installationToken,
              mkSt w (trace st ++ announced) (locals st))
       | (Throw e, w) =>
           getGitHubToken E st
           = (Throw (Error_ ("Failed to get installation token: "
                             ++ message e)),
              mkSt w (trace st ++ announced) (locals st))
       end
   end)
  /\ (appId = "" \/ privateKey = "" \/ installationId = "" ->
      (token <> "" ->
       getGitHubToken E st
       = (Ok token, logged st [info "🔑 Using GitHub token authentication"]))
      /\ (token = "" ->
          exists e, getGitHubToken E st = (Throw e, st))).
Proof.
  cbv zeta. split.
  - intros (Ha & Hk & Hi).
    unfold getGitHubToken, truthy.
    rewrite (proj2 (String.eqb_neq _ _) Ha), (proj2 (String.eqb_neq _ _) Hk),
      (proj2 (String.eqb_neq _ _) Hi).
    cbn [negb andb]. unfold getInstallationToken. mred.
    destruct (generateJWT E _ _ (world st)) as [jwt|e]; [|reflexivity].
    mred.
    destruct (createInstallationAccessToken E jwt _ (world st)) as [[tok|e] w];
      cbn [app]; rewrite <- ?app_assoc; reflexivity.
  - intros Hmissing.
    assert (Hc : truthy (getInput E "github-app-id")
                 && truthy (getInput E "github-app-private-key")
                 && truthy (getInput E "github-app-installation-id")
                 = false).
    { unfold truthy. destruct Hmissing as [->|[->| ->]]; cbn;
        rewrite ?andb_false_r; reflexivity. }
    unfold getGitHubToken. rewrite Hc. split.
    + intros Ht. unfold truthy.
      rewrite (proj2 (String.eqb_neq _ _) Ht). reflexivity.
    + intros ->. eexists. reflexivity.
Qed.


Lemma split_app c a b :
  has_char c a = false ->
  Js.split c (a ++ String c b) = a :: Js.split c b.
Proof.
  induction a as [|x a IH]; cbn [has_char append Js.split].
  - intros _. now rewrite Ascii.eqb_refl.
  - intros H. apply orb_false_iff in H. destruct H as [Hx Ha].
    rewrite Hx, (IH Ha). reflexivity.
Qed.

Lemma split_none c b : has_char c b = false -> Js.split c b = [b].
Proof.
  induction b as [|x b IH]; cbn [has_char Js.split]; [reflexivity|].
  intros H. apply orb_false_iff in H. destruct H as [Hx Hb].
  rewrite Hx, (IH Hb). reflexivity.
Qed.

(** X8. [getRepoInfo] takes [owner/repo] apart again: when the variable
    [GITHUB_REPOSITORY] is an owner and a repository name joined by a
    slash, neither containing a slash, it returns the two and does nothing
    else; when the variable is unset or empty it throws. *)
Theorem getRepoInfo_split (owner repo : string) (st : St W) :
  has_char "/" owner = false ->
  has_char "/" repo = false ->
  (GITHUB_REPOSITORY E = Some (owner ++ "/" ++ repo) ->
   getRepoInfo E st = (Ok (owner, repo), st))
  /\ (GITHUB_REPOSITORY E = None \/ GITHUB_REPOSITORY E = Some "" ->
      getRepoInfo E st
      = (Throw (Error_ "GITHUB_REPOSITORY environment variable is not set"),
         st)).
Proof.
  intros Ho Hr. split.
  - intros Henv. unfold getRepoInfo. rewrite Henv.
    assert (Ht : truthy (owner ++ "/" ++ repo) = true)
      by (destruct owner; reflexivity).
    rewrite Ht. change (owner ++ "/" ++ repo) with (owner ++ String "/" repo).
    rewrite (split_app _ _ _ Ho), (split_none _ _ Hr). reflexivity.
  - intros [Henv|Henv]; unfold getRepoInfo; rewrite Henv; reflexivity.
Qed.

End GitHubAccess.

Lemma getGitHubToken_outcomes_witness :
  getGitHubToken (Sample.env false [] []) Sample.start
  = (Ok "t0k3n",
     logged Sample.start [info "🔑 Using GitHub token authentication"]).
Proof.
  apply (getGitHubToken_outcomes (Sample.env false [] []) Sample.start);
    [left; reflexivity | discriminate].
Defined.

Lemma getRepoInfo_split_witness :
  getRepoInfo (Sample.env false [] []) Sample.start
  = (Ok ("o", "r"), Sample.start).
Proof.
  apply (getRepoInfo_split (Sample.env false [] []) "o" "r" Sample.start);
    reflexivity.
Defined.

(** ** What each Jira function does, request by request *)

Section JiraOutcomes.

Context {W : Type}.
Variable P : Platform.
Variable E : Env W.

(** X9. [findExistingIssue] sends one GET to [/search] and never throws.
    It returns the first issue of the answer; an empty answer gives
    [null]. A failed request, and an answer without a list of issues, give
    [null] as well, after a warning: to the caller a search that failed
    looks like a search that found nothing. *)
Theorem findExistingIssue_outcomes (projectKey : string) (alertId : Z)
    (st : St W) :
  let jql := existingIssueJql projectKey alertId in
  let after w evs :=
    mkSt w (trace st ++ jiraGet "/search" (Some jql) :: evs) (locals st) in
  findExistingIssue E projectKey alertId st
  = match jira_search E "/search" jql (world st) with
    | (Ok (Some (issue :: _)), w) => (Ok (Some issue), after w [])
    | (Ok (Some []), w) => (Ok None, after w [])
    | (Ok None, w) =>
        (Ok None,
         after w
           [warning ("Failed to search for existing issue: "
                     ++ "Cannot read properties of undefined (reading 'length')")])
    | (Throw e, w) =>
        (Ok None,
         after w
           [error ("Jira API Error: " ++ message e);
            warning ("Failed to search for existing issue: "
                     ++ "Jira API Error: " ++ message e)])
    end.
Proof.
  cbv zeta. unfold findExistingIssue, jiraClient. mred.
  destruct (jira_search E _ _ (world st)) as [[[[|issue rest]|]|e] w];
    cbn [world trace locals message Error_];
    rewrite <- ?app_assoc; reflexivity.
Qed.

Lemma findExistingIssue_failed (projectKey : string) (alertId : Z)
    (st : St W) (e : JsError) (w : W) :
  jira_search E "/search" (existingIssueJql projectKey alertId) (world st)
  = (Throw e, w) ->
  findExistingIssue E projectKey alertId st
  = (Ok None,
     mkSt w
       (trace st
        ++ [ jiraGet "/search" (Some (existingIssueJql projectKey alertId));
             error ("Jira API Error: " ++ message e);
             warning ("Failed to search for existing issue: "
                      ++ "Jira API Error: " ++ message e) ])
       (locals st)).
Proof.
  intros Hs. unfold findExistingIssue, jiraClient. mred. rewrite Hs.
  cbn [world trace locals message Error_]. rewrite <- ?app_assoc.
  reflexivity.
Qed.

Lemma findOpenDependabotIssues_never_throws projectKey :
  never_throws (findOpenDependabotIssues E projectKey).
Proof.
  intros s. unfold findOpenDependabotIssues, jiraClient. mred.
  destruct (jira_search E _ _ (world s)) as [[[issues|]|e] w];
    eexists _, _; reflexivity.
Qed.

(** X10. [findOpenDependabotIssues] announces the search, sends one GET
    and never throws: it returns the issues of the answer, no issue when
    the answer carries no list, and no issue, after a warning, when the
    request fails. *)
Theorem findOpenDependabotIssues_outcomes (projectKey : string)
    (st : St W) :
  let jql := openIssuesJql projectKey in
  let after w evs :=
    mkSt w
      (trace st
       ++ info ("Searching for open Dependabot issues in project "
                ++ projectKey)
       :: jiraGet "/rest/api/3/search" (Some jql) :: evs)
      (locals st) in
  findOpenDependabotIssues E projectKey st
  = match jira_search E "/rest/api/3/search" jql (world st) with
    | (Ok (Some issues), w) =>
        (Ok issues,
         after w [info ("Found " ++ len issues ++ " open Dependabot issues")])
    | (Ok None, w) =>
        (Ok [], after w [info "Found 0 open Dependabot issues"])
    | (Throw e, w) =>
        (Ok [],
         after w
           [error ("Jira API Error: " ++ message e);
            warning ("Failed to search for open Dependabot issues: "
                     ++ "Jira API Error: " ++ message e)])
    end.
Proof.
  cbv zeta. unfold findOpenDependabotIssues, jiraClient. mred.
  destruct (jira_search E _ _ (world st)) as [[[issues|]|e] w];
    cbn [world trace locals message Error_ or_obj];
    rewrite <- ?app_assoc; reflexivity.
Qed.

(** X11. [createJiraIssue] computes the due date before anything else: when
    that throws (the creation time of the alert is no date), the error is
    thrown with nothing sent and nothing logged, in a dry run too.
    Otherwise a run that is not dry sends exactly one POST to [/issue]
    with the issue data; it returns the answer of Jira, or logs the error
    twice and throws it under the prefix of the client. *)
Theorem createJiraIssue_outcomes (config : JiraConfig) (alert : Alert)
    (st : St W) :
  match calculateDueDate P (Date_now E (world st)) (a_severity alert)
          (dueDays config) (a_createdAt alert) with
  | Throw e =>
      forall dryRun,
        createJiraIssue P E config alert dryRun st = (Throw e, st)
  | Ok dueDate =>
      let data := issueData P config alert dueDate in
      let after w evs :=
        mkSt w (trace st ++ jiraPost "/issue" (IssueData data) :: evs)
          (locals st) in
      createJiraIssue P E config alert false st
      = match jira_post E "/issue" (IssueData data) (world st) with
        | (Ok created, w) =>
            (Ok {| c_key := created; c_dryRun := false |},
             after w [info ("Created Jira issue: " ++ show created)])
        | (Throw e, w) =>
            (Throw (Error_ ("Jira API Error: " ++ message e)),
             after w
               [error ("Jira API Error: " ++ message e);
                error ("Failed to create Jira issue: "
                       ++ "Jira API Error: " ++ message e)])
        end
  end.
Proof.
  unfold createJiraIssue, jiraClient. mred.
  destruct (calculateDueDate P _ _ _ _) as [dueDate|e]; [|reflexivity].
  cbv zeta.
  destruct (jira_post E _ _ (world st)) as [[created|e] w];
    cbn [world trace locals message Error_];
    rewrite <- ?app_assoc; reflexivity.
Qed.

(** X12. [updateJiraIssue], when the run is not dry, sends exactly one
    POST, the comment, to the comment resource of the ticket; when Jira
    refuses it the error is logged twice and thrown under the prefix of
    the client. Nothing but a comment is ever written to the ticket. *)
Theorem updateJiraIssue_outcomes (issueKey : string) (alert : Alert)
    (st : St W) :
  let url := "/issue/" ++ issueKey ++ "/comment" in
  let body := CommentBody (updateComment P alert) in
  let after w evs :=
    mkSt w (trace st ++ jiraPost url body :: evs) (locals st) in
  updateJiraIssue P E issueKey alert false st
  = match jira_post E url body (world st) with
    | (Ok _, w) =>
        (Ok {| u_updated := true; u_dryRun := false |},
         after w [info ("Updated Jira issue: " ++ issueKey)])
    | (Throw e, w) =>
        (Throw (Error_ ("Jira API Error: " ++ message e)),
         after w
           [error ("Jira API Error: " ++ message e);
            error ("Failed to update Jira issue " ++ issueKey ++ ": "
                   ++ "Jira API Error: " ++ message e)])
    end.
Proof.
  cbv zeta. unfold updateJiraIssue, jiraClient. mred.
  destruct (jira_post E _ _ (world st)) as [[r|e] w];
    cbn [world trace locals message Error_];
    rewrite <- ?app_assoc; reflexivity.
Qed.

(** X13. [closeJiraIssue] comments before it closes. Once the transition
    is found among those Jira offers, a comment that Jira refuses stops the
    function: the error is thrown and no transition is sent, so the ticket
    stays open. A transition that Jira refuses after the comment went
    through is thrown as well, and leaves the ticket open with the closing
    comment on it. With an empty comment only the transition is sent. *)
Theorem closeJiraIssue_comment_first (issueKey transition comment : string)
    (st : St W) (offered : option (list Transition)) (target : Transition)
    (w1 : W) :
  let turl := "/rest/api/3/issue/" ++ issueKey ++ "/transitions" in
  let curl := "/rest/api/3/issue/" ++ issueKey ++ "/comment" in
  let move := jiraPost turl (TransitionBody (t_id target)) in
  let failed e :=
    [ error ("Jira API Error: " ++ message e);
      error ("Failed to close Jira issue " ++ issueKey ++ ": "
             ++ "Jira API Error: " ++ message e) ] in
  let closed :=
    info ("Closed Jira issue: " ++ issueKey ++ " using transition "
          ++ dq ++ transition ++ dq) in
  let finish w evs :=
    match jira_post E turl (TransitionBody (t_id target)) w with
    | (Ok _, w') =>
        (Ok {| cl_closed := true; cl_dryRun := false |},
         mkSt w' (trace st ++ jiraGet turl None :: evs ++ [move; closed])
           (locals st))
    | (Throw e, w') =>
        (Throw (Error_ ("Jira API Error: " ++ message e)),
         mkSt w' (trace st ++ jiraGet turl None :: evs ++ move :: failed e)
           (locals st))
    end in
  jira_transitions E turl (world st) = (Ok offered, w1) ->
  findTransition (or_obj offered []) transition = Some target ->
  closeJiraIssue E issueKey transition comment false st
  = if String.eqb comment "" then finish w1 []
    else
      match jira_post E curl (CommentDoc comment) w1 with
      | (Ok _, w2) => finish w2 [jiraPost curl (CommentDoc comment)]
      | (Throw e, w2) =>
          (Throw (Error_ ("Jira API Error: " ++ message e)),
           mkSt w2
             (trace st ++ jiraGet turl None
              :: jiraPost curl (CommentDoc comment) :: failed e)
             (locals st))
      end.
Proof.
  cbv zeta. intros Hget Hfind.
  unfold closeJiraIssue, jiraClient, truthy. mred.
  rewrite Hget. cbn [world trace locals]. rewrite Hfind.
  destruct (String.eqb comment ""); cbn [negb world trace locals].
  - destruct (jira_post E _ (TransitionBody _) w1) as [[r|e] w'];
      cbn [world trace locals message Error_ app];
      rewrite <- ?app_assoc; reflexivity.
  - destruct (jira_post E _ (CommentDoc _) w1) as [[r|e] w2];
      cbn [world trace locals message Error_ app].
    + destruct (jira_post E _ (TransitionBody _) w2) as [[r'|e] w'];
        cbn [world trace locals message Error_ app];
        rewrite <- ?app_assoc; reflexivity.
    + rewrite <- ?app_assoc. reflexivity.
Qed.

(** X14. A failed look-up of the transitions ends [closeJiraIssue] before
    any write: the error is logged and thrown, and the only request sent is
    the GET. *)
Theorem closeJiraIssue_lookup_failed (issueKey transition comment : string)
    (st : St W) (e : JsError) (w1 : W) :
  let turl := "/rest/api/3/issue/" ++ issueKey ++ "/transitions" in
  jira_transitions E turl (world st) = (Throw e, w1) ->
  closeJiraIssue E issueKey transition comment false st
  = (Throw (Error_ ("Jira API Error: " ++ message e)),
     mkSt w1
       (trace st
        ++ [ jiraGet turl None;
             error ("Jira API Error: " ++ message e);
             error ("Failed to close Jira issue " ++ issueKey ++ ": "
                    ++ "Jira API Error: " ++ message e) ])
       (locals st)).
Proof.
  cbv zeta. intros Hget. unfold closeJiraIssue, jiraClient. mred.
  rewrite Hget. cbn [world trace locals message Error_].
  rewrite <- ?app_assoc. reflexivity.
Qed.

End JiraOutcomes.

Lemma closeJiraIssue_comment_first_witness :
  closeJiraIssue (unreachable (Sample.env false [] []) false false is_comment)
    "SEC-2" "done" "Fixed upstream." false Sample.start
  = (Throw (Error_ "Jira API Error: Service Unavailable"),
     mkSt tt
       [ jiraGet "/rest/api/3/issue/SEC-2/transitions" None;
         jiraPost "/rest/api/3/issue/SEC-2/comment"
           (CommentDoc "Fixed upstream.");
         error "Jira API Error: Service Unavailable";
         error "Failed to close Jira issue SEC-2: Jira API Error: Service Unavailable" ]
       init_locals).
Proof.
  rewrite (closeJiraIssue_comment_first
             (unreachable (Sample.env false [] []) false false is_comment)
             "SEC-2" "done" "Fixed upstream." Sample.start
             (Some [ {| t_id := "21"; t_name := "In Progress" |};
                     {| t_id := "31"; t_name := "Done" |} ])
             {| t_id := "31"; t_name := "Done" |} tt
             ltac:(vm_compute; reflexivity) ltac:(vm_compute; reflexivity)).
  vm_compute. reflexivity.
Defined.

Lemma closeJiraIssue_lookup_failed_witness :
  closeJiraIssue (unreachable (Sample.env false [] []) false true is_comment)
    "SEC-2" "done" "Fixed upstream." false Sample.start
  = (Throw (Error_ "Jira API Error: Service Unavailable"),
     mkSt tt
       [ jiraGet "/rest/api/3/issue/SEC-2/transitions" None;
         error "Jira API Error: Service Unavailable";
         error "Failed to close Jira issue SEC-2: Jira API Error: Service Unavailable" ]
       init_locals).
Proof.
  rewrite (closeJiraIssue_lookup_failed
             (unreachable (Sample.env false [] []) false true is_comment)
             "SEC-2" "done" "Fixed upstream." Sample.start outage tt
             ltac:(vm_compute; reflexivity)).
  vm_compute. reflexivity.
Defined.

(** ** What a computation does to the counters *)

Section Keeps.

Context {W : Type} (R : St W -> St W -> Prop).
Hypothesis R_frame : forall s w tr, R s (mkSt w tr (locals s)).
Hypothesis R_trans : forall s1 s2 s3, R s1 s2 -> R s2 s3 -> R s1 s3.

Lemma R_refl s : R s s.
Proof. destruct s as [w tr l]. apply (R_frame (mkSt w tr l)). Qed.

Lemma keeps_ret {A} (a : A) : keeps R (@ret W A a).
Proof. intros s r s' [= <- <-]. apply R_refl. Qed.

Lemma keeps_throw {A} e : keeps R (@throw W A e).
Proof. intros s r s' [= <- <-]. apply R_refl. Qed.

Lemma keeps_lift {A} (x : result A) : keeps R (@lift W A x).
Proof. intros s r s' [= <- <-]. apply R_refl. Qed.

Lemma keeps_read_world {A} (f : W -> A) : keeps R (read_world f).
Proof. intros s r s' [= <- <-]. apply R_refl. Qed.

Lemma keeps_read_result {A} (f : W -> result A) : keeps R (read_result f).
Proof. intros s r s' [= <- <-]. apply R_refl. Qed.

Lemma keeps_get_locals : keeps R (@get_locals W).
Proof. intros s r s' [= <- <-]. apply R_refl. Qed.

Lemma keeps_emit e : keeps R (@emit W e).
Proof. intros s r s' [= <- <-]. apply R_frame. Qed.

Lemma keeps_request {A} e (op : W -> result A * W) : keeps R (request e op).
Proof.
  intros s r s'. unfold request. destruct (op (world s)) as [x w].
  intros [= <- <-]. apply R_frame.
Qed.

Lemma keeps_bind {A B} (m : M W A) (k : A -> M W B) :
  keeps R m -> (forall a, keeps R (k a)) -> keeps R (bind m k).
Proof.
  intros Hm Hk s r s'. unfold bind.
  destruct (m s) as [[a|e] s1] eqn:Hms.
  - intros Hka. exact (R_trans _ _ _ (Hm _ _ _ Hms) (Hk a _ _ _ Hka)).
  - intros [= <- <-]. exact (Hm _ _ _ Hms).
Qed.

Lemma keeps_try_catch {A} (m : M W A) h :
  keeps R m -> (forall e, keeps R (h e)) -> keeps R (try_catch m h).
Proof.
  intros Hm Hh s r s'. unfold try_catch.
  destruct (m s) as [[a|e] s1] eqn:Hms.
  - intros [= <- <-]. exact (Hm _ _ _ Hms).
  - intros Hhe. exact (R_trans _ _ _ (Hm _ _ _ Hms) (Hh e _ _ _ Hhe)).
Qed.

Lemma keeps_for_of {A} (body : A -> M W unit) xs :
  (forall x, keeps R (body x)) -> keeps R (for_of body xs).
Proof.
  intros Hb. induction xs as [|x xs IH]; cbn [for_of].
  - apply keeps_ret.
  - apply keeps_bind; auto.
Qed.

End Keeps.

Ltac keeps_step :=
  match goal with
  | |- keeps _ (bind _ _) => apply keeps_bind; [assumption | | intros ?]
  | |- keeps _ (try_catch _ _) =>
      apply keeps_try_catch; [assumption | | intros ?]
  | |- keeps _ (ret _) => apply keeps_ret; assumption
  | |- keeps _ (throw _) => apply keeps_throw; assumption
  | |- keeps _ (lift _) => apply keeps_lift; assumption
  | |- keeps _ (read_world _) => apply keeps_read_world; assumption
  | |- keeps _ (read_result _) => apply keeps_read_result; assumption
  | |- keeps _ get_locals => apply keeps_get_locals; assumption
  | |- keeps _ (emit _) => apply keeps_emit; assumption
  | |- keeps _ (request _ _) => apply keeps_request; assumption
  | |- keeps _ (for_of _ _) =>
      apply keeps_for_of; [assumption | assumption | intros ?]
  | |- keeps _ (if ?b then _ else _) => destruct b
  | |- keeps _ (match ?x with _ => _ end) => destruct x
  | |- keeps _ (let (_, _) := ?x in _) => destruct x
  end.

Section Framed.

Context {W : Type} (R : St W -> St W -> Prop).
Hypothesis R_frame : forall s w tr, R s (mkSt w tr (locals s)).
Hypothesis R_trans : forall s1 s2 s3, R s1 s2 -> R s2 s3 -> R s1 s3.
Variable P : Platform.
Variable E : Env W.

Lemma keeps_getGitHubToken : keeps R (getGitHubToken E).
Proof. unfold getGitHubToken, getInstallationToken. repeat keeps_step. Qed.

Lemma keeps_getAlertStatus owner repo alertId :
  keeps R (getAlertStatus E owner repo alertId).
Proof.
  unfold getAlertStatus.
  apply keeps_bind; [assumption | apply keeps_getGitHubToken |].
  intros token. repeat keeps_step.
Qed.

Lemma keeps_findExistingIssue projectKey alertId :
  keeps R (findExistingIssue E projectKey alertId).
Proof. unfold findExistingIssue, jiraClient. repeat keeps_step. Qed.

Lemma keeps_findOpenDependabotIssues projectKey :
  keeps R (findOpenDependabotIssues E projectKey).
Proof. unfold findOpenDependabotIssues, jiraClient. repeat keeps_step. Qed.

Lemma keeps_extractAlertIdFromIssue issue :
  keeps R (@extractAlertIdFromIssue W issue).
Proof. unfold extractAlertIdFromIssue. repeat keeps_step. Qed.

Lemma keeps_createJiraIssue config alert dryRun :
  keeps R (createJiraIssue P E config alert dryRun).
Proof. unfold createJiraIssue, jiraClient. repeat keeps_step. Qed.

Lemma keeps_updateJiraIssue issueKey alert dryRun :
  keeps R (updateJiraIssue P E issueKey alert dryRun).
Proof. unfold updateJiraIssue, jiraClient. repeat keeps_step. Qed.

Lemma keeps_closeJiraIssue issueKey transition comment dryRun :
  keeps R (closeJiraIssue E issueKey transition comment dryRun).
Proof. unfold closeJiraIssue, jiraClient. repeat keeps_step. Qed.

End Framed.

Lemma same_locals_frame {W} (s : St W) w tr :
  same_locals s (mkSt w tr (locals s)).
Proof. reflexivity. Qed.

Lemma same_locals_trans {W} (s1 s2 s3 : St W) :
  same_locals s1 s2 -> same_locals s2 s3 -> same_locals s1 s3.
Proof. unfold same_locals. congruence. Qed.

Lemma closed_more_frame {W} (s : St W) w tr :
  closed_more s (mkSt w tr (locals s)).
Proof. unfold closed_more. cbn. repeat split; lia. Qed.

Lemma closed_more_trans {W} (s1 s2 s3 : St W) :
  closed_more s1 s2 -> closed_more s2 s3 -> closed_more s1 s3.
Proof.
  unfold closed_more. intros (A1 & B1 & C1 & D1) (A2 & B2 & C2 & D2).
  repeat split; try congruence. lia.
Qed.

Lemma bind_inv {W A B} (m : M W A) (k : A -> M W B) s r s' :
  bind m k s = (r, s') ->
  (exists a s1, m s = (Ok a, s1) /\ k a s1 = (r, s'))
  \/ (exists e, m s = (Throw e, s') /\ r = Throw e).
Proof.
  unfold bind. destruct (m s) as [[a|e] s1].
  - intros H. left. eauto.
  - intros [= <- <-]. right. eauto.
Qed.

Section Counters.

Context {W : Type}.
Variable P : Platform.
Variable E : Env W.
Variable config : Config.

(** What [handleAlert] leaves in the counters. *)
Lemma handleAlert_locals parsedAlert existingIssue (s : St W) r s' :
  handleAlert P E config parsedAlert existingIssue s = (r, s') ->
  locals s' = locals s
  \/ (r = Ok tt /\ existingIssue <> None
      /\ locals s' = incr_updated (locals s))
  \/ (r = Ok tt /\ existingIssue = None
      /\ locals s' = incr_created (locals s)).
Proof.
  unfold handleAlert. destruct existingIssue as [existing|].
  - destruct (updateExisting (behavior config)).
    + intros H. apply bind_inv in H.
      destruct H as [(u1 & s1 & H1 & H)|(e & H1 & ->)];
        [|left; injection H1 as _ <-; reflexivity].
      injection H1 as _ <-.
      apply bind_inv in H.
      destruct H as [(u2 & s2 & H2 & H)|(e & H2 & ->)].
      * apply (keeps_updateJiraIssue same_locals same_locals_frame
                 same_locals_trans) in H2.
        injection H as <- <-. right. left.
        split; [reflexivity|]. split; [discriminate|].
        cbn [locals]. now rewrite H2.
      * apply (keeps_updateJiraIssue same_locals same_locals_frame
                 same_locals_trans) in H2. left. exact H2.
    + intros [= <- <-]. left. reflexivity.
  - intros H. apply bind_inv in H.
    destruct H as [(c & s1 & H1 & H)|(e & H1 & ->)].
    + apply (keeps_createJiraIssue same_locals same_locals_frame
               same_locals_trans) in H1.
      apply bind_inv in H.
      destruct H as [(u2 & s2 & H2 & H)|(e & H2 & ->)];
        [|discriminate H2].
      injection H2 as _ <-.
      right. right.
      assert (Hr : r = Ok tt /\ locals s' = incr_created (locals s1)).
      { destruct (negb (dryRun (behavior config)));
          injection H as <- <-; split; reflexivity. }
      destruct Hr as [-> Hl]. rewrite Hl, H1. auto.
    + apply (keeps_createJiraIssue same_locals same_locals_frame
               same_locals_trans) in H1. left. exact H1.
Qed.

(** One turn of the loop over the alerts: the alert is recorded as
    processed, and at most one of the two counters goes up by one. *)
Lemma alertIteration_counters alert (s : St W) r s' :
  alertIteration P E config alert s = (r, s') ->
  r = Ok tt
  /\ processedAlerts (locals s')
     = (processedAlerts (locals s) ++ [parseAlert alert])%list
  /\ issuesClosed (locals s') = issuesClosed (locals s)
  /\ ((issuesCreated (locals s') = issuesCreated (locals s)
       /\ issuesUpdated (locals s') = issuesUpdated (locals s))
      \/ (issuesCreated (locals s') = issuesCreated (locals s) + 1
          /\ issuesUpdated (locals s') = issuesUpdated (locals s))
      \/ (issuesCreated (locals s') = issuesCreated (locals s)
          /\ issuesUpdated (locals s') = issuesUpdated (locals s) + 1)).
Proof.
  unfold alertIteration, try_catch.
  destruct (processAlert P E config alert s) as [[[]|e] s1] eqn:Hp.
  - intros [= <- <-]. split; [reflexivity|].
    rewrite processAlert_lookup in Hp. apply bind_inv in Hp.
    destruct Hp as [(x & s0 & H0 & H)|(e & _ & He)]; [|discriminate He].
    apply (keeps_findExistingIssue same_locals same_locals_frame
             same_locals_trans) in H0.
    unfold same_locals, announced in H0. cbn [locals] in H0.
    apply handleAlert_locals in H.
    destruct H as [H|[(_ & _ & H)|(_ & _ & H)]]; rewrite H, H0; cbn;
      (split; [reflexivity|]); (split; [reflexivity|]); tauto.
  - mred. intros [= <- <-]. split; [reflexivity|]. cbn [locals].
    rewrite processAlert_lookup in Hp. apply bind_inv in Hp.
    destruct Hp as [(x & s0 & H0 & H)|(e' & H0 & _)].
    + apply (keeps_findExistingIssue same_locals same_locals_frame
               same_locals_trans) in H0.
      unfold same_locals, announced in H0. cbn [locals] in H0.
      apply handleAlert_locals in H.
      destruct H as [H|[(Hr & _)|(Hr & _)]]; try discriminate Hr.
      rewrite H, H0. cbn.
      (split; [reflexivity|]); (split; [reflexivity|]); tauto.
    + apply (keeps_findExistingIssue same_locals same_locals_frame
               same_locals_trans) in H0.
      unfold same_locals, announced in H0. cbn [locals] in H0.
      rewrite H0. cbn.
      (split; [reflexivity|]); (split; [reflexivity|]); tauto.
Qed.

Lemma for_of_alertIteration_locals (alerts : list RawAlert) (st : St W) :
  exists st',
    for_of (alertIteration P E config) alerts st = (Ok tt, st')
    /\ processedAlerts (locals st')
       = (processedAlerts (locals st) ++ map parseAlert alerts)%list
    /\ issuesClosed (locals st') = issuesClosed (locals st)
    /\ issuesCreated (locals st) <= issuesCreated (locals st')
    /\ issuesUpdated (locals st) <= issuesUpdated (locals st')
    /\ issuesCreated (locals st') + issuesUpdated (locals st')
       <= issuesCreated (locals st) + issuesUpdated (locals st)
          + Z.of_nat (List.length alerts).
Proof.
  revert st. induction alerts as [|alert alerts IH]; intros st.
  - exists st. cbn. rewrite app_nil_r. repeat split; lia.
  - cbn [for_of].
    destruct (alertIteration P E config alert st) as [r s1] eqn:H1.
    destruct (alertIteration_counters _ _ _ _ H1) as (-> & Hp & Hc & Hcu).
    destruct (IH s1) as (st' & Hloop & Hp' & Hc' & Hle1 & Hle2 & Hsum).
    exists st'. rewrite (bind_ok _ _ _ _ _ H1).
    split; [exact Hloop|].
    rewrite Hp', Hp, Hc', Hc. cbn [map List.length].
    rewrite <- app_assoc. cbn [app].
    repeat split; try reflexivity; lia.
Qed.

(** X15. The loop over the alerts never throws, and when it ends every
    alert has been recorded as processed, in order, whether or not its
    ticket could be written: the number of processed alerts has grown by
    the number of alerts. Each alert raises at most one of the counts of
    created and updated tickets, by one, and the count of closed tickets
    is not touched. *)
Theorem alert_loop_counters (alerts : list RawAlert) (st : St W) :
  exists st',
    for_of (alertIteration P E config) alerts st = (Ok tt, st')
    /\ processedAlerts (locals st')
       = (processedAlerts (locals st) ++ map parseAlert alerts)%list
    /\ List.length (processedAlerts (locals st'))
       = (List.length (processedAlerts (locals st))
          + List.length alerts)%nat
    /\ issuesClosed (locals st') = issuesClosed (locals st)
    /\ issuesCreated (locals st) <= issuesCreated (locals st')
    /\ issuesUpdated (locals st) <= issuesUpdated (locals st')
    /\ issuesCreated (locals st') + issuesUpdated (locals st')
       <= issuesCreated (locals st) + issuesUpdated (locals st)
          + Z.of_nat (List.length alerts).
Proof.
  destruct (for_of_alertIteration_locals alerts st)
    as (st' & Hloop & Hp & Hk & Hc & Hu & Hsum).
  exists st'. split; [exact Hloop|]. split; [exact Hp|].
  split; [rewrite Hp, length_app, length_map; reflexivity|].
  repeat split; assumption.
Qed.

Lemma closeResolved_locals issue alertId alertStatus (s : St W) r s' :
  closeResolved E config issue alertId alertStatus s = (r, s') ->
  locals s' = locals s \/ locals s' = incr_closed (locals s).
Proof.
  unfold closeResolved. intros H. apply bind_inv in H.
  destruct H as [(c & s1 & H1 & H)|(e & H1 & ->)].
  - apply (keeps_closeJiraIssue same_locals same_locals_frame
             same_locals_trans) in H1.
    apply bind_inv in H.
    destruct H as [(u2 & s2 & H2 & H)|(e & H2 & ->)]; [|discriminate H2].
    injection H2 as _ <-. right.
    assert (Hl : locals s' = incr_closed (locals s1)).
    { destruct (negb (dryRun (behavior config)));
        injection H as _ <-; reflexivity. }
    rewrite Hl, H1. reflexivity.
  - apply (keeps_closeJiraIssue same_locals same_locals_frame
             same_locals_trans) in H1. left. exact H1.
Qed.

(** One turn of the auto-close loop closes at most one ticket and touches
    no other counter. *)
Lemma issueIteration_counters owner repo issue (s : St W) r s' :
  issueIteration E config owner repo issue s = (r, s') ->
  r = Ok tt
  /\ (locals s' = locals s \/ locals s' = incr_closed (locals s)).
Proof.
  assert (Hbody : forall r1 s1,
            processIssue E config owner repo issue s = (r1, s1) ->
            locals s1 = locals s \/ locals s1 = incr_closed (locals s)).
  { intros r1 s1. unfold processIssue. intros H. apply bind_inv in H.
    destruct H as [(id & s0 & H0 & H)|(e & H0 & ->)].
    - apply (keeps_extractAlertIdFromIssue same_locals same_locals_frame
               same_locals_trans) in H0.
      destruct id as [id|]; [|left; injection H as _ <-; exact H0].
      apply bind_inv in H.
      destruct H as [(status & s2 & H2 & H)|(e & H2 & ->)].
      + apply (keeps_getAlertStatus same_locals same_locals_frame
                 same_locals_trans) in H2.
        unfold same_locals in H0, H2. rewrite <- H0, <- H2.
        unfold actOnStatus in H.
        destruct (isResolved status);
          [exact (closeResolved_locals _ _ _ _ _ _ H)|].
        destruct (String.eqb status "open");
          injection H as _ <-; left; reflexivity.
      + apply (keeps_getAlertStatus same_locals same_locals_frame
                 same_locals_trans) in H2.
        unfold same_locals in H0, H2. left. congruence.
    - apply (keeps_extractAlertIdFromIssue same_locals same_locals_frame
               same_locals_trans) in H0. left. exact H0. }
  unfold issueIteration, try_catch.
  destruct (processIssue E config owner repo issue s) as [[[]|e] s1] eqn:Hp.
  - intros [= <- <-]. split; [reflexivity|]. exact (Hbody _ _ eq_refl).
  - mred. intros [= <- <-]. split; [reflexivity|]. cbn [locals].
    exact (Hbody _ _ eq_refl).
Qed.

(** X16. The auto-close loop never throws; it closes at most one ticket
    for each ticket it is given, and leaves the counts of created and
    updated tickets and the list of processed alerts as they were. *)
Theorem issue_loop_counters (owner repo : string)
    (openIssues : list JiraIssue) (st : St W) :
  exists st',
    for_of (issueIteration E config owner repo) openIssues st = (Ok tt, st')
    /\ issuesCreated (locals st') = issuesCreated (locals st)
    /\ issuesUpdated (locals st') = issuesUpdated (locals st)
    /\ processedAlerts (locals st') = processedAlerts (locals st)
    /\ issuesClosed (locals st) <= issuesClosed (locals st')
       <= issuesClosed (locals st) + Z.of_nat (List.length openIssues).
Proof.
  revert st. induction openIssues as [|issue issues IH]; intros st.
  - exists st. cbn. repeat split; lia.
  - cbn [for_of].
    destruct (issueIteration E config owner repo issue st) as [r s1] eqn:H1.
    destruct (issueIteration_counters _ _ _ _ _ _ H1) as (-> & Hl).
    destruct (IH s1) as (st' & Hloop & Hc & Hu & Hp & Hk).
    exists st'. rewrite (bind_ok _ _ _ _ _ H1).
    split; [exact Hloop|].
    rewrite Hc, Hu, Hp. cbn [List.length].
    destruct Hl as [Hl|Hl]; rewrite Hl in *; cbn in *;
      repeat split; try reflexivity; lia.
Qed.

End Counters.

(** ** The run as a whole *)

Ltac unfold_program :=
  unfold main, sync, noAlerts, reportResults, autoClosePhase,
    issueIteration, processIssue, actOnStatus, closeResolved,
    alertIteration, processAlert, handleAlert, closeJiraIssue,
    extractAlertIdFromIssue, findOpenDependabotIssues, updateJiraIssue,
    createJiraIssue, findExistingIssue, jiraClient, getAlertStatus,
    getDependabotAlerts, getRepoInfo, getGitHubToken, getInstallationToken.

Lemma never_throws_emit {W} e : never_throws (@emit W e).
Proof. intros s. eexists tt, _. reflexivity. Qed.

Lemma never_throws_bind {W A B} (m : M W A) (k : A -> M W B) :
  never_throws m -> (forall a, never_throws (k a)) ->
  never_throws (bind m k).
Proof.
  intros Hm Hk s. destruct (Hm s) as (a & s1 & H1).
  destruct (Hk a s1) as (b & s2 & H2).
  exists b, s2. now rewrite (bind_ok _ _ _ _ _ H1).
Qed.

Lemma never_throws_try_catch {W A} (m : M W A) h :
  (forall e, never_throws (h e)) -> never_throws (try_catch m h).
Proof.
  intros Hh s. unfold try_catch. destruct (m s) as [[a|e] s1].
  - exists a, s1. reflexivity.
  - apply Hh.
Qed.

Lemma never_throws_unit {W} (m : M W unit) s :
  never_throws m -> exists s', m s = (Ok tt, s').
Proof. intros H. destruct (H s) as ([] & s' & Hs). eauto. Qed.

Section WholeRun.

Context {W : Type}.
Variable P : Platform.
Variable E : Env W.
Variable config : Config.

(** X17. The body of the [try] of the auto-close phase never throws: the
    search turns its failure into an empty list and every turn of the loop
    catches its own errors. So the handler that logs "Auto-close phase
    failed" never runs, and the phase is its body. *)
Theorem auto_close_body_never_throws (owner repo : string) :
  let body :=
    openIssues <- findOpenDependabotIssues E (projectKey (jira config)) ;;
    for_of (issueIteration E config owner repo) openIssues ;;
    emit (info ("Processed " ++ len openIssues
                ++ " open Dependabot issues for auto-close")) in
  never_throws body
  /\ (autoCloseResolved (behavior config) = true ->
      forall st,
        autoClosePhase E config owner repo st
        = bind (emit (info (nl ++ "🔄 Checking for resolved alerts to auto-close...")))
            (fun _ => body) st).
Proof.
  cbv zeta.
  assert (Hbody : never_throws
            (openIssues <- findOpenDependabotIssues E
                             (projectKey (jira config)) ;;
             for_of (issueIteration E config owner repo) openIssues ;;
             emit (info ("Processed " ++ len openIssues
                         ++ " open Dependabot issues for auto-close")))).
  { apply never_throws_bind; [apply findOpenDependabotIssues_never_throws|].
    intros openIssues. apply never_throws_bind.
    - apply for_of_never_throws. intros issue.
      apply issueIteration_never_throws.
    - intros _. apply never_throws_emit. }
  split; [exact Hbody|].
  intros Hauto st. unfold autoClosePhase. rewrite Hauto.
  assert (He : emit (info (nl ++ "🔄 Checking for resolved alerts to auto-close..."))
                 st
               = (Ok tt,
                  logged st [info (nl ++ "🔄 Checking for resolved alerts to auto-close...")]))
    by reflexivity.
  rewrite !(bind_ok _ _ _ _ _ He). unfold try_catch.
  destruct (Hbody (logged st [info (nl ++ "🔄 Checking for resolved alerts to auto-close...")]))
    as ([] & s' & Hs).
  rewrite Hs. reflexivity.
Qed.

Lemma autoClosePhase_never_throws owner repo :
  never_throws (autoClosePhase E config owner repo).
Proof.
  unfold autoClosePhase. destruct (autoCloseResolved (behavior config)).
  - apply never_throws_bind; [apply never_throws_emit|].
    intros _. apply never_throws_try_catch. intros e.
    apply never_throws_emit.
  - apply never_throws_emit.
Qed.

Lemma keeps_incr_closed : keeps closed_more (@update_locals W incr_closed).
Proof.
  intros s r s' [= <- <-]. unfold closed_more. cbn. repeat split; lia.
Qed.

Lemma keeps_autoClosePhase owner repo :
  keeps closed_more (autoClosePhase E config owner repo).
Proof.
  pose proof (@closed_more_frame W) as Hf.
  pose proof (@closed_more_trans W) as Ht.
  unfold autoClosePhase, issueIteration, processIssue, actOnStatus,
    closeResolved.
  repeat first
    [ apply keeps_incr_closed
    | apply keeps_findOpenDependabotIssues; assumption
    | apply keeps_extractAlertIdFromIssue; assumption
    | apply keeps_getAlertStatus; assumption
    | apply keeps_closeJiraIssue; assumption
    | keeps_step ].
Qed.

Lemma emits_no_output_loops owner repo alerts :
  emits no_output
    (for_of (alertIteration P E config) alerts ;;
     autoClosePhase E config owner repo).
Proof. unfold_program. emits_prog. Qed.

Lemma reportResults_trace (s : St W) :
  exists evs,
    reportResults config s
    = (Ok tt,
       mkSt (world s)
         (trace s ++ evs
          ++ [ setOutput "issues-created"
                 (Js.string_of_Z (issuesCreated (locals s)));
               setOutput "issues-updated"
                 (Js.string_of_Z (issuesUpdated (locals s)));
               setOutput "issues-closed"
                 (Js.string_of_Z (issuesClosed (locals s)));
               setOutput "alerts-processed" (len (processedAlerts (locals s)));
               setOutput "summary"
                 (summaryText (dryRun (behavior config)) (locals s));
               info "✅ Dependabot Jira Sync completed successfully" ])
         (locals s))
    /\ Forall no_output evs.
Proof.
  unfold reportResults. mred.
  destruct (dryRun (behavior config)); mred.
  - eexists [_; _; _; _; _; _]. rewrite <- !app_assoc. cbn [app].
    split; [reflexivity|]. repeat constructor.
  - eexists [_; _; _; _; _]. rewrite <- !app_assoc. cbn [app].
    split; [reflexivity|]. repeat constructor.
Qed.

(** X18. A run that found alerts never throws from [sync] on, and sets its
    five outputs once, at the very end: the number of alerts processed is
    the number of alerts that passed the filters, whether or not their
    tickets could be written; the counts of created and updated tickets
    are not negative and together do not exceed that number; the count of
    closed tickets is not negative. *)
Theorem sync_outputs (owner repo : string) (alert : RawAlert)
    (alerts : list RawAlert) (st : St W) :
  exists st' evs,
    sync P E config owner repo (alert :: alerts) st = (Ok tt, st')
    /\ trace st'
       = (trace st ++ evs
          ++ finalOutputs (dryRun (behavior config)) (alert :: alerts)
               (locals st'))%list
    /\ Forall no_output evs
    /\ processedAlerts (locals st') = map parseAlert (alert :: alerts)
    /\ 0 <= issuesCreated (locals st')
    /\ 0 <= issuesUpdated (locals st')
    /\ 0 <= issuesClosed (locals st')
    /\ issuesCreated (locals st') + issuesUpdated (locals st')
       <= Z.of_nat (List.length (alert :: alerts)).
Proof.
  unfold sync.
  set (s0 := mkSt (world st) (trace st) init_locals).
  assert (H0 : update_locals (fun _ => init_locals) st = (Ok tt, s0))
    by reflexivity.
  rewrite (bind_ok _ _ _ _ _ H0).
  destruct (for_of_alertIteration_locals P E config (alert :: alerts) s0)
    as (s1 & Hloop & Hp & Hk & Hc & Hu & Hsum).
  rewrite (bind_ok _ _ _ _ _ Hloop).
  destruct (never_throws_unit _ s1 (autoClosePhase_never_throws owner repo))
    as (s2 & Hauto).
  rewrite (bind_ok _ _ _ _ _ Hauto).
  destruct (reportResults_trace s2) as (evs3 & Hrep & Hq3).
  destruct (emits_no_output_loops owner repo (alert :: alerts) s0 (Ok tt) s2)
    as (evs12 & Htr & Hq12).
  { rewrite (bind_ok _ _ _ _ _ Hloop). exact Hauto. }
  destruct (keeps_autoClosePhase owner repo _ _ _ Hauto)
    as (Kc & Ku & Kp & Kk).
  eexists _, (evs12 ++ evs3)%list. split; [exact Hrep|].
  cbn [trace locals].
  subst s0. cbn [trace locals init_locals issuesCreated issuesUpdated
                  issuesClosed processedAlerts] in *.
  split.
  { rewrite Htr, <- !app_assoc. unfold finalOutputs, len.
    rewrite Kp, Hp. cbn [app]. rewrite length_map. reflexivity. }
  split; [apply Forall_app; split; assumption|].
  rewrite Kp, Kc, Ku, Hp. cbn [app].
  repeat split; try lia.
Qed.

(** X19. A ticket that exists is never created again: with an existing
    ticket at hand the loop sends no POST that creates an issue, and with
    [update-existing] off it sends nothing at all and only logs that the
    ticket is skipped. *)
Theorem existing_ticket_not_duplicated (parsedAlert : Alert)
    (existing : JiraIssue) :
  emits no_creation (handleAlert P E config parsedAlert (Some existing))
  /\ (updateExisting (behavior config) = false ->
      forall st,
        handleAlert P E config parsedAlert (Some existing) st
        = (Ok tt,
           logged st [info ("Skipping existing issue: " ++ key existing
                            ++ " (update-existing is false)")])).
Proof.
  split.
  - unfold handleAlert, updateJiraIssue, jiraClient. emits_prog.
  - intros Hu st. unfold handleAlert. rewrite Hu. reflexivity.
Qed.

Lemma sync_never_throws owner repo alerts :
  never_throws (sync P E config owner repo alerts).
Proof.
  unfold sync. destruct alerts as [|a alerts].
  - unfold noAlerts. repeat (apply never_throws_bind;
      [apply never_throws_emit | intros _]). apply never_throws_emit.
  - apply never_throws_bind; [intros s; eexists tt, _; reflexivity|].
    intros _. apply never_throws_bind.
    { apply for_of_never_throws. intros x.
      apply alertIteration_never_throws. }
    intros _. apply never_throws_bind;
      [apply autoClosePhase_never_throws|].
    intros _ s. destruct (reportResults_trace s) as (evs & H & _).
    eexists tt, _. exact H.
Qed.

Lemma throws_after_bind (Q : event -> Prop) {A B} (m : M W A)
    (k : A -> M W B) :
  emits Q m -> (forall a, throws_after Q (k a)) ->
  throws_after Q (bind m k).
Proof.
  intros Hm Hk s e s' H. apply bind_inv in H.
  destruct H as [(a & s1 & H1 & H)|(e' & H1 & _)].
  - destruct (Hm _ _ _ H1) as (ev1 & E1 & F1).
    destruct (Hk a _ _ _ H) as (ev2 & E2 & F2).
    exists (ev1 ++ ev2)%list. rewrite E2, E1, app_assoc.
    split; [reflexivity|]. apply Forall_app; auto.
  - exact (Hm _ _ _ H1).
Qed.

Lemma throws_after_never (Q : event -> Prop) {A} (m : M W A) :
  never_throws m -> throws_after Q m.
Proof.
  intros Hm s e s' H. destruct (Hm s) as (a & s1 & H1).
  rewrite H1 in H. discriminate H.
Qed.

Lemma main_throws_quietly : throws_after quiet (main P E config).
Proof.
  unfold main.
  apply throws_after_bind; [emits_prog|]. intros _.
  apply throws_after_bind; [emits_prog|]. intros _.
  apply throws_after_bind; [unfold getRepoInfo; emits_prog|].
  intros [owner repo].
  apply throws_after_bind; [emits_prog|]. intros _.
  apply throws_after_bind;
    [unfold getDependabotAlerts, getGitHubToken, getInstallationToken;
     emits_prog|].
  intros alerts. apply throws_after_never, sync_never_throws.
Qed.

Lemma emits_no_failure_main : emits no_failure (main P E config).
Proof. unfold_program. emits_prog. Qed.

End WholeRun.

Lemma auto_close_body_never_throws_witness :
  autoClosePhase
    (Sample.env false [] [Sample.ticket "SEC-2" "7"; unreachableTicket])
    (Sample.config true) "o" "r" Sample.start
  = bind (emit (info (nl ++ "🔄 Checking for resolved alerts to auto-close...")))
      (fun _ =>
         openIssues <- findOpenDependabotIssues
                         (Sample.env false []
                            [Sample.ticket "SEC-2" "7"; unreachableTicket])
                         "SEC" ;;
         for_of (issueIteration
                   (Sample.env false []
                      [Sample.ticket "SEC-2" "7"; unreachableTicket])
                   (Sample.config true) "o" "r") openIssues ;;
         emit (info ("Processed " ++ len openIssues
                     ++ " open Dependabot issues for auto-close")))
      Sample.start.
Proof.
  apply (auto_close_body_never_throws
           (Sample.env false [] [Sample.ticket "SEC-2" "7"; unreachableTicket])
           (Sample.config true) "o" "r").
  reflexivity.
Defined.

Lemma existing_ticket_not_duplicated_witness :
  let config :=
    {| jira := jira (Sample.config false);
       filters := filters (Sample.config false);
       behavior :=
         {| updateExisting := false; autoCloseResolved := true;
            closeTransition := "Done"; closeComment := "Closed.";
            dryRun := false |} |} in
  handleAlert Sample.node (Sample.env false [] []) config
    (parseAlert (Sample.rawAlert 7 "high")) (Some (Sample.ticket "SEC-2" "7"))
    Sample.start
  = (Ok tt,
     logged Sample.start
       [info "Skipping existing issue: SEC-2 (update-existing is false)"]).
Proof.
  cbv zeta.
  apply (existing_ticket_not_duplicated Sample.node (Sample.env false [] [])).
  reflexivity.
Defined.

(** X20. [run] fails the workflow only before it turns to Jira. With a
    configuration at hand it never throws, and either nothing it does is
    [setFailed], or [setFailed] is the last thing it does and no request
    has been sent to Jira before: a failure that concerns a single alert
    or a single ticket never fails the run. *)
Theorem run_failure_before_jira {W} (P : Platform) (E : Env W)
    (config : Config) (st : St W) :
  getConfig E = Ok config ->
  exists st' evs,
    run P E st = (Ok tt, st')
    /\ trace st' = (trace st ++ evs)%list
    /\ (Forall no_failure evs
        \/ exists msg before,
             evs = (before ++ [setFailed msg])%list
             /\ Forall quiet before).
Proof.
  intros Hcfg. unfold run, try_catch, lift. unfold bind at 1. rewrite Hcfg.
  destruct (main P E config st) as [[[]|e] s1] eqn:Hmain.
  - destruct (emits_no_failure_main P E config _ _ _ Hmain)
      as (evs & Htr & Hq).
    exists s1, evs. split; [reflexivity|]. split; [exact Htr|]. left.
    exact Hq.
  - destruct (main_throws_quietly P E config _ _ _ Hmain)
      as (evs & Htr & Hq).
    eexists _, (evs ++ [setFailed (message e)])%list.
    split; [reflexivity|]. cbn [trace]. rewrite Htr, <- app_assoc.
    split; [reflexivity|]. right. eauto.
Qed.

Lemma run_failure_before_jira_witness :
  exists st' evs,
    run Sample.node
      (Sample.env false [Sample.rawAlert 7 "high"]
         [Sample.ticket "SEC-2" "7"]) Sample.start = (Ok tt, st')
    /\ trace st' = (trace Sample.start ++ evs)%list.
Proof.
  destruct (run_failure_before_jira Sample.node
              (Sample.env false [Sample.rawAlert 7 "high"]
                 [Sample.ticket "SEC-2" "7"])
              (Sample.config false) Sample.start eq_refl)
    as (st' & evs & Hrun & Htr & _).
  exists st', evs. split; assumption.
Defined.

(** ** When a request fails *)

(** X21. A search for the ticket of an alert that fails does not stop the
    alert: [findExistingIssue] answers as if there were no ticket, and the
    loop goes on to create one. In a run that is not dry, for an alert
    whose due date can be computed, the POST that creates the ticket is
    sent right after the warning about the failed search. *)
Theorem failed_search_creates_ticket {W} (P : Platform) (E : Env W)
    (config : Config) (alert : RawAlert) (st : St W) (e : JsError) (w : W)
    (dueDate : string) :
  let jql :=
    existingIssueJql (projectKey (jira config)) (number alert) in
  let parsedAlert := parseAlert alert in
  dryRun (behavior config) = false ->
  jira_search E "/search" jql (world st) = (Throw e, w) ->
  calculateDueDate P (Date_now E w) (a_severity parsedAlert)
    (dueDays (jira config)) (a_createdAt parsedAlert) = Ok dueDate ->
  exists r st' evs,
    processAlert P E config alert st = (r, st')
    /\ trace st'
       = (trace st
          ++ [ processingLine alert;
               jiraGet "/search" (Some jql);
               error ("Jira API Error: " ++ message e);
               warning ("Failed to search for existing issue: "
                        ++ "Jira API Error: " ++ message e);
               jiraPost "/issue"
                 (IssueData (issueData P (jira config) parsedAlert dueDate)) ]
          ++ evs)%list.
Proof.
  cbv zeta. intros Hdry Hsearch Hdue.
  rewrite processAlert_lookup.
  assert (Hfind := findExistingIssue_failed E (projectKey (jira config))
                     (number alert) (announced alert st) e w Hsearch).
  rewrite (bind_ok _ _ _ _ _ Hfind).
  unfold handleAlert, createJiraIssue, jiraClient. rewrite Hdry. mred.
  rewrite Hdue. cbn [negb].
  destruct (jira_post E _ _ w) as [[created|e'] w'];
    cbn [world trace locals message Error_];
    do 3 eexists; (split; [reflexivity|]);
    unfold announced; cbn [trace]; rewrite <- !app_assoc; cbn [app];
    reflexivity.
Qed.

Lemma failed_search_creates_ticket_witness :
  exists r st',
    processAlert Sample.node
      (unreachable (Sample.env false [] []) true false (fun _ => false))
      (Sample.config false) (Sample.rawAlert 7 "high") Sample.start
    = (r, st')
    /\ existsb creates_ticket (trace st') = true.
Proof.
  destruct (failed_search_creates_ticket Sample.node
              (unreachable (Sample.env false [] []) true false
                 (fun _ => false))
              (Sample.config false) (Sample.rawAlert 7 "high") Sample.start
              outage tt "2023-01-17"
              ltac:(vm_compute; reflexivity) ltac:(vm_compute; reflexivity)
              ltac:(vm_compute; reflexivity))
    as (r & st' & evs & Hrun & Htr).
  exists r, st'. split; [exact Hrun|].
  rewrite Htr. cbn [trace Sample.start app]. unfold processingLine.
  cbn [existsb creates_ticket orb]. reflexivity.
Defined.

(** X22. [getDependabotAlerts], once it has a token, sends one request for
    the alerts of the repository: for the open alerts unless
    [excludeDismissed] is false, then for all of them. A failed request is
    logged and thrown again as it is, with its status; an answer is
    counted, filtered by the threshold (medium when none is given) and
    counted again. *)
Theorem getDependabotAlerts_outcomes {W} (E : Env W) (owner repo : string)
    (options : Filters) (st : St W) (token : string) (s1 : St W) :
  let state :=
    match excludeDismissed options with
    | Some false => "all"
    | _ => "open"
    end in
  let threshold :=
    match severityThreshold options with
    | Some t => t
    | None => "medium"
    end in
  let after w evs :=
    mkSt w
      (trace s1
       ++ info ("Fetching Dependabot alerts for " ++ owner ++ "/" ++ repo)
       :: listAlertsForRepo owner repo state :: evs)
      (locals s1) in
  let failed e :=
    error ("Failed to fetch Dependabot alerts: " ++ message e) in
  getGitHubToken E st = (Ok token, s1) ->
  getDependabotAlerts E owner repo options st
  = match github_listAlertsForRepo E token owner repo state (world s1) with
    | (Throw e, w) => (Throw e, after w [failed e])
    | (Ok alerts, w) =>
        let found := info ("Found " ++ len alerts ++ " total alerts") in
        match filterBySeverity threshold alerts with
        | Ok kept =>
            (Ok kept,
             after w
               [found;
                info (len kept ++ " alerts match severity threshold: "
                      ++ threshold)])
        | Throw e => (Throw e, after w [found; failed e])
        end
    end.
Proof.
  cbv zeta. intros Htok. unfold getDependabotAlerts.
  rewrite (bind_ok _ _ _ _ _ Htok).
  replace (or_obj (excludeDismissed options) true)
    with (match excludeDismissed options with
          | Some false => false
          | _ => true
          end)
    by (destruct (excludeDismissed options) as [[|]|]; reflexivity).
  replace (or_obj (severityThreshold options) "medium")
    with (match severityThreshold options with
          | Some t => t
          | None => "medium"
          end)
    by (destruct (severityThreshold options); reflexivity).
  mred.
  destruct (excludeDismissed options) as [[|]|];
    (destruct (github_listAlertsForRepo E token owner repo _ (world s1))
       as [[alerts|e] w];
     cbn [world trace locals];
     [ destruct (filterBySeverity _ alerts) as [kept|e];
       cbn [world trace locals]; rewrite <- ?app_assoc; reflexivity
     | rewrite <- ?app_assoc; reflexivity ]).
Qed.

Lemma getDependabotAlerts_outcomes_witness :
  getDependabotAlerts
    (Sample.env false [Sample.rawAlert 1 "low"; Sample.rawAlert 7 "high"] [])
    "o" "r"
    {| severityThreshold := None; excludeDismissed := Some false |}
    Sample.start
  = (Ok [Sample.rawAlert 7 "high"],
     mkSt tt
       [ info "🔑 Using GitHub token authentication";
         info "Fetching Dependabot alerts for o/r";
         listAlertsForRepo "o" "r" "all";
         info "Found 2 total alerts";
         info "1 alerts match severity threshold: medium" ]
       init_locals).
Proof.
  rewrite (getDependabotAlerts_outcomes
             (Sample.env false
                [Sample.rawAlert 1 "low"; Sample.rawAlert 7 "high"] [])
             "o" "r"
             {| severityThreshold := None; excludeDismissed := Some false |}
             Sample.start "t0k3n"
             (logged Sample.start
                [info "🔑 Using GitHub token authentication"])
             ltac:(vm_compute; reflexivity)).
  vm_compute. reflexivity.
Defined.

(** ** The transition that closes a ticket *)

(** X23. The transition [closeJiraIssue] uses is the first one Jira offers
    whose name is the configured name up to letter case; when it finds
    none, no offered transition has that name. *)
Theorem findTransition_first_match (offered : list Transition)
    (transition : string) :
  match findTransition offered transition with
  | Some target =>
      exists before rest,
        offered = (before ++ target :: rest)%list
        /\ Js.toLowerCase (t_name target) = Js.toLowerCase transition
        /\ forall t, In t before ->
             Js.toLowerCase (t_name t) <> Js.toLowerCase transition
  | None =>
      forall t, In t offered ->
        Js.toLowerCase (t_name t) <> Js.toLowerCase transition
  end.
Proof.
  unfold findTransition.
  induction offered as [|t0 offered IH]; cbn [find].
  - intros t [].
  - destruct (String.eqb_spec (Js.toLowerCase (t_name t0))
                (Js.toLowerCase transition)) as [Heq|Hne].
    + exists [], offered. split; [reflexivity|]. split; [exact Heq|].
      intros t [].
    + destruct (find _ offered) as [target|].
      * destruct IH as (before & rest & -> & Hm & Hb).
        exists (t0 :: before), rest. split; [reflexivity|].
        split; [exact Hm|].
        intros t [<-|Hin]; [exact Hne | exact (Hb t Hin)].
      * intros t [<-|Hin]; [exact Hne | exact (IH t Hin)].
Qed.
